(** * pipeline-elt-iim: cleaning, aggregation, publication and freshness

    A shallow embedding of the four pipeline stages of the repository
    ([flows/silver_transformation.py], [flows/gold_aggregation.py],
    [flows/gold_to_mongo.py], [app/api.py]) and the properties their
    specification states about them.

    Conventions of the embedding:
    - a pandas [DataFrame] is a list of named, typed columns (pandas is
      columnar; the dtype of a column decides which branch of the cleaning
      code touches it, so the dtype is part of the data);
    - numbers are exact rationals [Qc]: the rounding of float64 arithmetic
      is not modelled, division by zero is (see [xfloat]);
    - the library parsers [pd.to_datetime], [pd.to_numeric] and
      [datetime.fromisoformat] are parameters constrained by the laws the
      code relies on (class [Pandas], section variables), with concrete
      instances for running the model on examples. *)

From Stdlib Require Import ZArith QArith Qcanon String Ascii List Lia.
From stdpp Require Import base list strings gmap numbers sorting.

Open Scope string_scope.

(** Closes a decidable goal on concrete data by evaluation. *)
Ltac by_compute := apply (bool_decide_unpack _); vm_compute; exact I.

(** ** Python strings: [str.strip], [str.lower], the [in] substring test

    Characters are the code points below 256. *)
Module PyStr.

(** [str.isspace] on one character. *)
Definition is_space (c : ascii) : bool :=
  let n := nat_of_ascii c in
  ((9 <=? n)%nat && (n <=? 13)%nat) || ((28 <=? n)%nat && (n <=? 32)%nat)
  || (n =? 133)%nat || (n =? 160)%nat.

(** [str.lower] on one character: A-Z, and the Latin-1 capitals. *)
Definition lower_char (c : ascii) : ascii :=
  let n := nat_of_ascii c in
  if ((65 <=? n)%nat && (n <=? 90)%nat)
     || ((192 <=? n)%nat && (n <=? 222)%nat && negb (n =? 215)%nat)
  then ascii_of_nat (n + 32) else c.

Fixpoint lower (s : string) : string :=
  match s with
  | EmptyString => EmptyString
  | String c s' => String (lower_char c) (lower s')
  end.

Fixpoint lstrip (s : string) : string :=
  match s with
  | EmptyString => EmptyString
  | String c s' => if is_space c then lstrip s' else s
  end.

Fixpoint rstrip (s : string) : string :=
  match s with
  | EmptyString => EmptyString
  | String c s' =>
      match rstrip s' with
      | EmptyString => if is_space c then EmptyString else String c EmptyString
      | r => String c r
      end
  end.

Definition strip (s : string) : string := rstrip (lstrip s).

(** [needle in hay]. *)
Fixpoint contains (needle hay : string) : bool :=
  String.prefix needle hay ||
  match hay with
  | EmptyString => false
  | String _ hay' => contains needle hay'
  end.

Definition starts_space (s : string) : bool :=
  match s with
  | EmptyString => false
  | String c _ => is_space c
  end.

Lemma is_space_lower_char c : is_space (lower_char c) = is_space c.
Proof.
  destruct c as [[] [] [] [] [] [] [] []]; vm_compute; reflexivity.
Qed.

Lemma lower_char_idem c : lower_char (lower_char c) = lower_char c.
Proof.
  destruct c as [[] [] [] [] [] [] [] []]; vm_compute; reflexivity.
Qed.

Lemma lower_idem s : lower (lower s) = lower s.
Proof.
  induction s as [|c s IH]; simpl; [reflexivity|].
  by rewrite lower_char_idem, IH.
Qed.

Lemma lstrip_lower s : lstrip (lower s) = lower (lstrip s).
Proof.
  induction s as [|c s IH]; simpl; [reflexivity|].
  rewrite is_space_lower_char. by destruct (is_space c).
Qed.

Lemma rstrip_lower s : rstrip (lower s) = lower (rstrip s).
Proof.
  induction s as [|c s IH]; simpl; [reflexivity|].
  rewrite IH, is_space_lower_char.
  destruct (rstrip s); simpl; [by destruct (is_space c)|reflexivity].
Qed.

Lemma strip_lower s : strip (lower s) = lower (strip s).
Proof. unfold strip. by rewrite lstrip_lower, rstrip_lower. Qed.

Lemma lstrip_no_space s : starts_space s = false → lstrip s = s.
Proof. destruct s as [|c s]; simpl; [done|]. by intros ->. Qed.

Lemma lstrip_starts s : starts_space (lstrip s) = false.
Proof.
  induction s as [|c s IH]; simpl; [reflexivity|].
  destruct (is_space c) eqn:E; [exact IH|]. simpl. exact E.
Qed.

Lemma rstrip_starts s : starts_space s = false → starts_space (rstrip s) = false.
Proof.
  destruct s as [|c s]; simpl; [done|]. intros E.
  destruct (rstrip s); simpl; rewrite ?E; simpl; rewrite ?E; reflexivity.
Qed.

Lemma rstrip_idem s : rstrip (rstrip s) = rstrip s.
Proof.
  induction s as [|c s IH]; simpl; [reflexivity|].
  destruct (rstrip s) as [|d r] eqn:E.
  - destruct (is_space c) eqn:Ec; simpl; [reflexivity|]. by rewrite Ec.
  - change (rstrip (String c (String d r))) with
      (match rstrip (String d r) with
       | EmptyString => if is_space c then EmptyString else String c EmptyString
       | r' => String c r'
       end).
    by rewrite IH.
Qed.

Lemma strip_idem s : strip (strip s) = strip s.
Proof.
  unfold strip.
  rewrite (lstrip_no_space (rstrip (lstrip s))).
  - apply rstrip_idem.
  - apply rstrip_starts, lstrip_starts.
Qed.

Lemma strip_lower_strip s : strip (lower (strip s)) = lower (strip s).
Proof. by rewrite strip_lower, strip_idem. Qed.

End PyStr.

(** ** pandas DataFrames *)
Module Frame.

(** A [pd.Timestamp]: calendar date and nanoseconds since midnight. *)
Record timestamp := Timestamp {
  ts_year : Z; ts_month : Z; ts_day : Z; ts_nanos : Z }.

#[global] Instance timestamp_eq_dec : EqDecision timestamp.
Proof. solve_decision. Defined.

(** A column and its dtype. [None] is the missing value of the dtype
    (NaN, NaT). An [object] column holds strings or NaN, as [pd.read_csv]
    produces it; int64 and float64 are both [FloatCol]. The tables of the
    pipeline have no bool column, and the model has none. *)
Inductive column :=
| ObjectCol (vs : list (option string))
| FloatCol (vs : list (option Qc))
| DatetimeCol (vs : list (option timestamp)).

#[global] Instance column_eq_dec : EqDecision column.
Proof. solve_decision. Defined.

Inductive value :=
| VStr (s : string)
| VNum (q : Qc)
| VDate (t : timestamp).

#[global] Instance value_eq_dec : EqDecision value.
Proof. solve_decision. Defined.

Abbreviation cell := (option value).

Definition cells (c : column) : list cell :=
  match c with
  | ObjectCol vs => fmap (M:=option) VStr <$> vs
  | FloatCol vs => fmap (M:=option) VNum <$> vs
  | DatetimeCol vs => fmap (M:=option) VDate <$> vs
  end.

Definition col_len (c : column) : nat := length (cells c).

(** Column labels in order, each with its column. *)
Definition frame := list (string * column).

Definition columns (df : frame) : list string := fst <$> df.

(** [len(df)]. *)
Definition nrows (df : frame) : nat :=
  match df with
  | [] => 0
  | (_, c) :: _ => col_len c
  end.

(** [df[name]]; [None] is the [KeyError]. *)
Fixpoint col_lookup (name : string) (df : frame) : option column :=
  match df with
  | [] => None
  | (n, c) :: df' => if decide (n = name) then Some c else col_lookup name df'
  end.

(** The rows of a frame, each the list of its cells in column order. *)
Fixpoint rows_n (n : nat) (df : frame) : list (list cell) :=
  match df with
  | [] => replicate n []
  | (_, c) :: df' => zip_with cons (cells c) (rows_n n df')
  end.

Definition rows (df : frame) : list (list cell) := rows_n (nrows df) df.

(** [Series.notna] on one value. *)
Definition notna {A} (v : option A) : bool :=
  match v with Some _ => true | None => false end.

(** Boolean indexing [s[mask]]: the positions where the mask is true. *)
Fixpoint take_mask {A} (m : list bool) (l : list A) : list A :=
  match m, l with
  | b :: m', x :: l' => if b then x :: take_mask m' l' else take_mask m' l'
  | _, _ => []
  end.

Definition col_mask (m : list bool) (c : column) : column :=
  match c with
  | ObjectCol vs => ObjectCol (take_mask m vs)
  | FloatCol vs => FloatCol (take_mask m vs)
  | DatetimeCol vs => DatetimeCol (take_mask m vs)
  end.

(** [df[mask]]. *)
Definition frame_mask (m : list bool) (df : frame) : frame :=
  prod_map id (col_mask m) <$> df.

(** [df.dropna(how="all")]: a row goes when all its values are missing. *)
Definition dropna_all (df : frame) : frame :=
  frame_mask (existsb notna <$> rows df) df.

(** [~df.duplicated()] with the default [keep="first"]: true at the first
    occurrence of each row. Missing values compare equal to each other,
    as in pandas. *)
Fixpoint first_seen {A} `{EqDecision A} (seen l : list A) : list bool :=
  match l with
  | [] => []
  | x :: l' => bool_decide (x ∉ seen) :: first_seen (x :: seen) l'
  end.

(** [df.drop_duplicates()]. *)
Definition drop_duplicates (df : frame) : frame :=
  frame_mask (first_seen [] (rows df)) df.

(** [df.columns = [f(c) for c in df.columns]]. *)
Definition rename_columns (f : string → string) (df : frame) : frame :=
  prod_map f id <$> df.

(** [if name in df.columns: df = df[df[name].notna()]]. *)
Definition filter_notna (name : string) (df : frame) : frame :=
  match col_lookup name df with
  | Some c => frame_mask (notna <$> cells c) df
  | None => df
  end.

(** The position of a label among the labels. *)
Fixpoint label_index (name : string) (labels : list string) : option nat :=
  match labels with
  | [] => None
  | n :: labels' =>
      if decide (n = name) then Some 0%nat else S <$> label_index name labels'
  end.

(** The cell of a row under a label ([row[name]]); missing when the
    table has no such label. *)
Definition row_cell (labels : list string) (name : string) (r : list cell)
  : cell :=
  match label_index name labels with
  | Some i => default None (r !! i)
  | None => None
  end.

(** Every column has [n] values. *)
Definition uniform (n : nat) (df : frame) : Prop :=
  Forall (λ nc, col_len nc.2 = n) df.

(** A well-formed table: the labels are distinct once stripped (the
    cleaning code addresses columns by stripped label) and all columns
    have the length of the index. *)
Definition frame_ok (df : frame) : Prop :=
  NoDup (PyStr.strip <$> columns df) ∧ uniform (nrows df) df.

Definition count_true (m : list bool) : nat := length (take_mask m m).

(** *** Masks *)

Lemma take_mask_nil_r {A} m : take_mask m (@nil A) = [].
Proof. by destruct m. Qed.

Lemma take_mask_fmap {A B} (f : A → B) m l :
  take_mask m (f <$> l) = f <$> take_mask m l.
Proof.
  revert l. induction m as [|b m IH]; intros [|x l]; simpl; try done.
  destruct b; simpl; by rewrite IH.
Qed.

Lemma take_mask_length {A} m (l : list A) :
  length l = length m → length (take_mask m l) = count_true m.
Proof.
  unfold count_true. revert l.
  induction m as [|b m IH]; intros [|x l]; simpl; try done.
  intros [= H]. destruct b; simpl; by rewrite (IH l H).
Qed.

Lemma take_mask_zip_with {A B C} (f : A → B → C) m l k :
  take_mask m (zip_with f l k) = zip_with f (take_mask m l) (take_mask m k).
Proof.
  revert l k. induction m as [|b m IH]; intros [|x l] [|y k]; simpl; try done.
  - destruct b; [|by destruct (take_mask m l)].
    simpl. by destruct (take_mask m l).
  - destruct b; simpl; by rewrite IH.
Qed.

Lemma take_mask_replicate {A} m (x : A) :
  take_mask m (replicate (length m) x) = replicate (count_true m) x.
Proof.
  unfold count_true. induction m as [|b m IH]; simpl; [done|].
  destruct b; simpl; by rewrite IH.
Qed.

Lemma take_mask_all_true {A} (l : list A) m :
  Forall (λ b, b = true) m → (length l ≤ length m)%nat → take_mask m l = l.
Proof.
  intros Hm. revert l. induction Hm as [|b m -> _ IH]; intros [|x l]; simpl;
    try done; [lia|].
  intros H. f_equal. apply IH. lia.
Qed.

Lemma take_mask_Forall {A} (P : A → Prop) m l :
  Forall P l → Forall P (take_mask m l).
Proof.
  intros H. revert m. induction H as [|x l Hx _ IH]; intros [|b m]; simpl;
    try constructor.
  destruct b; [constructor|]; auto.
Qed.

Lemma take_mask_sublist {A} m (l : list A) : sublist (take_mask m l) l.
Proof.
  revert l. induction m as [|b m IH]; intros [|x l]; simpl;
    try apply sublist_nil_l.
  destruct b; [apply sublist_skip|apply sublist_cons]; apply IH.
Qed.

Lemma take_mask_self_notna {A} (l : list (option A)) :
  Forall (λ v, notna v = true) (take_mask (notna <$> l) l).
Proof.
  induction l as [|[x|] l IH]; simpl; [constructor| |exact IH].
  constructor; [done|exact IH].
Qed.

Lemma cells_col_mask m c : cells (col_mask m c) = take_mask m (cells c).
Proof. destruct c; simpl; by rewrite take_mask_fmap. Qed.

Lemma col_mask_all_true m c :
  Forall (λ b, b = true) m → (col_len c ≤ length m)%nat → col_mask m c = c.
Proof.
  intros Hm. unfold col_len. destruct c; simpl; rewrite length_fmap;
    intros H; f_equal; by apply take_mask_all_true.
Qed.

Lemma frame_mask_all_true m df :
  Forall (λ b, b = true) m → uniform (length m) df → frame_mask m df = df.
Proof.
  intros Hm Hu. unfold frame_mask.
  induction Hu as [|[n c] df Hc _ IH]; [done|].
  rewrite fmap_cons, IH. unfold prod_map; simpl. f_equal. f_equal.
  apply col_mask_all_true; [done|]. simpl in Hc. lia.
Qed.

(** *** Shape *)

Lemma columns_frame_mask m df : columns (frame_mask m df) = columns df.
Proof.
  unfold columns, frame_mask. rewrite <- list_fmap_compose.
  apply list_fmap_ext. by intros _ [n c] _.
Qed.

Lemma col_lookup_frame_mask name m df :
  col_lookup name (frame_mask m df) = col_mask m <$> col_lookup name df.
Proof.
  induction df as [|[n c] df IH]; simpl; [done|].
  destruct (decide (n = name)); [done|exact IH].
Qed.

Lemma col_lookup_Some name df c :
  col_lookup name df = Some c → (name, c) ∈ df.
Proof.
  induction df as [|[n c'] df IH]; simpl; [done|].
  destruct (decide (n = name)) as [->|].
  - intros [= ->]. apply list_elem_of_here.
  - intros H. apply list_elem_of_further, IH, H.
Qed.

Lemma col_lookup_is_Some name df :
  name ∈ columns df ↔ is_Some (col_lookup name df).
Proof.
  unfold columns. induction df as [|[n c] df IH]; simpl.
  - split; [by intros ?%elem_of_nil|by intros [? ?]].
  - destruct (decide (n = name)) as [->|Hne].
    + split; [by eexists|intros _; apply list_elem_of_here].
    + rewrite <- IH, elem_of_cons. simpl. split; [by intros [?|?]|by right].
Qed.

Lemma uniform_nrows n df : uniform n df → df ≠ [] → nrows df = n.
Proof. intros H. destruct H as [|[? c] df Hc _]; [done|]. by intros _. Qed.

Lemma uniform_frame_mask m df :
  uniform (length m) df → uniform (count_true m) (frame_mask m df).
Proof.
  unfold uniform, frame_mask. intros H. apply Forall_fmap.
  induction H as [|[n c] df Hc _ IH]; constructor; [|exact IH].
  simpl in *. unfold col_len in *. rewrite cells_col_mask.
  by apply take_mask_length.
Qed.

Lemma frame_ok_uniform df : frame_ok df → uniform (nrows df) df.
Proof. by intros [_ ?]. Qed.

Lemma uniform_self df n : uniform n df → uniform (nrows df) df.
Proof.
  intros H. destruct df as [|nc df]; [constructor|].
  by rewrite (uniform_nrows n (nc :: df)).
Qed.

Lemma rows_n_length n df : uniform n df → length (rows_n n df) = n.
Proof.
  induction 1 as [|[? c] df Hc _ IH]; simpl.
  - apply length_replicate.
  - rewrite length_zip_with, IH. simpl in Hc. unfold col_len in Hc. lia.
Qed.

Lemma rows_length df n : uniform n df → length (rows df) = nrows df.
Proof. intros H. apply rows_n_length. by eapply uniform_self. Qed.

Lemma rows_n_frame_mask m df :
  uniform (length m) df →
  rows_n (count_true m) (frame_mask m df) = take_mask m (rows_n (length m) df).
Proof.
  induction 1 as [|[? c] df Hc _ IH]; simpl.
  - by rewrite take_mask_replicate.
  - by rewrite take_mask_zip_with, cells_col_mask, IH.
Qed.

Lemma rows_frame_mask m df :
  uniform (length m) df → length m = nrows df →
  rows (frame_mask m df) = take_mask m (rows df).
Proof.
  intros Hu Hm. unfold rows. rewrite <- Hm.
  rewrite <- (rows_n_frame_mask m df Hu). f_equal.
  destruct df as [|[? c] df]; simpl.
  - simpl in Hm. by destruct m.
  - unfold col_len. rewrite cells_col_mask. apply take_mask_length.
    simpl in Hm. unfold col_len in Hm. lia.
Qed.

(** *** Duplicates *)

Lemma first_seen_length {A} `{EqDecision A} (seen l : list A) :
  length (first_seen seen l) = length l.
Proof. revert seen. induction l; intros; simpl; by rewrite ?IHl. Qed.

Lemma take_first_seen_NoDup {A} `{EqDecision A} (seen l : list A) :
  NoDup (take_mask (first_seen seen l) l)
  ∧ ∀ x, x ∈ take_mask (first_seen seen l) l → x ∉ seen.
Proof.
  revert seen. induction l as [|x l IH]; intros seen; simpl.
  - split; [constructor|by intros ? ?%elem_of_nil].
  - destruct (IH (x :: seen)) as [Hnd Hout].
    destruct (bool_decide_reflect (x ∉ seen)) as [Hx|Hx].
    + split.
      * constructor; [|exact Hnd]. intros Hin. apply (Hout x Hin).
        apply list_elem_of_here.
      * intros y [->|Hy]%elem_of_cons; [exact Hx|].
        intros Hs. apply (Hout y Hy). by apply list_elem_of_further.
    + split; [exact Hnd|]. intros y Hy Hs. apply (Hout y Hy).
      by apply list_elem_of_further.
Qed.

Lemma first_seen_all_true {A} `{EqDecision A} (seen l : list A) :
  NoDup l → (∀ x, x ∈ l → x ∉ seen) →
  Forall (λ b, b = true) (first_seen seen l).
Proof.
  intros Hnd. revert seen. induction Hnd as [|x l Hx _ IH]; intros seen Hs;
    simpl; constructor.
  - apply bool_decide_eq_true. apply Hs, list_elem_of_here.
  - apply IH. intros y Hy [->|Hys]%elem_of_cons; [done|].
    by apply (Hs y); [apply list_elem_of_further|].
Qed.

Lemma take_first_seen_elem {A} `{EqDecision A} (seen l : list A) x :
  x ∈ l → x ∉ seen → x ∈ take_mask (first_seen seen l) l.
Proof.
  revert seen. induction l as [|y l IH]; intros seen; [by intros ?%elem_of_nil|].
  simpl. intros Hin Hx.
  destruct (bool_decide_reflect (y ∉ seen)) as [Hy|Hy].
  - destruct (decide (x = y)) as [->|Hne]; [apply list_elem_of_here|].
    apply list_elem_of_further, IH.
    + apply elem_of_cons in Hin as [?|?]; done.
    + by intros [?|?]%elem_of_cons.
  - apply IH.
    + apply elem_of_cons in Hin as [->|?]; done.
    + intros [->|?]%elem_of_cons; done.
Qed.

(** *** Rows and columns *)

Lemma take_mask_fmap_filter {A} (f : A → bool) l :
  take_mask (f <$> l) l = List.filter f l.
Proof.
  induction l as [|x l IH]; [done|].
  rewrite fmap_cons. simpl. rewrite IH. by destruct (f x).
Qed.

Lemma label_index_None name labels :
  name ∉ labels → label_index name labels = None.
Proof.
  induction labels as [|n labels IH]; simpl; [done|].
  intros [Hne Hin]%not_elem_of_cons.
  rewrite decide_False by done. by rewrite IH.
Qed.

Lemma row_cell_cons n labels name x r :
  n ≠ name → row_cell (n :: labels) name (x :: r) = row_cell labels name r.
Proof.
  intros Hne. unfold row_cell. simpl. rewrite decide_False by done.
  by destruct (label_index name labels).
Qed.

Lemma row_cell_here labels name x r : row_cell (name :: labels) name (x :: r) = x.
Proof. unfold row_cell. simpl. by rewrite decide_True. Qed.

Lemma fmap_zip_with_cons_hd {A B} (f : list A → B) (g : A → B) cs rs :
  (∀ x r, f (x :: r) = g x) → length cs = length rs →
  f <$> zip_with cons cs rs = g <$> cs.
Proof.
  intros Hf. revert rs. induction cs as [|c cs IH]; intros [|r rs]; try done.
  intros [= Hl]. cbn [zip_with]. by rewrite !fmap_cons, Hf, (IH rs Hl).
Qed.

Lemma fmap_zip_with_cons_tl {A B} (f g : list A → B) cs rs :
  (∀ x r, f (x :: r) = g r) → length cs = length rs →
  f <$> zip_with cons cs rs = g <$> rs.
Proof.
  intros Hf. revert rs. induction cs as [|c cs IH]; intros [|r rs]; try done.
  intros [= Hl]. cbn [zip_with]. by rewrite !fmap_cons, Hf, (IH rs Hl).
Qed.

(** A column is what its label selects in each row. *)
Lemma rows_n_cell n df name c :
  uniform n df → col_lookup name df = Some c →
  cells c = row_cell (columns df) name <$> rows_n n df.
Proof.
  induction 1 as [|[n0 c0] df Hc Hu IH]; simpl; [done|].
  simpl in Hc. unfold col_len in Hc.
  destruct (decide (n0 = name)) as [->|Hne].
  - intros [= ->].
    rewrite (fmap_zip_with_cons_hd _ id).
    + by rewrite list_fmap_id.
    + intros x r. apply row_cell_here.
    + by rewrite (rows_n_length n df).
  - intros Hl. rewrite (IH Hl). symmetry. apply fmap_zip_with_cons_tl.
    + intros x r. by apply row_cell_cons.
    + by rewrite (rows_n_length n df).
Qed.

Lemma rows_cell df name c :
  uniform (nrows df) df → col_lookup name df = Some c →
  cells c = row_cell (columns df) name <$> rows df.
Proof. apply rows_n_cell. Qed.

(** The row view of [df[df[name].notna()]]. *)
Lemma rows_filter_notna_Some df name c :
  uniform (nrows df) df → col_lookup name df = Some c →
  rows (filter_notna name df)
  = List.filter (λ r, notna (row_cell (columns df) name r)) (rows df).
Proof.
  intros Hu Hc. unfold filter_notna. rewrite Hc.
  pose proof (rows_cell df name c Hu Hc) as Hcells.
  rewrite rows_frame_mask.
  - rewrite Hcells, <- list_fmap_compose. apply take_mask_fmap_filter.
  - rewrite Hcells, !length_fmap, (rows_length df _ Hu). done.
  - by rewrite Hcells, !length_fmap, (rows_length df _ Hu).
Qed.

Lemma elem_of_rows_filter_notna df name r :
  uniform (nrows df) df →
  r ∈ rows (filter_notna name df)
  ↔ r ∈ rows df
    ∧ (name ∈ columns df → notna (row_cell (columns df) name r) = true).
Proof.
  intros Hu. destruct (col_lookup name df) as [c|] eqn:Hc.
  - rewrite (rows_filter_notna_Some df name c Hu Hc).
    rewrite list_elem_of_In, filter_In, <- list_elem_of_In.
    split; intros [? Hn]; (split; [done|]); [done|].
    apply Hn. apply col_lookup_is_Some. by eexists.
  - unfold filter_notna. rewrite Hc. split; [|by intros [? _]].
    intros Hr. split; [done|]. intros Hin%col_lookup_is_Some.
    rewrite Hc in Hin. by destruct Hin.
Qed.

Lemma elem_of_take_first_seen {A} `{EqDecision A} (l : list A) x :
  x ∈ take_mask (first_seen [] l) l ↔ x ∈ l.
Proof.
  split.
  - intros Hx. eapply elem_of_sublist; [exact Hx|]. apply take_mask_sublist.
  - intros Hx. apply take_first_seen_elem; [done|]. by intros ?%elem_of_nil.
Qed.

Lemma rows_column_lookup df name c j r :
  uniform (nrows df) df → col_lookup name df = Some c →
  rows df !! j = Some r →
  cells c !! j = Some (row_cell (columns df) name r).
Proof.
  intros Hu Hc Hr. rewrite (rows_cell df name c Hu Hc).
  by rewrite list_lookup_fmap, Hr.
Qed.

End Frame.

(** ** The pandas parsers

    [pd.to_datetime(series, errors="coerce")] works on a whole column
    (recent pandas infers one format from the first value) and
    [pd.to_numeric] parses each string on its own. Neither is code of this
    repository: both are parameters, with the two facts about
    [to_datetime] the flows rely on. *)
Class Pandas := {
  to_datetime : Frame.column → list (option Frame.timestamp);
  parse_number : string → option Qc;
  to_datetime_length c : length (to_datetime c) = Frame.col_len c;
  to_datetime_datetime vs : to_datetime (Frame.DatetimeCol vs) = vs;
}.

(** ** Cleaning stage: [flows/silver_transformation.py] *)
Module Silver.
Import PyStr Frame.

Section transform.
Context `{Pandas}.

(** Lines 18-20: every column whose lowercased label contains "date". *)
Definition parse_dates_col (nc : string * column) : string * column :=
  if contains "date" (lower nc.1)
  then (nc.1, DatetimeCol (to_datetime nc.2)) else nc.

Definition numeric_names : list string :=
  ["montant"; "id_achat"; "id_client"; "id_client"].

(** [pd.to_numeric(series, errors="coerce")]. *)
Definition to_numeric (vs : list (option string)) : list (option Qc) :=
  (λ v, v ≫= parse_number) <$> vs.

(** Lines 23-26: the object columns with a numeric label. *)
Definition normalize_numeric_col (nc : string * column) : string * column :=
  match nc.2 with
  | ObjectCol vs =>
      if bool_decide (lower nc.1 ∈ numeric_names)
      then (nc.1, FloatCol (to_numeric vs)) else nc
  | _ => nc
  end.

Definition string_keywords : list string :=
  ["email"; "nom"; "produit"; "pays"].

Definition is_text_label (n : string) : bool :=
  existsb (λ k, contains k (lower n)) string_keywords.

(** [astype(str)] on a value of an object column: NaN becomes "nan". *)
Definition astype_str (v : option string) : string := default "nan" v.

(** Lines 31-33 on one value of the column labelled [n]. *)
Definition clean_text (n : string) (v : option string) : string :=
  let s := strip (astype_str v) in
  if contains "email" (lower n) then lower s else s.

(** Lines 29-33: the object columns with a text label. *)
Definition normalize_strings_col (nc : string * column) : string * column :=
  match nc.2 with
  | ObjectCol vs =>
      if is_text_label nc.1
      then (nc.1, ObjectCol ((λ v, Some (clean_text nc.1 v)) <$> vs))
      else nc
  | _ => nc
  end.

Definition parse_dates (df : frame) : frame := parse_dates_col <$> df.
Definition normalize_numeric (df : frame) : frame :=
  normalize_numeric_col <$> df.
Definition normalize_strings (df : frame) : frame :=
  normalize_strings_col <$> df.

(** Lines 14-33: the column-wise part of the cleaning. *)
Definition coerce (df : frame) : frame :=
  normalize_strings
    (normalize_numeric (parse_dates (rename_columns strip df))).

Definition transform_dataframe (df : frame) : frame :=
  let df := dropna_all df in
  let df := coerce df in
  let df := drop_duplicates df in
  let df := filter_notna "id_client" df in
  let df := filter_notna "id_achat" df in
  df.

(** What one column looks like once coerced. *)
Definition coerce_col (nc : string * column) : string * column :=
  normalize_strings_col
    (normalize_numeric_col (parse_dates_col (prod_map strip id nc))).

Definition text_ok (n : string) (v : option string) : Prop :=
  ∃ s, v = Some s ∧ strip s = s
       ∧ (contains "email" (lower n) = true → lower s = s).

Record coerced (nc : string * column) : Prop := {
  coerced_label : strip nc.1 = nc.1;
  coerced_date : contains "date" (lower nc.1) = true →
                 ∃ vs, nc.2 = DatetimeCol vs;
  coerced_num : lower nc.1 ∈ numeric_names → ∀ vs, nc.2 ≠ ObjectCol vs;
  coerced_text : is_text_label nc.1 = true →
                 ∀ vs, nc.2 = ObjectCol vs → Forall (text_ok nc.1) vs;
}.

Lemma coerce_fmap df : coerce df = coerce_col <$> df.
Proof.
  unfold coerce, normalize_strings, normalize_numeric, parse_dates,
    rename_columns.
  rewrite <- !list_fmap_compose. done.
Qed.

Lemma parse_dates_col_label nc : (parse_dates_col nc).1 = nc.1.
Proof. unfold parse_dates_col. by destruct (contains _ _). Qed.

Lemma normalize_numeric_col_label nc : (normalize_numeric_col nc).1 = nc.1.
Proof.
  unfold normalize_numeric_col. destruct nc as [n []]; simpl; try done.
  by destruct (bool_decide _).
Qed.

Lemma normalize_strings_col_label nc : (normalize_strings_col nc).1 = nc.1.
Proof.
  unfold normalize_strings_col. destruct nc as [n []]; simpl; try done.
  by destruct (is_text_label _).
Qed.

Lemma coerce_col_label nc : (coerce_col nc).1 = strip nc.1.
Proof.
  unfold coerce_col.
  by rewrite normalize_strings_col_label, normalize_numeric_col_label,
    parse_dates_col_label.
Qed.

Lemma coerce_col_len nc : col_len (coerce_col nc).2 = col_len nc.2.
Proof.
  destruct nc as [n c]. unfold coerce_col, prod_map; simpl.
  unfold parse_dates_col; simpl.
  destruct (contains "date" (lower (strip n))); simpl.
  - unfold normalize_numeric_col, normalize_strings_col; simpl.
    unfold col_len at 1; simpl. by rewrite length_fmap, to_datetime_length.
  - unfold normalize_numeric_col; simpl. destruct c as [vs|vs|vs]; simpl;
      try done.
    destruct (bool_decide _); simpl.
    + unfold col_len, to_numeric; simpl. by rewrite !length_fmap.
    + unfold normalize_strings_col; simpl.
      destruct (is_text_label _); simpl; [|done].
      unfold col_len; simpl. by rewrite !length_fmap.
Qed.

Lemma columns_coerce df : columns (coerce df) = strip <$> columns df.
Proof.
  rewrite coerce_fmap. unfold columns. rewrite <- !list_fmap_compose.
  apply list_fmap_ext. intros _ nc _. apply coerce_col_label.
Qed.

Lemma uniform_coerce n df : uniform n df → uniform n (coerce df).
Proof.
  rewrite coerce_fmap. unfold uniform. intros Hu. apply Forall_fmap.
  induction Hu as [|nc df Hc _ IH]; constructor; [|exact IH].
  simpl. by rewrite coerce_col_len.
Qed.

Lemma clean_text_ok n v : text_ok n (Some (clean_text n v)).
Proof.
  unfold text_ok, clean_text. eexists; split; [reflexivity|].
  destruct (contains "email" (lower n)).
  - split; [apply strip_lower_strip|intros _; apply lower_idem].
  - split; [apply strip_idem|done].
Qed.

Lemma clean_text_fix n v : text_ok n v → Some (clean_text n v) = v.
Proof.
  intros (s & -> & Hs & Hl). unfold clean_text; simpl. rewrite Hs.
  destruct (contains "email" (lower n)); [|done]. by rewrite Hl.
Qed.

Lemma coerce_col_coerced nc : coerced (coerce_col nc).
Proof.
  destruct nc as [n c].
  assert (Hl : (coerce_col (n, c)).1 = strip n) by apply coerce_col_label.
  unfold coerce_col, prod_map in *; simpl in *.
  unfold parse_dates_col in *; simpl in *.
  destruct (contains "date" (lower (strip n))) eqn:Hd.
  { unfold normalize_numeric_col, normalize_strings_col; simpl.
    split; simpl; try done.
    - apply strip_idem.
    - by eexists. }
  unfold normalize_numeric_col in *; simpl in *.
  assert (Hother : ∀ c', (∀ vs, c' ≠ ObjectCol vs) →
            coerced (normalize_strings_col (strip n, c'))).
  { intros c' Hc'. unfold normalize_strings_col; simpl.
    destruct c' as [vs|vs|vs]; [by destruct (Hc' vs)| |];
      (split; simpl; [apply strip_idem|by rewrite Hd|done|done]). }
  destruct c as [vs|vs|vs]; [|by apply Hother..].
  destruct (bool_decide_reflect (lower (strip n) ∈ numeric_names)) as [Hn|Hn].
  { by apply Hother. }
  unfold normalize_strings_col; simpl.
  destruct (is_text_label (strip n)) eqn:Ht.
  - split; simpl; [apply strip_idem|by rewrite Hd|done|].
    intros _ vs' [= <-]. apply Forall_fmap, Forall_true. intros v.
    apply clean_text_ok.
  - split; simpl; [apply strip_idem|by rewrite Hd|done|by rewrite Ht].
Qed.

Lemma coerce_col_fix nc : coerced nc → coerce_col nc = nc.
Proof.
  destruct nc as [n c]. intros [Hl Hd Hn Ht]; simpl in *.
  unfold coerce_col, prod_map; simpl. rewrite Hl.
  unfold parse_dates_col; simpl.
  destruct (contains "date" (lower n)) eqn:Ed.
  { destruct Hd as [vs ->]; [done|]. by rewrite to_datetime_datetime. }
  unfold normalize_numeric_col; simpl.
  destruct c as [vs|vs|vs]; try done.
  destruct (bool_decide_reflect (lower n ∈ numeric_names)) as [Hin|Hin].
  { by destruct (Hn Hin vs). }
  unfold normalize_strings_col; simpl.
  destruct (is_text_label n) eqn:Et; [|done].
  f_equal. f_equal. specialize (Ht eq_refl vs eq_refl). clear Hd Hn Hin.
  induction Ht as [|v vs Hv _ IH]; [done|].
  rewrite fmap_cons, IH. by rewrite clean_text_fix.
Qed.

Lemma coerced_col_mask m n c : coerced (n, c) → coerced (n, col_mask m c).
Proof.
  intros [Hl Hd Hn Ht]; simpl in *. split; simpl; [done| | |].
  - intros E. destruct (Hd E) as [vs ->]. by eexists.
  - intros E vs. specialize (Hn E). by destruct c; [destruct (Hn vs0)| |].
  - intros E vs. destruct c as [vs0|vs0|vs0]; simpl; try done.
    intros [= <-]. apply take_mask_Forall. by apply Ht.
Qed.

Lemma coerced_frame_mask m df :
  Forall coerced df → Forall coerced (frame_mask m df).
Proof.
  unfold frame_mask. intros Hc. apply Forall_fmap.
  induction Hc as [|[n c] df Hnc _ IH]; constructor; [|exact IH].
  by apply coerced_col_mask.
Qed.

Lemma coerced_coerce df : Forall coerced (coerce df).
Proof.
  rewrite coerce_fmap. apply Forall_fmap, Forall_true. intros nc.
  apply coerce_col_coerced.
Qed.

Lemma coerce_fix df : Forall coerced df → coerce df = df.
Proof.
  rewrite coerce_fmap. induction 1 as [|nc df Hnc _ IH]; [done|].
  by rewrite fmap_cons, IH, coerce_col_fix.
Qed.

Lemma coerced_filter_notna name df :
  Forall coerced df → Forall coerced (filter_notna name df).
Proof.
  unfold filter_notna. destruct (col_lookup name df); [|done].
  apply coerced_frame_mask.
Qed.

(** *** Frame-level facts *)

Lemma take_mask_length_eq {A B} m (l : list A) (k : list B) :
  length l = length k → length (take_mask m l) = length (take_mask m k).
Proof.
  revert l k. induction m as [|b m IH]; intros [|x l] [|y k]; simpl;
    try done.
  intros [= E]. destruct b; simpl; by rewrite (IH l k E).
Qed.

Lemma uniform_frame_mask_any m df n :
  uniform n df → uniform (nrows (frame_mask m df)) (frame_mask m df).
Proof.
  intros Hu. apply (uniform_self _ (length (take_mask m (replicate n ())))).
  unfold uniform, frame_mask. apply Forall_fmap.
  induction Hu as [|[l c] df Hc _ IH]; constructor; [|exact IH].
  simpl in *. unfold col_len in *. rewrite cells_col_mask.
  apply take_mask_length_eq. by rewrite length_replicate.
Qed.

Lemma uniform_elem n df name c :
  uniform n df → (name, c) ∈ df → col_len c = nrows df.
Proof.
  intros Hu Hin. assert (Hn : nrows df = n).
  { apply uniform_nrows; [done|]. intros ->. by apply elem_of_nil in Hin. }
  rewrite Hn. unfold uniform in Hu. rewrite list.Forall_forall in Hu.
  apply (Hu (name, c) Hin).
Qed.

Lemma rows_mask_of_rows (f : list (list cell) → list bool) df n :
  uniform n df → length (f (rows df)) = length (rows df) →
  rows (frame_mask (f (rows df)) df) = take_mask (f (rows df)) (rows df).
Proof.
  intros Hu Hf. rewrite (rows_length df n Hu) in Hf.
  apply rows_frame_mask; [|done]. rewrite Hf. by eapply uniform_self.
Qed.

Lemma rows_drop_duplicates df n :
  uniform n df →
  rows (drop_duplicates df) = take_mask (first_seen [] (rows df)) (rows df).
Proof.
  intros Hu. apply (rows_mask_of_rows (first_seen []) df n Hu).
  apply first_seen_length.
Qed.

Lemma rows_filter_notna name df n :
  uniform n df → sublist (rows (filter_notna name df)) (rows df).
Proof.
  intros Hu. unfold filter_notna.
  destruct (col_lookup name df) as [c|] eqn:E; [|done].
  apply col_lookup_Some in E.
  pose proof (uniform_elem n df name c Hu E) as Hlen.
  rewrite rows_frame_mask.
  - apply take_mask_sublist.
  - unfold col_len in Hlen. rewrite length_fmap, Hlen.
    by eapply uniform_self.
  - unfold col_len in Hlen. by rewrite length_fmap.
Qed.

Lemma uniform_dropna_all df n :
  uniform n df → uniform (nrows (dropna_all df)) (dropna_all df).
Proof. apply uniform_frame_mask_any. Qed.

Lemma uniform_drop_duplicates df n :
  uniform n df → uniform (nrows (drop_duplicates df)) (drop_duplicates df).
Proof. apply uniform_frame_mask_any. Qed.

Lemma uniform_filter_notna name df n :
  uniform n df → uniform (nrows (filter_notna name df)) (filter_notna name df).
Proof.
  unfold filter_notna. destruct (col_lookup name df).
  - apply uniform_frame_mask_any.
  - apply uniform_self.
Qed.

Lemma columns_filter_notna name df :
  columns (filter_notna name df) = columns df.
Proof.
  unfold filter_notna. destruct (col_lookup name df); [|done].
  apply columns_frame_mask.
Qed.

Lemma columns_transform df :
  columns (transform_dataframe df) = strip <$> columns df.
Proof.
  unfold transform_dataframe, drop_duplicates, dropna_all.
  by rewrite !columns_filter_notna, columns_frame_mask, columns_coerce,
    columns_frame_mask.
Qed.

Lemma filter_notna_self name df c :
  col_lookup name (filter_notna name df) = Some c →
  Forall (λ v, notna v = true) (cells c).
Proof.
  unfold filter_notna. destruct (col_lookup name df) as [c0|] eqn:E.
  - rewrite col_lookup_frame_mask, E. intros [= <-].
    rewrite cells_col_mask. apply take_mask_self_notna.
  - by rewrite E.
Qed.

Lemma filter_notna_keeps name name' df :
  (∀ c, col_lookup name df = Some c → Forall (λ v, notna v = true) (cells c)) →
  ∀ c, col_lookup name (filter_notna name' df) = Some c →
       Forall (λ v, notna v = true) (cells c).
Proof.
  intros Hdf c. unfold filter_notna.
  destruct (col_lookup name' df) as [c0|]; [|apply Hdf].
  rewrite col_lookup_frame_mask.
  destruct (col_lookup name df) as [c1|]; [|done]. intros [= <-].
  rewrite cells_col_mask. by apply take_mask_Forall, Hdf.
Qed.

Lemma transform_ids_present df name c :
  name = "id_client" ∨ name = "id_achat" →
  col_lookup name (transform_dataframe df) = Some c →
  Forall (λ v, notna v = true) (cells c).
Proof.
  unfold transform_dataframe. intros [->| ->].
  - apply filter_notna_keeps. intros c'. apply filter_notna_self.
  - apply filter_notna_self.
Qed.

Lemma uniform_stages df :
  uniform (nrows df) df →
  let d1 := coerce (dropna_all df) in
  let d2 := drop_duplicates d1 in
  let d3 := filter_notna "id_client" d2 in
  uniform (nrows d1) d1 ∧ uniform (nrows d2) d2 ∧ uniform (nrows d3) d3
  ∧ uniform (nrows (transform_dataframe df)) (transform_dataframe df).
Proof.
  intros Hu d1 d2 d3.
  assert (H1 : uniform (nrows d1) d1).
  { eapply uniform_self, uniform_coerce, uniform_dropna_all, Hu. }
  assert (H2 : uniform (nrows d2) d2) by (eapply uniform_drop_duplicates, H1).
  assert (H3 : uniform (nrows d3) d3) by (eapply uniform_filter_notna, H2).
  repeat split; try done. eapply uniform_filter_notna, H3.
Qed.

Lemma transform_NoDup df :
  uniform (nrows df) df → NoDup (rows (transform_dataframe df)).
Proof.
  intros Hu. destruct (uniform_stages df Hu) as (H1 & H2 & H3 & _).
  unfold transform_dataframe.
  eapply sublist_NoDup; [|eapply rows_filter_notna, H3].
  eapply sublist_NoDup; [|eapply rows_filter_notna, H2].
  erewrite rows_drop_duplicates by exact H1.
  apply take_first_seen_NoDup.
Qed.

Lemma transform_coerced df : Forall coerced (transform_dataframe df).
Proof.
  unfold transform_dataframe.
  apply coerced_filter_notna, coerced_filter_notna.
  apply coerced_frame_mask, coerced_coerce.
Qed.

(** *** The fixed points of the cleaning *)

Lemma Forall_zip_with_l {A B C} (P : C → Prop) (f : A → B → C) l k :
  Forall (λ x, ∀ y, P (f x y)) l → Forall P (zip_with f l k).
Proof.
  intros Hl. revert k. induction Hl as [|x l Hx _ IH]; intros [|y k];
    simpl; constructor; auto.
Qed.

Lemma Forall_zip_with_r {A B C} (P : C → Prop) (f : A → B → C) l k :
  Forall (λ y, ∀ x, P (f x y)) k → Forall P (zip_with f l k).
Proof.
  intros Hk. revert l. induction Hk as [|y k Hy _ IH]; intros [|x l];
    simpl; constructor; auto.
Qed.

Lemma rows_n_some_present n df name c :
  (name, c) ∈ df → Forall (λ v, notna v = true) (cells c) →
  Forall (λ r, existsb notna r = true) (rows_n n df).
Proof.
  intros Hin Hc. induction df as [|[l c'] df IH];
    [by apply elem_of_nil in Hin|].
  simpl. apply elem_of_cons in Hin as [[= <- <-]|Hin].
  - apply Forall_zip_with_l. eapply list.Forall_impl; [exact Hc|].
    intros v Hv r. simpl. by rewrite Hv.
  - apply Forall_zip_with_r. eapply list.Forall_impl; [exact (IH Hin)|].
    intros r Hr v. simpl. rewrite Hr. by destruct (notna v).
Qed.

Lemma Forall_true_fmap {A} (f : A → bool) l :
  Forall (λ x, f x = true) l → Forall (λ b, b = true) (f <$> l).
Proof. intros Hl. by apply Forall_fmap. Qed.

Lemma dropna_all_fix df name c :
  uniform (nrows df) df → (name, c) ∈ df →
  Forall (λ v, notna v = true) (cells c) → dropna_all df = df.
Proof.
  intros Hu Hin Hc. unfold dropna_all. apply frame_mask_all_true.
  - apply Forall_true_fmap. by eapply rows_n_some_present.
  - by rewrite length_fmap, (rows_length df _ Hu).
Qed.

Lemma drop_duplicates_fix df :
  uniform (nrows df) df → NoDup (rows df) → drop_duplicates df = df.
Proof.
  intros Hu Hnd. unfold drop_duplicates. apply frame_mask_all_true.
  - apply first_seen_all_true; [done|]. by intros ? _ ?%elem_of_nil.
  - by rewrite first_seen_length, (rows_length df _ Hu).
Qed.

Lemma filter_notna_fix name df :
  uniform (nrows df) df →
  (∀ c, col_lookup name df = Some c → Forall (λ v, notna v = true) (cells c)) →
  filter_notna name df = df.
Proof.
  intros Hu Hc. unfold filter_notna.
  destruct (col_lookup name df) as [c|] eqn:E; [|done].
  apply frame_mask_all_true.
  - apply Forall_true_fmap. by apply Hc.
  - pose proof (uniform_elem _ df name c Hu (col_lookup_Some _ _ _ E)) as Hl.
    unfold col_len in Hl. by rewrite length_fmap, Hl.
Qed.

(** A table on which the cleaning changes nothing: coerced columns,
    distinct rows, identifiers present, and an identifier column
    (so that no row is entirely missing). *)
Lemma transform_fix df name c :
  uniform (nrows df) df → Forall coerced df → NoDup (rows df) →
  (∀ n c, n = "id_client" ∨ n = "id_achat" → col_lookup n df = Some c →
          Forall (λ v, notna v = true) (cells c)) →
  name = "id_client" ∨ name = "id_achat" → col_lookup name df = Some c →
  transform_dataframe df = df.
Proof.
  intros Hu Hco Hnd Hid Hname Hc. unfold transform_dataframe.
  rewrite (dropna_all_fix df name c Hu (col_lookup_Some _ _ _ Hc)
             (Hid name c Hname Hc)).
  rewrite (coerce_fix df Hco), (drop_duplicates_fix df Hu Hnd).
  rewrite (filter_notna_fix "id_client" df Hu) by (intros ?; apply Hid; auto).
  apply (filter_notna_fix "id_achat" df Hu). intros ?; apply Hid; auto.
Qed.

(** *** The rows of the cleaned table *)

(** The cleaned rows are the rows of the coerced table whose
    identifiers, where the table has them, are present. *)
Lemma elem_of_rows_transform df r :
  uniform (nrows df) df →
  let labels := strip <$> columns df in
  r ∈ rows (transform_dataframe df)
  ↔ r ∈ rows (coerce (dropna_all df))
    ∧ ("id_client" ∈ labels → notna (row_cell labels "id_client" r) = true)
    ∧ ("id_achat" ∈ labels → notna (row_cell labels "id_achat" r) = true).
Proof.
  intros Hu labels. destruct (uniform_stages df Hu) as (H1 & H2 & H3 & _).
  unfold transform_dataframe.
  rewrite (elem_of_rows_filter_notna _ "id_achat" r H3).
  rewrite (elem_of_rows_filter_notna _ "id_client" r H2).
  rewrite (rows_drop_duplicates _ _ H1), elem_of_take_first_seen.
  unfold drop_duplicates, dropna_all.
  rewrite !columns_filter_notna, !columns_frame_mask, columns_coerce,
    columns_frame_mask.
  fold labels. tauto.
Qed.

(** *** The text columns *)





Lemma col_lookup_coerce df n c :
  NoDup (strip <$> columns df) → (n, c) ∈ df →
  col_lookup (strip n) (coerce df) = Some (coerce_col (n, c)).2.
Proof.
  rewrite coerce_fmap. unfold columns.
  induction df as [|[n0 c0] df IH]; [by intros _ ?%elem_of_nil|].
  rewrite !fmap_cons. simpl. intros [Hn0 Hnd]%NoDup_cons Hin.
  pose proof (coerce_col_label (n0, c0)) as Hl. simpl in Hl.
  destruct (coerce_col (n0, c0)) as [l0 c0'] eqn:E. simpl in Hl. subst l0.
  apply elem_of_cons in Hin as [[= -> ->]|Hin].
  - rewrite decide_True by done. by rewrite E.
  - rewrite decide_False; [by apply IH|].
    intros Heq. apply Hn0. rewrite Heq.
    apply list_elem_of_fmap. exists n. split; [done|].
    apply list_elem_of_fmap. by exists (n, c).
Qed.


(** *** The amount column *)

(** Row [i] of the amount column of a raw table holds no number: a text
    that [pd.to_numeric] does not parse (the column is then an object
    column), or a missing value, which is what [pd.read_csv] makes of the
    text "N/A". *)
Definition amount_not_a_number (df : frame) (i : nat) : Prop :=
  ∃ n c, (n, c) ∈ df ∧ strip n = "montant"
    ∧ match c with
      | ObjectCol ms =>
          match ms !! i with
          | Some (Some s) => parse_number s = None
          | Some None => True
          | None => False
          end
      | FloatCol qs => qs !! i = Some None
      | DatetimeCol _ => False
      end.

Lemma coerce_col_montant n vs :
  strip n = "montant" →
  coerce_col (n, ObjectCol vs) = ("montant", FloatCol (to_numeric vs)).
Proof.
  intros Hn. unfold coerce_col, prod_map; simpl. rewrite Hn.
  unfold parse_dates_col; simpl.
  replace (contains "date" (lower "montant")) with false by by vm_compute.
  unfold normalize_numeric_col; simpl. done.
Qed.

Lemma coerce_col_montant_float n qs :
  strip n = "montant" →
  coerce_col (n, FloatCol qs) = ("montant", FloatCol qs).
Proof.
  intros Hn. unfold coerce_col, prod_map; simpl. rewrite Hn.
  unfold parse_dates_col; simpl.
  by replace (contains "date" (lower "montant")) with false by by vm_compute.
Qed.

(** An amount that is not a number is missing in the coerced row. *)
Lemma coerced_amount_missing df i r :
  frame_ok df →
  amount_not_a_number (dropna_all df) i →
  rows (coerce (dropna_all df)) !! i = Some r →
  row_cell (strip <$> columns df) "montant" r = None.
Proof.
  intros [Hnd Hu] (n & c & Hin & Hn & Hc) Hr.
  destruct (uniform_stages df Hu) as (H1 & _).
  assert (Hlook : col_lookup "montant" (coerce (dropna_all df))
                  = Some (coerce_col (n, c)).2).
  { rewrite <- Hn at 1. apply col_lookup_coerce; [|done].
    by unfold dropna_all; rewrite columns_frame_mask. }
  pose proof (rows_column_lookup _ _ _ i r H1 Hlook Hr) as Hcell.
  rewrite columns_coerce in Hcell. unfold dropna_all in Hcell.
  rewrite columns_frame_mask in Hcell.
  destruct c as [ms|qs|ds]; [| |done].
  - rewrite coerce_col_montant in Hcell by done. simpl in Hcell.
    unfold to_numeric in Hcell. rewrite !list_lookup_fmap in Hcell.
    destruct (ms !! i) as [[s|]|]; [| |done]; simpl in Hcell.
    + rewrite Hc in Hcell. by injection Hcell as <-.
    + by injection Hcell as <-.
  - rewrite coerce_col_montant_float in Hcell by done. simpl in Hcell.
    rewrite list_lookup_fmap, Hc in Hcell. by injection Hcell as <-.
Qed.

(** *** Missing values and the text nan *)




End transform.
End Silver.

(** ** Aggregation stage: [flows/gold_aggregation.py] *)
Module Gold.
Import PyStr Frame.

(** A float64 that a division produced: [pct_change] can divide by zero. *)
Inductive xfloat :=
| Fin (q : Qc)
| PosInf
| NegInf
| NaN.

#[global] Instance xfloat_eq_dec : EqDecision xfloat.
Proof. solve_decision. Defined.

(** A [datetime.date], what [.dt.date] yields. *)
Record date := Date { d_year : Z; d_month : Z; d_day : Z }.

#[global] Instance date_eq_dec : EqDecision date.
Proof. solve_decision. Defined.

Definition dt_date (t : timestamp) : date :=
  Date (ts_year t) (ts_month t) (ts_day t).

Definition date_leb (a b : date) : bool :=
  if decide (d_year a = d_year b)
  then if decide (d_month a = d_month b)
       then bool_decide (d_day a ≤ d_day b)%Z
       else bool_decide (d_month a < d_month b)%Z
  else bool_decide (d_year a < d_year b)%Z.

Definition digit (n : Z) : ascii := ascii_of_nat (48 + Z.to_nat (n mod 10)).

Definition pad2 (n : Z) : string :=
  String (digit (n / 10)) (String (digit n) EmptyString).

Definition pad4 (n : Z) : string :=
  String (digit (n / 1000)) (String (digit (n / 100)) (pad2 n)).

(** [.dt.to_period("M").astype(str)] on one value: "YYYY-MM", and the
    string "NaT" for a missing timestamp. *)
Definition month_label (v : option timestamp) : string :=
  match v with
  | Some t => pad4 (ts_year t) ++ "-" ++ pad2 (ts_month t)
  | None => "NaT"
  end.

(** *** Sorting *)
Section sort.
Context {A : Type} (leb : A → A → bool).

Fixpoint insert_sorted (k : A) (l : list A) : list A :=
  match l with
  | [] => [k]
  | x :: l' => if leb k x then k :: l else x :: insert_sorted k l'
  end.

Definition sort_by (l : list A) : list A := foldr insert_sorted [] l.
End sort.

(** *** [groupby] *)
Section groupby.
Context {K : Type} `{EqDecision K} (leb : K → K → bool).

(** The groups: the distinct keys that are not missing (the default
    [dropna=True]), in ascending order (the default [sort=True]). *)
Definition group_keys (keys : list (option K)) : list K :=
  sort_by leb (remove_dups (omap id keys)).

(** The values of the rows of group [k], in row order. *)
Definition members {V} (k : K) (keys : list (option K)) (vals : list V)
  : list V :=
  omap (λ kv, if decide (kv.1 = Some k) then Some kv.2 else None)
       (zip keys vals).

(** [groupby(key).size()]. *)
Definition groupby_size (keys : list (option K)) : list (option K * nat) :=
  (λ k, (Some k, length (members k keys keys))) <$> group_keys keys.

(** [sum()] of a float column: missing values are skipped, and the sum
    of no value is 0. *)
Definition sum_present (vs : list (option Qc)) : Qc :=
  foldr (λ v acc, (default 0%Qc v + acc)%Qc) 0%Qc vs.

(** [groupby(key)[val].sum()]. *)
Definition groupby_sum (keys : list (option K)) (vals : list (option Qc))
  : list (option K * Qc) :=
  (λ k, (Some k, sum_present (members k keys vals))) <$> group_keys keys.
End groupby.

Definition timestamp_leb (a b : timestamp) : bool :=
  if decide (dt_date a = dt_date b)
  then bool_decide (ts_nanos a ≤ ts_nanos b)%Z
  else date_leb (dt_date a) (dt_date b).

(** Order of the values of one column; a column holds one kind. *)
Definition value_leb (a b : value) : bool :=
  match a, b with
  | VStr s, VStr t => String.leb s t
  | VNum p, VNum q => bool_decide (p ≤ q)%Qc
  | VDate t, VDate u => timestamp_leb t u
  | VStr _, _ => true
  | VNum _, VDate _ => true
  | _, _ => false
  end.

(** *** [merge(how="left")] on one key column *)

Definition same_kind (a b : column) : bool :=
  match a, b with
  | ObjectCol _, ObjectCol _ | FloatCol _, FloatCol _
  | DatetimeCol _, DatetimeCol _ => true
  | _, _ => false
  end.

(** The positions of the right rows whose key equals [k]; as in pandas,
    a missing key matches a missing key. *)
Definition matches (k : cell) (rk : list cell) : list nat :=
  omap (λ jk, if decide (jk.2 = k) then Some jk.1 else None)
       (zip (seq 0 (length rk)) rk).

(** How many rows of the result a left row with key [k] yields. *)
Definition fanout (k : cell) (rk : list cell) : nat :=
  Nat.max 1 (length (matches k rk)).

(** The values of a right column on those rows: the values of the
    matching rows, and a missing value when no right row matches. *)
Definition joined_right {A} (k : cell) (rk : list cell)
    (vs : list (option A)) : list (option A) :=
  match matches k rk with
  | [] => [None]
  | js => (λ j, mjoin (vs !! j)) <$> js
  end.

(** A column of the left frame in the result. *)
Definition expand_left {A} (lk rk : list cell) (vs : list (option A))
  : list (option A) :=
  flat_map (λ kv, replicate (fanout kv.1 rk) kv.2) (zip lk vs).

(** A column of the right frame in the result. *)
Definition expand_right {A} (lk rk : list cell) (vs : list (option A))
  : list (option A) :=
  flat_map (λ k, joined_right k rk vs) lk.

Definition col_apply (f : ∀ A, list (option A) → list (option A))
    (c : column) : column :=
  match c with
  | ObjectCol vs => ObjectCol (f _ vs)
  | FloatCol vs => FloatCol (f _ vs)
  | DatetimeCol vs => DatetimeCol (f _ vs)
  end.

(** The label of a left column in the result: the key keeps its label,
    any other label the right frame also has gets the suffix "_x". *)
Definition left_label (key : string) (right : frame) (n : string) : string :=
  if bool_decide (n ≠ key ∧ n ∈ columns right)
  then String.append n "_x" else n.

(** The label of a right column (the key column aside) in the result. *)
Definition right_label (left : frame) (n : string) : string :=
  if bool_decide (n ∈ columns left) then String.append n "_y" else n.

Definition merged (key : string) (left right : frame) (lk rk : list cell)
  : frame :=
  (((λ nc : string * column,
       (left_label key right nc.1,
        col_apply (λ A, expand_left lk rk) nc.2)) <$> left)
   ++ ((λ nc : string * column,
          (right_label left nc.1,
           col_apply (λ A, expand_right lk rk) nc.2))
         <$> List.filter (λ nc, bool_decide (nc.1 ≠ key)) right))%list.

(** The check of the two key columns: pandas makes none when exactly one
    of them has no row, and otherwise refuses key columns of different
    kinds. *)
Definition mergeable (lk rk : column) : bool :=
  same_kind lk rk
  || xorb (bool_decide (cells lk = [])) (bool_decide (cells rk = [])).

(** [left.merge(right, left_on=key, right_on=key, how="left")]. The key
    column comes once, from the left frame. [None]: a [KeyError] (no key
    column) or a [ValueError] (key columns that are not [mergeable]). The
    result is [merged]: the model has no [MergeError] for a suffix that
    makes a label twice on one side, which pandas 2 raises, and the
    properties of [compute_kpis] below are about the tables it returns
    ([Shapes.suffix_free] is the condition under which pandas raises
    none). *)
Definition merge_left (key : string) (left right : frame) : option frame :=
  lk ← col_lookup key left;
  rk ← col_lookup key right;
  if mergeable lk rk
  then Some (merged key left right (cells lk) (cells rk))
  else None.

(** [df[name] = c]: in place when the label exists, appended otherwise. *)
Fixpoint set_column (name : string) (c : column) (df : frame) : frame :=
  match df with
  | [] => [(name, c)]
  | (n, c') :: df' =>
      if decide (n = name) then (n, c) :: df'
      else (n, c') :: set_column name c df'
  end.

(** [Series.pct_change()] on one pair: [cur / prev - 1] in float64. *)
Definition pct (prev cur : Qc) : xfloat :=
  if decide (prev = 0)%Qc
  then if decide (cur = 0)%Qc then NaN
       else if decide (0 < cur)%Qc then PosInf else NegInf
  else Fin (cur / prev - 1)%Qc.

Definition pct_change (l : list Qc) : list xfloat :=
  match l with
  | [] => []
  | _ :: l' => NaN :: zip_with pct l l'
  end.

(** [fillna(0)]. *)
Definition fillna0 (x : xfloat) : xfloat :=
  match x with NaN => Fin 0 | _ => x end.

(** Order of the labels of a period column; missing labels go last
    ([na_position="last"]). *)
Definition label_leb (a b : option string) : bool :=
  match a, b with
  | Some s, Some t => String.leb s t
  | Some _, None => true
  | None, Some _ => false
  | None, None => true
  end.

(** [sort_values(by)] on the first column of a table. *)
Definition sort_values {V} (l : list (option string * V))
  : list (option string * V) :=
  sort_by (λ a b, label_leb a.1 b.1) l.

(** *** What one purchase contributes

    The sums of the tables, told from the purchase rows: a purchase with
    client key [k] and amount [a] brings its amount once for every client
    row it is joined with. *)

Definition qsum (l : list Qc) : Qc := foldr Qcplus 0%Qc l.

(** To the bucket of country [v]: once per matching client of that
    country. *)
Definition country_share (rk : list cell) (pays : list cell) (v : value)
    (k : cell) (a : option Qc) : Qc :=
  qsum ((λ c, if decide (c = Some v) then default 0%Qc a else 0%Qc)
          <$> joined_right k rk pays).

(** To the bucket of month [m]: once per row of the join, when the
    purchase is of that month. *)
Definition month_share (rk : list cell) (m : string)
    (k : cell) (t : option timestamp) (a : option Qc) : Qc :=
  if decide (month_label t = m)
  then qsum (replicate (fanout k rk) (default 0%Qc a)) else 0%Qc.

(** The four KPI tables, as the rows of the frames returned. *)
Record kpis := Kpis {
  volumes_day : list (option date * nat);
  volumes_month : list (option string * nat);
  ca_by_country : list (cell * Qc);
  monthly_revenue : list (option string * Qc * xfloat);
}.

#[global] Instance kpis_eq_dec : EqDecision kpis.
Proof. solve_decision. Defined.

Section compute.
Context `{Pandas}.

(** The two tables in the shape the aggregation reads them: the
    purchases carry the client key, a date and a numeric amount, the
    clients the key and a country, and the labels the aggregation
    reads from the join are on one side only. *)
Record gold_inputs (clients achats : frame) (ids : column)
    (dates : list (option timestamp)) (amounts : list (option Qc))
    (cids pays : column) : Prop := {
  in_dates : ∃ dc, col_lookup "date_achat" achats = Some dc
                   ∧ dates = to_datetime dc ∧ col_len dc = col_len ids;
  in_ids : col_lookup "id_client" achats = Some ids;
  in_amounts : col_lookup "montant" achats = Some (FloatCol amounts);
  in_amounts_len : length amounts = col_len ids;
  in_cids : col_lookup "id_client" clients = Some cids;
  in_pays : col_lookup "pays" clients = Some pays;
  in_kind : same_kind ids cids = true;
  in_no_pays : "pays" ∉ columns achats;
  in_no_montant : "montant" ∉ columns clients;
  in_no_month : "month" ∉ columns clients;
}.

(** Lines 27-33: the date column parsed, and the month column added.
    The [day] and [week] columns the code also stores are not read
    back from the frame by any later line ([day] is grouped on at
    once, [week] never); [day] is kept beside the frame. *)
Definition with_periods (achats : frame)
  : option (frame * list (option date)) :=
  let achats :=
    match col_lookup "date_achat" achats with
    | Some c => set_column "date_achat" (DatetimeCol (to_datetime c)) achats
    | None => achats
    end in
  d ← col_lookup "date_achat" achats;
  match d with
  | DatetimeCol dates =>
      Some (set_column "month" (ObjectCol (Some ∘ month_label <$> dates))
              achats,
            fmap (M:=option) dt_date <$> dates)
  | _ => None
  end.

(** [compute_kpis(clients, achats)]; [None] when a line raises. The
    sums are modelled on a numeric amount column, which is what the
    cleaning leaves. On an object amount column pandas adds the strings
    of a group end to end, and the function returns or raises as the
    results read as numbers: the tables of [kpis] cannot tell that
    outcome, the function is [None] there as well, and no property below
    reads a [None] of that origin as an exception. *)
Definition compute_kpis (clients achats : frame) : option kpis :=
  '(achats, day) ← with_periods achats;
  month ← col_lookup "month" achats;
  let volumes_day := groupby_size date_leb day in
  joined ← merge_left "id_client" achats clients;
  pays ← col_lookup "pays" joined;
  montant ← col_lookup "montant" joined;
  jmonth ← col_lookup "month" joined;
  match montant, month, jmonth with
  | FloatCol amounts, ObjectCol months, ObjectCol jmonths =>
      let ca := groupby_sum value_leb (cells pays) amounts in
      let rev := sort_values (groupby_sum String.leb jmonths amounts) in
      let growth := fillna0 <$> pct_change (snd <$> rev) in
      Some {|
        volumes_day := volumes_day;
        volumes_month := groupby_size String.leb months;
        ca_by_country := ca;
        monthly_revenue := zip rev growth;
      |}
  | _, _, _ => None
  end.
End compute.

(** *** Sorting facts *)
Section sort_facts.
Context {A : Type} (leb : A → A → bool).
Hypothesis leb_total : ∀ a b, leb a b = true ∨ leb b a = true.

Let R (a b : A) : Prop := leb a b = true.

Lemma insert_sorted_perm k l : insert_sorted leb k l ≡ₚ k :: l.
Proof.
  induction l as [|x l IH]; simpl; [done|].
  destruct (leb k x); [done|]. rewrite IH. apply Permutation_swap.
Qed.

Lemma sort_by_perm l : sort_by leb l ≡ₚ l.
Proof.
  induction l as [|x l IH]; simpl; [done|].
  by rewrite insert_sorted_perm, IH.
Qed.

Lemma insert_sorted_HdRel a k l :
  R a k → HdRel R a l → HdRel R a (insert_sorted leb k l).
Proof.
  intros Hak Hl. destruct l as [|x l]; simpl; [by constructor|].
  destruct (leb k x); constructor; [done|]. by inversion Hl.
Qed.

Lemma insert_sorted_Sorted k l :
  Sorted R l → Sorted R (insert_sorted leb k l).
Proof.
  induction 1 as [|x l Hl IH Hx]; simpl; [by repeat constructor|].
  destruct (leb k x) eqn:E.
  - constructor; [by constructor|by constructor].
  - constructor; [done|]. apply insert_sorted_HdRel; [|done].
    destruct (leb_total k x) as [Hkx|Hxk]; [congruence|done].
Qed.

Lemma sort_by_Sorted l : Sorted R (sort_by leb l).
Proof.
  induction l as [|x l IH]; simpl; [constructor|].
  by apply insert_sorted_Sorted.
Qed.

Lemma sort_by_fix l : Sorted R l → sort_by leb l = l.
Proof.
  induction 1 as [|x l Hl IH Hx]; simpl; [done|].
  rewrite IH. destruct Hx as [|y l Hxy]; simpl; [done|].
  unfold R in Hxy. by rewrite Hxy.
Qed.
End sort_facts.

(** *** Grouping facts *)
Section groupby_facts.
Context {K : Type} `{EqDecision K} (leb : K → K → bool).
Hypothesis leb_total : ∀ a b, leb a b = true ∨ leb b a = true.

Lemma elem_of_group_keys k keys :
  k ∈ group_keys leb keys ↔ Some k ∈ keys.
Proof.
  unfold group_keys. rewrite (sort_by_perm leb), elem_of_remove_dups.
  rewrite list_elem_of_omap. split.
  - by intros ([k'|] & Hin & [= <-]).
  - intros Hin. by exists (Some k).
Qed.

Lemma group_keys_NoDup keys : NoDup (group_keys leb keys).
Proof.
  unfold group_keys. rewrite (sort_by_perm leb). apply NoDup_remove_dups.
Qed.

Lemma group_keys_Sorted keys :
  Sorted (λ a b, leb a b = true) (group_keys leb keys).
Proof. by apply sort_by_Sorted. Qed.

Lemma elem_of_groupby_sum c s keys vals :
  (c, s) ∈ groupby_sum leb keys vals ↔
  ∃ k, c = Some k ∧ Some k ∈ keys
       ∧ s = sum_present (members k keys vals).
Proof.
  unfold groupby_sum. rewrite list_elem_of_fmap. split.
  - intros (k & [= -> ->] & Hk). exists k.
    by rewrite <- elem_of_group_keys.
  - intros (k & -> & Hk & ->). exists k. by rewrite elem_of_group_keys.
Qed.

Lemma elem_of_groupby_size c n keys :
  (c, n) ∈ groupby_size leb keys ↔
  ∃ k, c = Some k ∧ Some k ∈ keys ∧ n = length (members k keys keys).
Proof.
  unfold groupby_size. rewrite list_elem_of_fmap. split.
  - intros (k & [= -> ->] & Hk). exists k.
    by rewrite <- elem_of_group_keys.
  - intros (k & -> & Hk & ->). exists k. by rewrite elem_of_group_keys.
Qed.

Lemma groupby_sum_keys keys vals :
  (groupby_sum leb keys vals).*1 = Some <$> group_keys leb keys.
Proof.
  unfold groupby_sum. rewrite <- list_fmap_compose.
  by apply list_fmap_ext.
Qed.

Lemma groupby_sum_no_absent s keys vals :
  (None, s) ∉ groupby_sum leb keys vals.
Proof. rewrite elem_of_groupby_sum. by intros (k & ? & _). Qed.
End groupby_facts.

(** *** Sums over the join *)

Lemma qsum_app l k : qsum (l ++ k) = (qsum l + qsum k)%Qc.
Proof.
  induction l as [|x l IH]; simpl; [by rewrite Qcplus_0_l|].
  by rewrite IH, Qcplus_assoc.
Qed.

Lemma sum_present_app l k :
  sum_present (l ++ k) = (sum_present l + sum_present k)%Qc.
Proof.
  induction l as [|x l IH]; simpl; [by rewrite Qcplus_0_l|].
  by rewrite IH, Qcplus_assoc.
Qed.

Lemma members_app {K V} `{EqDecision K} (k : K) ks1 ks2 (vs1 vs2 : list V) :
  length ks1 = length vs1 →
  members k (ks1 ++ ks2) (vs1 ++ vs2)
  = (members k ks1 vs1 ++ members k ks2 vs2)%list.
Proof.
  intros Hl. unfold members.
  rewrite zip_with_app by done. by rewrite omap_app.
Qed.

Lemma members_cons {K V} `{EqDecision K} (k : K) x keys v (vals : list V) :
  members k (x :: keys) (v :: vals)
  = if decide (x = Some k) then v :: members k keys vals
    else members k keys vals.
Proof. unfold members. simpl. by destruct (decide (x = Some k)). Qed.

Lemma members_length {K V} `{EqDecision K} (k : K) keys (vals : list V) :
  length keys = length vals →
  length (members k keys vals)
  = length (List.filter (λ x, bool_decide (x = Some k)) keys).
Proof.
  revert vals. induction keys as [|x keys IH]; intros [|v vals]; try done.
  intros [= Hl]. rewrite members_cons. simpl.
  destruct (decide (x = Some k)) as [->|Hne].
  - rewrite bool_decide_eq_true_2 by done. simpl. by rewrite (IH vals Hl).
  - rewrite bool_decide_eq_false_2 by done. by apply IH.
Qed.

Lemma members_count {K} `{EqDecision K} (k : K) keys :
  length (members k keys keys)
  = length (List.filter (λ x, bool_decide (x = Some k)) keys).
Proof. by apply members_length. Qed.

Lemma joined_right_length {A} k rk (vs : list (option A)) :
  length (joined_right k rk vs) = fanout k rk.
Proof.
  unfold joined_right, fanout. destruct (matches k rk) as [|j js]; [done|].
  rewrite length_fmap. simpl. lia.
Qed.

Lemma joined_right_unmatched {A} k rk (vs : list (option A)) :
  matches k rk = [] → joined_right k rk vs = [None].
Proof. unfold joined_right. by intros ->. Qed.

Lemma expand_left_length {A B} lk rk (vs : list (option A))
    (ws : list (option B)) :
  length lk = length vs →
  length (expand_left lk rk vs) = length (expand_right lk rk ws).
Proof.
  unfold expand_left, expand_right. revert vs.
  induction lk as [|k lk IH]; intros [|v vs]; simpl; try done.
  intros [= Hl]. rewrite !length_app, length_replicate, joined_right_length.
  by rewrite (IH vs Hl).
Qed.

Lemma share_chunk (v : value) (a : option Qc) (l : list cell) :
  sum_present (members v l (replicate (length l) a))
  = qsum ((λ c, if decide (c = Some v) then default 0%Qc a else 0%Qc) <$> l).
Proof.
  induction l as [|c l IH]; [done|].
  simpl replicate. rewrite members_cons, fmap_cons. simpl qsum.
  destruct (decide (c = Some v)); simpl; rewrite IH; [done|].
  by rewrite Qcplus_0_l.
Qed.

Lemma month_chunk (m : string) (l : option string) (a : option Qc) n :
  sum_present (members m (replicate n l) (replicate n a))
  = if decide (l = Some m) then qsum (replicate n (default 0%Qc a)) else 0%Qc.
Proof.
  induction n as [|n IH]; [by destruct (decide _)|].
  simpl replicate. rewrite members_cons.
  destruct (decide (l = Some m)); simpl; by rewrite IH.
Qed.

Lemma expand_left_cons {A} k lk rk v (vs : list (option A)) :
  expand_left (k :: lk) rk (v :: vs)
  = (replicate (fanout k rk) v ++ expand_left lk rk vs)%list.
Proof. done. Qed.

Lemma expand_right_cons {A} k lk rk (vs : list (option A)) :
  expand_right (k :: lk) rk vs
  = (joined_right k rk vs ++ expand_right lk rk vs)%list.
Proof. done. Qed.

(** The bucket of a country is the sum of the shares of the purchases. *)
Lemma country_total (v : value) rk pays lk (amounts : list (option Qc)) :
  length lk = length amounts →
  sum_present (members v (expand_right lk rk pays) (expand_left lk rk amounts))
  = qsum ((λ ka, country_share rk pays v ka.1 ka.2) <$> zip lk amounts).
Proof.
  revert amounts.
  induction lk as [|k lk IH]; intros [|a amounts]; try done.
  intros [= Hl]. rewrite expand_left_cons, expand_right_cons.
  rewrite members_app, sum_present_app, (IH amounts Hl).
  - simpl. f_equal. rewrite <- (joined_right_length k rk pays).
    apply share_chunk.
  - by rewrite length_replicate, joined_right_length.
Qed.

(** The bucket of a month is the sum of the shares of the purchases. *)
Lemma month_total (m : string) rk lk (dates : list (option timestamp))
    (amounts : list (option Qc)) :
  length lk = length dates → length lk = length amounts →
  sum_present
    (members m (expand_left lk rk (Some ∘ month_label <$> dates))
               (expand_left lk rk amounts))
  = qsum ((λ kta, month_share rk m kta.1 kta.2.1 kta.2.2)
            <$> zip lk (zip dates amounts)).
Proof.
  revert dates amounts.
  induction lk as [|k lk IH]; intros [|t dates] [|a amounts]; try done.
  intros [= Hd] [= Ha]. rewrite fmap_cons, !expand_left_cons.
  rewrite members_app, sum_present_app.
  - rewrite (IH dates amounts Hd Ha). simpl. f_equal. rewrite month_chunk.
    unfold month_share; simpl.
    destruct (decide (month_label t = m)) as [->|Hne].
    + by rewrite decide_True.
    + rewrite decide_False; [done|]. by intros [= ?].
  - by rewrite !length_replicate.
Qed.

(** *** Looking a column up in the joined frame *)

Lemma col_lookup_app name (df1 df2 : frame) :
  col_lookup name (df1 ++ df2)%list
  = match col_lookup name df1 with
    | Some c => Some c
    | None => col_lookup name df2
    end.
Proof.
  induction df1 as [|[n c] df1 IH]; simpl; [done|].
  by destruct (decide (n = name)).
Qed.

Lemma col_lookup_rename (f : string → string) (g : column → column)
    name (df : frame) :
  (∀ n, n ∈ columns df → f n = name ↔ n = name) →
  col_lookup name ((λ nc : string * column, (f nc.1, g nc.2)) <$> df)
  = g <$> col_lookup name df.
Proof.
  unfold columns. induction df as [|[n c] df IH]; intros Hf; simpl; [done|].
  assert (Hn : f n = name ↔ n = name) by (apply Hf, list_elem_of_here).
  destruct (decide (f n = name)) as [E|E], (decide (n = name)) as [E'|E'];
    try done; try (by destruct E'; apply Hn); try (by destruct E; apply Hn).
  apply IH. intros n' Hn'. by apply Hf, list_elem_of_further.
Qed.

Lemma col_lookup_filter_ne name key (df : frame) :
  name ≠ key →
  col_lookup name (List.filter (λ nc, bool_decide (nc.1 ≠ key)) df)
  = col_lookup name df.
Proof.
  intros Hne. induction df as [|[n c] df IH]; simpl; [done|].
  destruct (decide (n = key)) as [->|Hk].
  - rewrite bool_decide_eq_false_2 by (by intros ?).
    by rewrite decide_False by done.
  - rewrite bool_decide_eq_true_2 by done. simpl. by rewrite IH.
Qed.

Lemma col_lookup_None name (df : frame) :
  name ∉ columns df → col_lookup name df = None.
Proof.
  rewrite col_lookup_is_Some. destruct (col_lookup name df); [|done].
  intros []. by eexists.
Qed.

Lemma col_lookup_set_column name n c (df : frame) :
  col_lookup name (set_column n c df)
  = if decide (n = name) then Some c else col_lookup name df.
Proof.
  induction df as [|[n' c'] df IH]; simpl.
  - by destruct (decide (n = name)).
  - destruct (decide (n' = n)) as [->|Hn']; simpl.
    + by destruct (decide (n = name)).
    + destruct (decide (n' = name)) as [->|]; [|exact IH].
      by rewrite decide_False by done.
Qed.

Lemma set_column_same n c (df : frame) :
  col_lookup n df = Some c → set_column n c df = df.
Proof.
  induction df as [|[n' c'] df IH]; simpl; [done|].
  destruct (decide (n' = n)) as [->|]; [by intros [= ->]|].
  intros E. by rewrite IH.
Qed.

Lemma columns_set_column name n c (df : frame) :
  name ∈ columns (set_column n c df) ↔ name = n ∨ name ∈ columns df.
Proof.
  rewrite !col_lookup_is_Some, col_lookup_set_column.
  destruct (decide (n = name)) as [->|Hne].
  - split; [by left|by eexists].
  - split; [by right|]. by intros [?|?].
Qed.

Lemma cells_expand_left lk rk c :
  cells (col_apply (λ A, expand_left lk rk) c)
  = expand_left lk rk (cells c).
Proof.
  assert (Hgen : ∀ A B (f : A → B) (vs : list (option A)),
    fmap (M:=option) f <$> expand_left lk rk vs
    = expand_left lk rk (fmap (M:=option) f <$> vs)).
  { intros A B f vs. unfold expand_left. revert vs.
    induction lk as [|k lk IH]; intros [|v vs]; simpl; try done.
    by rewrite fmap_app, fmap_replicate, IH. }
  destruct c; simpl; apply Hgen.
Qed.

Lemma cells_expand_right lk rk c :
  cells (col_apply (λ A, expand_right lk rk) c)
  = expand_right lk rk (cells c).
Proof.
  assert (Hgen : ∀ A B (f : A → B) (vs : list (option A)),
    fmap (M:=option) f <$> expand_right lk rk vs
    = expand_right lk rk (fmap (M:=option) f <$> vs)).
  { intros A B f vs. unfold expand_right.
    induction lk as [|k lk IH]; simpl; [done|].
    rewrite fmap_app, IH. f_equal. unfold joined_right.
    destruct (matches k rk) as [|j js]; [done|].
    rewrite <- list_fmap_compose. apply list_fmap_ext. intros _ i _. simpl.
    rewrite list_lookup_fmap. by destruct (vs !! i) as [[?|]|]. }
  destruct c; simpl; apply Hgen.
Qed.

(** *** The tables in terms of the input columns *)

(** A label that carries none of the merge suffixes. *)
Definition plain (name : string) : Prop :=
  ∀ n, String.append n "_x" ≠ name ∧ String.append n "_y" ≠ name.

Ltac plain_label :=
  let n := fresh "n" in
  let E := fresh "E" in
  intros n; split; intros E;
  repeat (destruct n as [|? n]; simpl in E; [discriminate E|];
          injection E as _ E);
  destruct n; discriminate E.

Lemma plain_pays : plain "pays".
Proof. plain_label. Qed.

Lemma plain_montant : plain "montant".
Proof. plain_label. Qed.

Lemma plain_month : plain "month".
Proof. plain_label. Qed.

Lemma merge_lookup_left key name left right lk rk c :
  plain name → name ∉ columns right →
  col_lookup name left = Some c →
  col_lookup name (merged key left right lk rk)
  = Some (col_apply (λ A, expand_left lk rk) c).
Proof.
  intros Hp Hr Hc. unfold merged. rewrite col_lookup_app.
  rewrite (col_lookup_rename (left_label key right)).
  - by rewrite Hc.
  - intros n _. unfold left_label.
    destruct (bool_decide_reflect (n ≠ key ∧ n ∈ columns right))
      as [[_ Hin]|_]; [|done].
    split; [by intros ?%(proj1 (Hp n))|by intros ->].
Qed.

Lemma merge_lookup_right key name left right lk rk c :
  plain name → name ∉ columns left → name ≠ key →
  col_lookup name right = Some c →
  col_lookup name (merged key left right lk rk)
  = Some (col_apply (λ A, expand_right lk rk) c).
Proof.
  intros Hp Hl Hk Hc. unfold merged. rewrite col_lookup_app.
  rewrite (col_lookup_rename (left_label key right)).
  - rewrite (col_lookup_None name left Hl). simpl.
    rewrite (col_lookup_rename (right_label left)).
    + by rewrite col_lookup_filter_ne, Hc.
    + intros n _. unfold right_label.
      destruct (bool_decide_reflect (n ∈ columns left)) as [Hin|_]; [|done].
      split; [by intros ?%(proj2 (Hp n))|by intros ->].
  - intros n Hn. unfold left_label.
    destruct (bool_decide_reflect (n ≠ key ∧ n ∈ columns right)) as [_|_].
    + split; [by intros ?%(proj1 (Hp n))|by intros ->].
    + done.
Qed.

Lemma label_leb_total (a b : option string) :
  label_leb a b = true ∨ label_leb b a = true.
Proof. destruct a, b; simpl; auto. apply String.leb_total. Qed.

Lemma groupby_sum_sorted keys vals :
  Sorted (λ a b : option string * Qc, label_leb a.1 b.1 = true)
         (groupby_sum String.leb keys vals).
Proof.
  unfold groupby_sum.
  apply (Sorted_fmap _ (λ a b, String.leb a b = true)); [done|].
  apply group_keys_Sorted, String.leb_total.
Qed.

Section compute_facts.
Context `{Pandas}.

(** The four tables, read off the columns of the two inputs. *)
Lemma compute_kpis_tables clients achats ids dates amounts cids pays :
  gold_inputs clients achats ids dates amounts cids pays →
  let lk := cells ids in
  let rk := cells cids in
  let rev := groupby_sum String.leb
               (expand_left lk rk (Some ∘ month_label <$> dates))
               (expand_left lk rk amounts) in
  compute_kpis clients achats = Some {|
    volumes_day := groupby_size date_leb (fmap (M:=option) dt_date <$> dates);
    volumes_month := groupby_size String.leb (Some ∘ month_label <$> dates);
    ca_by_country :=
      groupby_sum value_leb (expand_right lk rk (cells pays))
                  (expand_left lk rk amounts);
    monthly_revenue := zip rev (fillna0 <$> pct_change rev.*2);
  |}.
Proof.
  intros [(dc & Hdc & -> & Hlen) Hids Hamt Halen Hcids Hpays Hkind
            Hnp Hnm Hnmo] lk rk rev.
  unfold compute_kpis, with_periods. rewrite Hdc.
  rewrite col_lookup_set_column, decide_True by done. simpl.
  rewrite col_lookup_set_column, decide_True by done. simpl.
  unfold merge_left.
  rewrite !col_lookup_set_column, !decide_False, Hids by done. simpl.
  rewrite Hcids. simpl. unfold mergeable. rewrite Hkind. cbn [orb].
  set (a2 := set_column "month" _ _).
  assert (Hpa : "pays" ∉ columns a2).
  { unfold a2. rewrite !columns_set_column. by intros [?|[?|?]]. }
  change (mbind ?f (Some ?x)) with (f x). cbv beta.
  rewrite (merge_lookup_right "id_client" "pays" a2 clients _ _ pays
             plain_pays Hpa) by done.
  simpl.
  rewrite (merge_lookup_left "id_client" "montant" a2 clients _ _
             (FloatCol amounts) plain_montant Hnm).
  2:{ unfold a2. by rewrite !col_lookup_set_column, !decide_False. }
  simpl.
  rewrite (merge_lookup_left "id_client" "month" a2 clients _ _
             (ObjectCol (Some ∘ month_label <$> to_datetime dc))
             plain_month Hnmo).
  2:{ unfold a2. by rewrite col_lookup_set_column, decide_True. }
  simpl. unfold sort_values. rewrite sort_by_fix.
  - by rewrite cells_expand_right.
  - apply groupby_sum_sorted.
Qed.

(** What a successful run returns, whatever the input frames. *)
Lemma compute_kpis_inv clients achats k :
  compute_kpis clients achats = Some k →
  ∃ pays months amounts,
    ca_by_country k = groupby_sum value_leb pays amounts
    ∧ monthly_revenue k
      = (let rev := groupby_sum String.leb months amounts in
         zip rev (fillna0 <$> pct_change rev.*2)).
Proof.
  unfold compute_kpis. intros Hk.
  destruct (with_periods achats) as [[a2 day]|]; [|done]. simpl in Hk.
  destruct (col_lookup "month" a2) as [month|]; [|done]. simpl in Hk.
  destruct (merge_left "id_client" a2 clients) as [j|]; [|done].
  simpl in Hk.
  destruct (col_lookup "pays" j) as [pays|]; [|done]. simpl in Hk.
  destruct (col_lookup "montant" j) as [montant|]; [|done]. simpl in Hk.
  destruct (col_lookup "month" j) as [jmonth|]; [|done]. simpl in Hk.
  destruct montant as [|amounts|]; try done.
  destruct month as [months| |]; try done.
  destruct jmonth as [jmonths| |]; try done.
  injection Hk as <-. exists (cells pays), jmonths, amounts. simpl.
  split; [done|]. unfold sort_values.
  by rewrite sort_by_fix by apply groupby_sum_sorted.
Qed.
End compute_facts.


(** *** Order of the month labels *)

Lemma string_compare_lt_trans s1 s2 s3 :
  String.compare s1 s2 = Lt → String.compare s2 s3 = Lt →
  String.compare s1 s3 = Lt.
Proof.
  revert s2 s3. induction s1 as [|c1 s1 IH]; intros [|c2 s2] [|c3 s3];
    simpl; try done.
  unfold Ascii.compare.
  destruct (N.compare_spec (N_of_ascii c1) (N_of_ascii c2)) as [E12|L12|G12],
    (N.compare_spec (N_of_ascii c2) (N_of_ascii c3)) as [E23|L23|G23];
    try done; intros H12 H23.
  - rewrite E12, E23, N.compare_refl. by eapply IH.
  - by rewrite E12, (proj2 (N.compare_lt_iff _ _) L23).
  - by rewrite <- E23, (proj2 (N.compare_lt_iff _ _) L12).
  - assert (L13 : (N_of_ascii c1 < N_of_ascii c3)%N) by lia.
    by rewrite (proj2 (N.compare_lt_iff _ _) L13).
Qed.

Definition string_lt (a b : string) : Prop := String.ltb a b = true.

Lemma string_lt_compare a b : string_lt a b ↔ String.compare a b = Lt.
Proof.
  unfold string_lt, String.ltb. by destruct (String.compare a b).
Qed.

#[global] Instance string_lt_trans : Transitive string_lt.
Proof.
  intros a b c. rewrite !string_lt_compare. apply string_compare_lt_trans.
Qed.

Lemma string_leb_ne_lt a b : String.leb a b = true → a ≠ b → string_lt a b.
Proof.
  unfold string_lt, String.leb, String.ltb.
  destruct (String.compare a b) eqn:E; try done.
  intros _ []. by apply String.compare_eq_iff.
Qed.

Lemma Sorted_leb_NoDup_lt l :
  Sorted (λ a b, String.leb a b = true) l → NoDup l →
  StronglySorted string_lt l.
Proof.
  intros Hs Hnd. apply Sorted_StronglySorted; [apply _|].
  induction Hs as [|x l Hl IH Hx]; [constructor|].
  apply NoDup_cons in Hnd as [Hx' Hnd]. constructor; [by apply IH|].
  destruct Hx as [|y l Hxy]; constructor.
  apply string_leb_ne_lt; [done|]. intros ->. apply Hx', list_elem_of_here.
Qed.

(** The months of a revenue table: distinct and ascending. *)
Lemma group_keys_ascending keys :
  StronglySorted string_lt (group_keys String.leb keys).
Proof.
  apply Sorted_leb_NoDup_lt.
  - apply group_keys_Sorted, String.leb_total.
  - apply group_keys_NoDup.
Qed.

(** *** Growth *)

Lemma pct_nonzero prev cur :
  prev ≠ 0%Qc → fillna0 (pct prev cur) = Fin ((cur - prev) / prev)%Qc.
Proof.
  intros Hp. unfold pct. rewrite decide_False by done. simpl. f_equal.
  field. done.
Qed.

Lemma pct_change_lookup_0 l x :
  l !! 0%nat = Some x → (fillna0 <$> pct_change l) !! 0%nat = Some (Fin 0).
Proof. by destruct l. Qed.

Lemma pct_change_lookup_S l i prev cur :
  l !! i = Some prev → l !! S i = Some cur →
  (fillna0 <$> pct_change l) !! S i = Some (fillna0 (pct prev cur)).
Proof.
  destruct l as [|x l]; [done|]. intros Hp Hc.
  rewrite list_lookup_fmap. unfold pct_change.
  change ((NaN :: zip_with pct (x :: l) l) !! S i)
    with (zip_with pct (x :: l) l !! i).
  change ((x :: l) !! S i) with (l !! i) in Hc.
  rewrite lookup_zip_with. by rewrite Hp, Hc.
Qed.

Lemma length_pct_change l : length (pct_change l) = length l.
Proof.
  destruct l as [|x l]; [done|]. unfold pct_change.
  rewrite length_cons, length_zip_with, length_cons. lia.
Qed.

(** *** Keys that match no row of the right frame *)

Lemma matches_unmatched k rk : k ∉ rk → matches k rk = [].
Proof.
  unfold matches. generalize 0%nat.
  induction rk as [|x rk IH]; intros n Hk; simpl; [done|].
  apply not_elem_of_cons in Hk as [Hne Hk].
  rewrite decide_False by done. by apply IH.
Qed.

(** *** Keys that match

    The positions a key is matched with, told from the right column. *)


(** *** Month labels order as the months do *)

(** The order of two timestamps by calendar month. *)
Definition month_lt (t u : timestamp) : Prop :=
  (ts_year t < ts_year u ∨ (ts_year t = ts_year u ∧ ts_month t < ts_month u))%Z.

(** A timestamp whose year takes four digits, as every [pd.Timestamp]
    does (1677 to 2262). *)
Definition four_digit (t : timestamp) : Prop :=
  (0 ≤ ts_year t ≤ 9999 ∧ 0 ≤ ts_month t ≤ 99)%Z.

Lemma digit_compare a b :
  Ascii.compare (digit a) (digit b) = Z.compare (a mod 10) (b mod 10).
Proof.
  unfold Ascii.compare, digit.
  assert (Hn : ∀ n, N_of_ascii (ascii_of_nat (48 + Z.to_nat (n mod 10)))
                    = N.of_nat (48 + Z.to_nat (n mod 10))).
  { intros n. pose proof (Z.mod_pos_bound n 10 ltac:(lia)).
    rewrite <- (nat_ascii_embedding (48 + Z.to_nat (n mod 10))) at 2 by lia.
    unfold nat_of_ascii. by rewrite N2Nat.id. }
  rewrite !Hn.
  pose proof (Z.mod_pos_bound a 10 ltac:(lia)).
  pose proof (Z.mod_pos_bound b 10 ltac:(lia)).
  destruct (Z.compare_spec (a mod 10) (b mod 10)) as [E|L|G].
  - rewrite E. apply N.compare_refl.
  - apply N.compare_lt_iff. lia.
  - apply N.compare_gt_iff. lia.
Qed.

Lemma digits4 y :
  (0 ≤ y ≤ 9999)%Z →
  ∃ a b c d, (0 ≤ a ≤ 9 ∧ 0 ≤ b ≤ 9 ∧ 0 ≤ c ≤ 9 ∧ 0 ≤ d ≤ 9
    ∧ y = 1000 * a + 100 * b + 10 * c + d
    ∧ (y / 1000) mod 10 = a ∧ (y / 100) mod 10 = b
    ∧ (y / 10) mod 10 = c ∧ y mod 10 = d)%Z.
Proof.
  intros Hy. exists ((y / 1000) mod 10)%Z, ((y / 100) mod 10)%Z,
    ((y / 10) mod 10)%Z, (y mod 10)%Z.
  repeat split; try (Z.div_mod_to_equations; lia).
Qed.

Lemma digits2 y :
  (0 ≤ y ≤ 99)%Z →
  ∃ c d, (0 ≤ c ≤ 9 ∧ 0 ≤ d ≤ 9 ∧ y = 10 * c + d
    ∧ (y / 10) mod 10 = c ∧ y mod 10 = d)%Z.
Proof.
  intros Hy. exists ((y / 10) mod 10)%Z, (y mod 10)%Z.
  repeat split; try (Z.div_mod_to_equations; lia).
Qed.

Lemma month_label_unfold t :
  month_label (Some t)
  = String (digit (ts_year t / 1000)) (String (digit (ts_year t / 100))
      (String (digit (ts_year t / 10)) (String (digit (ts_year t))
        (String "-" (String (digit (ts_month t / 10))
           (String (digit (ts_month t)) EmptyString)))))).
Proof. reflexivity. Qed.

Lemma string_compare_cons c1 s1 c2 s2 :
  String.compare (String c1 s1) (String c2 s2)
  = match Ascii.compare c1 c2 with
    | Eq => String.compare s1 s2
    | ne => ne
    end.
Proof. reflexivity. Qed.

Lemma month_label_lt t u :
  four_digit t → four_digit u →
  string_lt (month_label (Some t)) (month_label (Some u)) ↔ month_lt t u.
Proof.
  intros [Hy Hm] [Hy' Hm']. rewrite string_lt_compare. unfold month_lt.
  destruct (digits4 _ Hy)
    as (a3 & a2 & a1 & a0 & ? & ? & ? & ? & Ey & E3 & E2 & E1 & E0).
  destruct (digits4 _ Hy')
    as (b3 & b2 & b1 & b0 & ? & ? & ? & ? & Ey' & F3 & F2 & F1 & F0).
  destruct (digits2 _ Hm) as (c1 & c0 & ? & ? & Em & G1 & G0).
  destruct (digits2 _ Hm') as (d1 & d0 & ? & ? & Em' & K1 & K0).
  rewrite !month_label_unfold, !string_compare_cons.
  rewrite !digit_compare, E3, E2, E1, E0, F3, F2, F1, F0, G1, G0, K1, K0.
  clear E3 E2 E1 E0 F3 F2 F1 F0 G1 G0 K1 K0 Hy Hy' Hm Hm'.
  rewrite Ey, Ey', Em, Em'. clear Ey Ey' Em Em'.
  change (Ascii.compare "-" "-") with Eq. cbv iota.
  change (String.compare "" "") with Eq.
  destruct (Z.compare_spec a3 b3); [|split; [lia|done]|split; [done|lia]].
  destruct (Z.compare_spec a2 b2); [|split; [lia|done]|split; [done|lia]].
  destruct (Z.compare_spec a1 b1); [|split; [lia|done]|split; [done|lia]].
  destruct (Z.compare_spec a0 b0); [|split; [lia|done]|split; [done|lia]].
  destruct (Z.compare_spec c1 d1); [|split; [lia|done]|split; [done|lia]].
  destruct (Z.compare_spec c0 d0); [|split; [lia|done]|split; [done|lia]].
  split; [done|lia].
Qed.

(** The rows of a revenue table: the months ascending, the growth of the
    first row 0, the growth of a later row [cur / prev - 1]. *)
Lemma revenue_rows (months : list (option string)) amounts :
  let rev := groupby_sum String.leb months amounts in
  let table := zip rev (fillna0 <$> pct_change rev.*2) in
  (∃ ms, table.*1.*1 = Some <$> ms ∧ StronglySorted string_lt ms)
  ∧ (∀ m r p, table !! 0%nat = Some (m, r, p) → p = Fin 0)
  ∧ (∀ i m r p m' r' p',
       table !! i = Some (m, r, p) → table !! S i = Some (m', r', p') →
       p' = fillna0 (pct r r')).
Proof.
  intros rev table.
  assert (Hlen : length rev = length (fillna0 <$> pct_change rev.*2)).
  { by rewrite length_fmap, length_pct_change, length_fmap. }
  assert (Hrow : ∀ i m r p, table !! i = Some (m, r, p) →
            rev.*2 !! i = Some r
            ∧ (fillna0 <$> pct_change rev.*2) !! i = Some p).
  { intros i m r p Hi. unfold table in Hi.
    apply lookup_zip_with_Some in Hi as (x & y & [= <- <-] & Hx & Hy).
    split; [|done]. by rewrite list_lookup_fmap, Hx. }
  split; [|split].
  - exists (group_keys String.leb months). split.
    + unfold table. rewrite fst_zip by lia. apply groupby_sum_keys.
    + apply group_keys_ascending.
  - intros m r p [Hr Hp]%Hrow.
    rewrite (pct_change_lookup_0 _ r Hr) in Hp. congruence.
  - intros i m r p m' r' p' [Hr _]%Hrow [Hr' Hp']%Hrow.
    rewrite (pct_change_lookup_S _ i r r' Hr Hr') in Hp'. congruence.
Qed.

(** *** The tables told from the purchase rows *)

Lemma elem_of_zip_fst {A B} (l : list A) (k : list B) x y :
  (x, y) ∈ zip l k → x ∈ l.
Proof.
  intros Hin. apply list_elem_of_lookup in Hin as [i Hi].
  apply lookup_zip_with_Some in Hi as (a & b & [= <- <-] & Ha & _).
  apply list_elem_of_lookup. by exists i.
Qed.

Section sums.
Context `{Pandas}.

(** Every bucket of the four tables, as a count or a sum over the purchase
    rows: the volumes count the rows of a day or of a month whatever their
    amount, a country sums the shares of the purchases joined with a
    client of that country, a month sums the shares of its purchases. *)
Lemma compute_kpis_sums clients achats ids dates amounts cids pays :
  gold_inputs clients achats ids dates amounts cids pays →
  let lk := cells ids in
  let rk := cells cids in
  let days := fmap (M:=option) dt_date <$> dates in
  let labels := Some ∘ month_label <$> dates in
  ∃ k, compute_kpis clients achats = Some k
    ∧ (∀ d n, (d, n) ∈ volumes_day k ↔
         ∃ day, d = Some day ∧ Some day ∈ days
           ∧ n = length (List.filter (λ x, bool_decide (x = Some day)) days))
    ∧ (∀ m n, (m, n) ∈ volumes_month k ↔
         ∃ l, m = Some l ∧ Some l ∈ labels
           ∧ n = length (List.filter (λ x, bool_decide (x = Some l)) labels))
    ∧ (∀ c s, (c, s) ∈ ca_by_country k ↔
         ∃ v, c = Some v ∧ Some v ∈ expand_right lk rk (cells pays)
           ∧ s = qsum ((λ ka, country_share rk (cells pays) v ka.1 ka.2)
                         <$> zip lk amounts))
    ∧ (∀ m r p, (m, r, p) ∈ monthly_revenue k →
         ∃ l, m = Some l
           ∧ r = qsum ((λ kta, month_share rk l kta.1 kta.2.1 kta.2.2)
                         <$> zip lk (zip dates amounts))).
Proof.
  intros Hin lk rk days labels.
  pose proof (compute_kpis_tables _ _ _ _ _ _ _ Hin) as Hk. cbv zeta in Hk.
  destruct Hin as [(dc & Hdc & Hdates & Hlen) _ _ Halen _ _ _ _ _ _].
  assert (Hld : length lk = length dates).
  { unfold lk. rewrite Hdates, to_datetime_length. symmetry. exact Hlen. }
  assert (Hla : length lk = length amounts) by (by rewrite Halen).
  eexists. split; [exact Hk|]. simpl. repeat split.
  - intros (day & -> & Hday & ->)%elem_of_groupby_size.
    exists day. by rewrite members_count.
  - intros (day & -> & Hday & ->). apply elem_of_groupby_size.
    exists day. by rewrite members_count.
  - intros (l & -> & Hl & ->)%elem_of_groupby_size.
    exists l. by rewrite members_count.
  - intros (l & -> & Hl & ->). apply elem_of_groupby_size.
    exists l. by rewrite members_count.
  - intros (v & -> & Hv & ->)%elem_of_groupby_sum. exists v.
    by rewrite country_total.
  - intros (v & -> & Hv & ->). apply elem_of_groupby_sum. exists v.
    by rewrite country_total.
  - intros m r p Hrow. apply elem_of_zip_fst in Hrow.
    apply elem_of_groupby_sum in Hrow as (l & -> & _ & ->).
    exists l. by rewrite month_total.
Qed.
End sums.

(** *** Leaving one row out *)

Lemma qsum_delete {A} (f : A → Qc) l i x :
  l !! i = Some x → f x = 0%Qc → qsum (f <$> l) = qsum (f <$> delete i l).
Proof.
  revert i. induction l as [|y l IH]; intros [|i]; try done.
  - intros [= ->] Hx.
    change (qsum (f <$> x :: l)) with (f x + qsum (f <$> l))%Qc.
    by rewrite Hx, Qcplus_0_l.
  - intros Hi Hx.
    change (qsum (f <$> y :: l)) with (f y + qsum (f <$> l))%Qc.
    change (qsum (f <$> delete (S i) (y :: l)))
      with (f y + qsum (f <$> delete i l))%Qc.
    by rewrite (IH i Hi Hx).
Qed.

Lemma count_delete {A} (P : A → bool) l i x :
  l !! i = Some x → P x = true →
  length (List.filter P l) = S (length (List.filter P (delete i l))).
Proof.
  revert i. induction l as [|y l IH]; intros [|i]; simpl; try done.
  - by intros [= ->] ->.
  - intros Hi Hx. destruct (P y); simpl; by rewrite (IH i Hi Hx).
Qed.

Lemma delete_zip {A B} (l : list A) (k : list B) i :
  delete i (zip l k) = zip (delete i l) (delete i k).
Proof.
  revert l k. induction i as [|i IH]; intros [|x l] [|y k]; simpl; try done.
  all: try (by destruct l); try (by destruct (delete i l)).
  by rewrite IH.
Qed.

Lemma qsum_zero {A} (f : A → Qc) l :
  (∀ x, f x = 0%Qc) → qsum (f <$> l) = 0%Qc.
Proof.
  intros Hf. induction l as [|x l IH]; [done|].
  change (qsum (f <$> x :: l)) with (f x + qsum (f <$> l))%Qc.
  by rewrite Hf, IH.
Qed.

Lemma qsum_replicate_zero n : qsum (replicate n 0%Qc) = 0%Qc.
Proof. induction n as [|n IH]; [done|]. simpl. by rewrite IH. Qed.

Lemma country_share_no_amount rk pays v key :
  country_share rk pays v key None = 0%Qc.
Proof.
  unfold country_share. apply qsum_zero. intros c.
  by destruct (decide (c = Some v)).
Qed.

Lemma month_share_no_amount rk m key t : month_share rk m key t None = 0%Qc.
Proof.
  unfold month_share. destruct (decide _); [|done].
  apply qsum_replicate_zero.
Qed.

Lemma country_share_unmatched rk pays v key a :
  key ∉ rk → country_share rk pays v key a = 0%Qc.
Proof.
  intros Hk. unfold country_share.
  rewrite joined_right_unmatched by by apply matches_unmatched. done.
Qed.

Lemma month_share_unmatched rk key t a :
  key ∉ rk → month_share rk (month_label t) key t a = default 0%Qc a.
Proof.
  intros Hk. unfold month_share, fanout. rewrite decide_True by done.
  rewrite matches_unmatched by done. simpl. apply Qcplus_0_r.
Qed.

End Gold.

(** ** Python datetimes *)
Module PyTime.

(** A [datetime.datetime]; [dt_offset] is the UTC offset of its [tzinfo]
    in microseconds, [None] for a naive datetime. *)
Record datetime := Datetime {
  dt_year : Z; dt_month : Z; dt_day : Z;
  dt_hour : Z; dt_minute : Z; dt_second : Z; dt_micro : Z;
  dt_offset : option Z }.

#[global] Instance datetime_eq_dec : EqDecision datetime.
Proof. solve_decision. Defined.

Definition is_leap (y : Z) : bool :=
  ((y mod 4 =? 0) && negb (y mod 100 =? 0) || (y mod 400 =? 0))%Z.

Definition days_in_month (y m : Z) : Z :=
  if (m =? 2)%Z then (if is_leap y then 29 else 28)
  else if ((m =? 4) || (m =? 6) || (m =? 9) || (m =? 11))%Z then 30 else 31.

(** The days before the first of January of year [y], and before the
    first of month [m] in year [y]. *)
Definition days_before_year (y : Z) : Z :=
  ((y - 1) * 365 + (y - 1) / 4 - (y - 1) / 100 + (y - 1) / 400)%Z.

Definition days_before_month (y m : Z) : Z :=
  foldr Z.add 0%Z (days_in_month y <$> seqZ 1 (m - 1)).

(** [date.toordinal()]. *)
Definition toordinal (d : datetime) : Z :=
  (days_before_year (dt_year d) + days_before_month (dt_year d) (dt_month d)
   + dt_day d)%Z.

(** The wall-clock reading in microseconds. *)
Definition wall_micros (d : datetime) : Z :=
  (((toordinal d * 24 + dt_hour d) * 60 + dt_minute d) * 60 + dt_second d)
  * 1000000 + dt_micro d.

(** [d.replace(tzinfo=timezone.utc)]. *)
Definition replace_utc (d : datetime) : datetime :=
  Datetime (dt_year d) (dt_month d) (dt_day d) (dt_hour d) (dt_minute d)
           (dt_second d) (dt_micro d) (Some 0%Z).

(** [(a - b)] in microseconds; [None] is the [TypeError] of subtracting a
    naive and an aware datetime. *)
Definition sub (a b : datetime) : option Z :=
  match dt_offset a, dt_offset b with
  | None, None => Some (wall_micros a - wall_micros b)%Z
  | Some oa, Some ob => Some ((wall_micros a - oa) - (wall_micros b - ob))%Z
  | _, _ => None
  end.

(** [timedelta.total_seconds()]. *)
Definition total_seconds (micros : Z) : Qc := Q2Qc (micros # 1000000).

(** The instant a datetime denotes, in microseconds, a naive datetime
    read as UTC. *)
Definition instant (d : datetime) : Z :=
  (wall_micros d - default 0 (dt_offset d))%Z.

End PyTime.

(** ** Publication stage: [flows/gold_to_mongo.py] *)
Module Mongo.
Import Frame PyTime.

(** The values of a document; [BNaN] is the double NaN. *)
Inductive bson :=
| BNull
| BStr (s : string)
| BNum (q : Qc)
| BNaN
| BDate (d : datetime)
| BDoc (fields : list (string * bson)).

(** A document, or a Python dict: keys in insertion order. The [_id] the
    store adds to every document is left out; no flow reads it. *)
Abbreviation doc := (list (string * bson)).

(** [d.get(k)]. *)
Fixpoint doc_get (k : string) (d : doc) : option bson :=
  match d with
  | [] => None
  | (k', v) :: d' => if decide (k' = k) then Some v else doc_get k d'
  end.

(** [d[k] = v]. *)
Fixpoint doc_set (k : string) (v : bson) (d : doc) : doc :=
  match d with
  | [] => [(k, v)]
  | (k', v') :: d' =>
      if decide (k' = k) then (k', v) :: d' else (k', v') :: doc_set k v d'
  end.

(** The effect of [{"$set": fields}] on a document. *)
Definition apply_set (fields : doc) (d : doc) : doc :=
  foldl (λ acc kv, doc_set kv.1 kv.2 acc) d fields.

(** The database: the documents of each collection, in insertion order. *)
Abbreviation database := (gmap string (list doc)).

Definition docs (c : string) (db : database) : list doc := default [] (db !! c).

(** The filter [{"collection": name}]. *)
Definition by_collection (name : string) (d : doc) : bool :=
  match doc_get "collection" d with
  | Some (BStr s) => bool_decide (s = name)
  | _ => false
  end.

(** [db[c].delete_many({})]. *)
Definition delete_many_all (c : string) (db : database) : database :=
  alter (λ _, []) c db.

(** [db[c].insert_many(records)]. *)
Definition insert_many (c : string) (records : list doc) (db : database)
  : database :=
  <[c := (docs c db ++ records)%list]> db.

(** [db[c].find_one(filter)]. *)
Definition find_one (c : string) (p : doc → bool) (db : database)
  : option doc :=
  List.find p (docs c db).

(** The first document that matches, updated. *)
Fixpoint update_first (p : doc → bool) (f : doc → doc) (l : list doc)
  : option (list doc) :=
  match l with
  | [] => None
  | d :: l' => if p d then Some (f d :: l')
               else cons d <$> update_first p f l'
  end.

(** [db[c].update_one({"collection": name}, {"$set": fields}, upsert=True)]:
    the first match is updated; without a match a document made of the
    filter and the fields is inserted. *)
Definition update_one_upsert (c name : string) (fields : doc) (db : database)
  : database :=
  match update_first (by_collection name) (apply_set fields) (docs c db) with
  | Some l => <[c := l]> db
  | None =>
      <[c := (docs c db
              ++ [apply_set fields [("collection", BStr name)]])%list]> db
  end.

(** A cell of the column [c] as a document value, after
    [df.replace({pd.NaT: None})] (line 45). The replacement reaches the
    missing values of the object and datetime columns, which become
    [None], a null of the store; a float64 column can hold neither [NaT]
    nor [None], pandas leaves it alone, and its missing values go to the
    store as the double NaN. *)
Definition encode (c : column) (v : cell) : bson :=
  match v with
  | None => match c with FloatCol _ => BNaN | _ => BNull end
  | Some (VStr s) => BStr s
  | Some (VNum q) => BNum q
  | Some (VDate t) =>
      BDate (Datetime (ts_year t) (ts_month t) (ts_day t)
               (ts_nanos t / 3600000000000) (ts_nanos t / 60000000000 mod 60)
               (ts_nanos t / 1000000000 mod 60) (ts_nanos t / 1000 mod 1000000)
               None)
  end.

(** [df.to_dict(orient="records")]. *)
Definition to_records (df : frame) : list doc :=
  (λ r, zip (columns df) (zip_with encode df.*2 r)) <$> rows df.

(** [df.empty]. *)
Definition empty (df : frame) : bool :=
  bool_decide (nrows df = 0%nat ∨ df = []).

Section publish.
(** [datetime.isoformat], a library function. *)
Context (isoformat : datetime → string).

(** The metadata document of a publication. *)
Definition ingest_meta (now : datetime) (collection_name : string)
    (metadata : doc) : doc :=
  [("collection", BStr collection_name);
   ("ingest_time", BStr (isoformat now));
   ("source_info",
    BDoc (doc_set "last_modified"
            (default BNull (doc_get "last_modified" metadata)) metadata))].

(** [write_df_to_mongo(df, collection_name, metadata)], [now] being what
    [datetime.now(timezone.utc)] returns, for a collection name the
    driver accepts: on another name [db[collection_name]] raises before
    anything is written, and no publication takes place ([Flows] has
    that case for the names of the flow, as [valid_name]). *)
Definition write_df_to_mongo (now : datetime) (df : frame)
    (collection_name : string) (metadata : doc) (db : database) : database :=
  let db :=
    if empty df then delete_many_all collection_name db
    else insert_many collection_name (to_records df)
           (delete_many_all collection_name db) in
  update_one_upsert "ingest_metadata" collection_name
    (ingest_meta now collection_name metadata) db.

End publish.

(** The metadata records of a table name. *)
Definition metadata_of (name : string) (db : database) : list doc :=
  List.filter (by_collection name) (docs "ingest_metadata" db).

(** *** Documents *)

Lemma doc_get_set k v d : doc_get k (doc_set k v d) = Some v.
Proof.
  induction d as [|[k' v'] d IH]; simpl.
  - by rewrite decide_True.
  - destruct (decide (k' = k)) as [->|Hne]; simpl.
    + by rewrite decide_True.
    + by rewrite decide_False.
Qed.

Lemma doc_get_set_ne k k' v d : k' ≠ k → doc_get k (doc_set k' v d) = doc_get k d.
Proof.
  intros Hne. induction d as [|[k0 v0] d IH]; simpl.
  - by rewrite decide_False.
  - destruct (decide (k0 = k')) as [->|Hne']; simpl.
    + by rewrite !decide_False.
    + destruct (decide (k0 = k)); [done|exact IH].
Qed.

(** *** Collections *)

Lemma docs_delete_many_all c db : docs c (delete_many_all c db) = [].
Proof.
  unfold docs, delete_many_all. rewrite lookup_alter_eq.
  by destruct (db !! c).
Qed.

Lemma docs_delete_many_all_ne c c' db :
  c ≠ c' → docs c' (delete_many_all c db) = docs c' db.
Proof. intros Hne. unfold docs, delete_many_all. by rewrite lookup_alter_ne. Qed.

Lemma docs_insert_many c records db :
  docs c (insert_many c records db) = (docs c db ++ records)%list.
Proof. unfold insert_many. unfold docs at 1. by rewrite lookup_insert_eq. Qed.

Lemma docs_insert_many_ne c c' records db :
  c ≠ c' → docs c' (insert_many c records db) = docs c' db.
Proof. intros Hne. unfold docs, insert_many. by rewrite lookup_insert_ne. Qed.

Lemma docs_update_one_ne c c' name fields db :
  c ≠ c' → docs c' (update_one_upsert c name fields db) = docs c' db.
Proof.
  intros Hne. unfold update_one_upsert.
  destruct (update_first _ _ _); unfold docs; by rewrite lookup_insert_ne.
Qed.

Lemma docs_update_one c name fields db :
  docs c (update_one_upsert c name fields db)
  = match update_first (by_collection name) (apply_set fields) (docs c db) with
    | Some l => l
    | None => (docs c db ++ [apply_set fields [("collection", BStr name)]])%list
    end.
Proof.
  unfold update_one_upsert.
  destruct (update_first _ _ _); unfold docs at 1; by rewrite lookup_insert_eq.
Qed.

(** *** The upsert *)

(** The records of [name] after the upsert: the first one updated, or a
    new one when there was none. *)
Lemma filter_update_first name (f : doc → doc) l :
  (∀ d, by_collection name (f d) = true) →
  List.filter (by_collection name)
    (match update_first (by_collection name) f l with
     | Some l' => l'
     | None => (l ++ [f [("collection", BStr name)]])%list
     end)
  = f (default [("collection", BStr name)]
         (head (List.filter (by_collection name) l)))
    :: tail (List.filter (by_collection name) l).
Proof.
  intros Hf. induction l as [|d l IH]; simpl.
  - by rewrite Hf.
  - destruct (by_collection name d) eqn:Hd; simpl.
    + by rewrite Hf.
    + destruct (update_first (by_collection name) f l) as [l'|]; simpl;
        by rewrite Hd.
Qed.

(** The records of another name are not touched. *)
Lemma filter_update_first_ne name name' (f : doc → doc) l :
  name ≠ name' →
  (∀ d, by_collection name' (f d) = false) →
  List.filter (by_collection name')
    (match update_first (by_collection name) f l with
     | Some l' => l'
     | None => (l ++ [f [("collection", BStr name)]])%list
     end)
  = List.filter (by_collection name') l.
Proof.
  intros Hne Hf. induction l as [|d l IH]; simpl.
  - by rewrite Hf.
  - destruct (by_collection name d) eqn:Hd; simpl.
    + rewrite Hf. unfold by_collection in Hd |- *.
      destruct (doc_get "collection" d) as [[|s| | | |]|]; try done.
      apply bool_decide_eq_true in Hd as ->.
      by rewrite bool_decide_eq_false_2.
    + destruct (update_first (by_collection name) f l) as [l'|]; simpl;
        simpl in IH; rewrite IH; done.
Qed.

Section publish_facts.
Context (isoformat : datetime → string).

Lemma ingest_meta_collection now name metadata d :
  doc_get "collection" (apply_set (ingest_meta isoformat now name metadata) d)
  = Some (BStr name).
Proof.
  unfold apply_set, ingest_meta. simpl.
  rewrite !doc_get_set_ne by done. apply doc_get_set.
Qed.

Lemma ingest_meta_ingest_time now name metadata d :
  doc_get "ingest_time" (apply_set (ingest_meta isoformat now name metadata) d)
  = Some (BStr (isoformat now)).
Proof.
  unfold apply_set, ingest_meta. simpl.
  rewrite !doc_get_set_ne by done. apply doc_get_set.
Qed.

Lemma ingest_meta_source_info now name metadata d :
  doc_get "source_info" (apply_set (ingest_meta isoformat now name metadata) d)
  = Some (BDoc (doc_set "last_modified"
                  (default BNull (doc_get "last_modified" metadata)) metadata)).
Proof. unfold apply_set, ingest_meta. simpl. by rewrite doc_get_set. Qed.

Lemma by_collection_ingest_meta now name metadata d name' :
  by_collection name' (apply_set (ingest_meta isoformat now name metadata) d)
  = bool_decide (name = name').
Proof. unfold by_collection. by rewrite ingest_meta_collection. Qed.

(** The table collection after a publication. *)
Lemma docs_write now df name metadata db :
  name ≠ "ingest_metadata" →
  docs name (write_df_to_mongo isoformat now df name metadata db)
  = if empty df then [] else to_records df.
Proof.
  intros Hne. unfold write_df_to_mongo.
  rewrite docs_update_one_ne by done.
  destruct (empty df).
  - apply docs_delete_many_all.
  - by rewrite docs_insert_many, docs_delete_many_all.
Qed.

(** The metadata collection before the upsert of a publication. *)
Lemma docs_metadata_before_upsert df name db :
  name ≠ "ingest_metadata" →
  docs "ingest_metadata"
    (if empty df then delete_many_all name db
     else insert_many name (to_records df) (delete_many_all name db))
  = docs "ingest_metadata" db.
Proof.
  intros Hne. destruct (empty df).
  - by apply docs_delete_many_all_ne.
  - rewrite docs_insert_many_ne by done. by apply docs_delete_many_all_ne.
Qed.

(** The metadata records of the table after a publication. *)
Lemma metadata_of_write now df name metadata db :
  name ≠ "ingest_metadata" →
  metadata_of name (write_df_to_mongo isoformat now df name metadata db)
  = apply_set (ingest_meta isoformat now name metadata)
      (default [("collection", BStr name)] (head (metadata_of name db)))
    :: tail (metadata_of name db).
Proof.
  intros Hne. unfold metadata_of, write_df_to_mongo.
  rewrite docs_update_one, docs_metadata_before_upsert by done.
  apply filter_update_first. intros d.
  rewrite by_collection_ingest_meta. by apply bool_decide_eq_true_2.
Qed.

(** The metadata records of the other tables after a publication. *)
Lemma metadata_of_write_ne now df name name' metadata db :
  name ≠ "ingest_metadata" → name ≠ name' →
  metadata_of name' (write_df_to_mongo isoformat now df name metadata db)
  = metadata_of name' db.
Proof.
  intros Hne Hne'. unfold metadata_of, write_df_to_mongo.
  rewrite docs_update_one, docs_metadata_before_upsert by done.
  apply filter_update_first_ne; [done|]. intros d.
  rewrite by_collection_ingest_meta. by apply bool_decide_eq_false_2.
Qed.

End publish_facts.

(** At most one metadata record per table name. *)
Definition meta_unique (db : database) : Prop :=
  ∀ name, (length (metadata_of name db) ≤ 1)%nat.

Lemma meta_unique_empty : meta_unique ∅.
Proof. intros name. unfold metadata_of, docs. rewrite lookup_empty. simpl. lia. Qed.

Lemma meta_unique_write isoformat now df name metadata db :
  name ≠ "ingest_metadata" → meta_unique db →
  meta_unique (write_df_to_mongo isoformat now df name metadata db).
Proof.
  intros Hne Hu name'. destruct (decide (name = name')) as [<-|Hne'].
  - rewrite metadata_of_write by done. specialize (Hu name).
    destruct (metadata_of name db) as [|d [|d' l]]; simpl in *; lia.
  - rewrite metadata_of_write_ne by done. apply Hu.
Qed.

Lemma to_records_length df :
  uniform (nrows df) df → length (to_records df) = nrows df.
Proof.
  intros Hu. unfold to_records. rewrite length_fmap. by eapply rows_length.
Qed.

End Mongo.

(** ** Freshness resolver: [get_metadata] of [app/api.py] *)
Module Api.
Import PyTime Mongo.

(** The fields of [RefreshInfo] (lines 28-33). A delta is [None] in an
    instance made without it; the handler always passes both, see
    [new_refresh_info]. *)
Record refresh_info := RefreshInfo {
  collection : string;
  source_last_modified : bson;
  ingest_time : bson;
  delta_source_to_ingest_seconds : option Qc;
  delta_ingest_to_now_seconds : option Qc }.

(** What the handler does: it returns, raises the [HTTPException] of a
    status, or fails on another exception (a 500 for the client). *)
Inductive response :=
| Ok (info : refresh_info)
| HTTPException (status_code : Z) (detail : string)
| Raised.

(** A value of the handler after [_to_dt]. *)
Inductive pyval :=
| PNone
| PDatetime (d : datetime)
| POther (v : bson).

(** Truth value of [if v]. *)
Definition truthy (v : pyval) : bool :=
  match v with
  | PNone => false
  | PDatetime _ => true
  | POther (BNum q) => negb (bool_decide (q = 0%Qc))
  | POther (BDoc d) => negb (bool_decide (d = []))
  | POther _ => true
  end.

Section resolver.
(** [datetime.fromisoformat], a library function; [None] when it raises. *)
Context (fromisoformat : string → option datetime).

(** Lines 107-115. *)
Definition _to_dt (v : bson) : pyval :=
  match v with
  | BNull => PNone
  | BStr s => match fromisoformat s with
              | Some d => PDatetime d
              | None => PNone
              end
  | BDate d => PDatetime d
  | _ => POther v
  end.

(** Lines 124-133 on one value: a naive datetime is made UTC; [None] when
    reading [.tzinfo] raises. *)
Definition normalize (v : pyval) : option pyval :=
  match v with
  | PDatetime d =>
      Some (PDatetime (if dt_offset d is None then replace_utc d else d))
  | POther _ => if truthy v then None else Some v
  | PNone => Some PNone
  end.

(** Lines 135-138: [(b - a).total_seconds()] when both are set. *)
Definition delta (a b : pyval) : option (option Qc) :=
  if truthy a && truthy b then
    match a, b with
    | PDatetime da, PDatetime db => Some <$> (total_seconds <$> sub db da)
    | _, _ => None
    end
  else Some None.

(** Line 103: [meta.get("source_info", {}).get("last_modified")]; [None]
    when [source_info] is not a document and [.get] raises. *)
Definition source_field (meta : doc) : option bson :=
  match doc_get "source_info" meta with
  | None => Some BNull
  | Some (BDoc d) => Some (default BNull (doc_get "last_modified" d))
  | Some _ => None
  end.

(** Line 104: [meta.get("ingest_time")]. *)
Definition ingest_field (meta : doc) : bson :=
  default BNull (doc_get "ingest_time" meta).

(** Lines 140-146, [RefreshInfo(...)] under pydantic 2. The two delta
    fields are declared [float = None] (lines 32-33): the default is not
    validated, an argument is, and [None] is no [float]. [None] here is
    the [ValidationError] of a call that passes [None] for one of them. *)
Definition new_refresh_info (collection : string)
    (source_last_modified ingest_time : bson)
    (delta_source_to_ingest_seconds delta_ingest_to_now_seconds : option Qc)
  : option refresh_info :=
  match delta_source_to_ingest_seconds, delta_ingest_to_now_seconds with
  | Some _, Some _ =>
      Some (RefreshInfo collection source_last_modified ingest_time
              delta_source_to_ingest_seconds delta_ingest_to_now_seconds)
  | _, _ => None
  end.

Definition get_metadata (now : datetime) (collection : string)
    (db : database) : response :=
  match find_one "ingest_metadata" (by_collection collection) db with
  | None | Some [] => HTTPException 404 "Metadata not found"
  | Some meta =>
      match source_field meta with
      | None => Raised
      | Some source_lm =>
          let ingest_time := ingest_field meta in
          match normalize (_to_dt source_lm), normalize (_to_dt ingest_time) with
          | Some src_dt, Some ing_dt =>
              match delta src_dt ing_dt, delta ing_dt (PDatetime now) with
              | Some d1, Some d2 =>
                  match new_refresh_info collection source_lm ingest_time
                          d1 d2 with
                  | Some info => Ok info
                  | None => Raised
                  end
              | _, _ => Raised
              end
          | _, _ => Raised
          end
      end
  end.

(** The timestamp a metadata field holds, when it holds one: an ISO
    string that parses, or a date of the store. *)
Definition stamp (v : bson) : option datetime :=
  match v with
  | BStr s => fromisoformat s
  | BDate d => Some d
  | _ => None
  end.

(** A field that is absent, a string or a date: what the publication
    stage writes. *)
Definition stamp_field (v : bson) : Prop :=
  v = BNull ∨ (∃ s, v = BStr s) ∨ (∃ d, v = BDate d).

(** The seconds from [a] to [b], when both are there. *)
Definition seconds_between (a b : option datetime) : option Qc :=
  match a, b with
  | Some a, Some b => Some (total_seconds (instant b - instant a))
  | _, _ => None
  end.

(** *** Facts *)

Lemma find_head_filter {A} (p : A → bool) l :
  List.find p l = head (List.filter p l).
Proof. induction l as [|x l IH]; simpl; [done|]. by destruct (p x). Qed.

Lemma find_one_metadata name db :
  find_one "ingest_metadata" (by_collection name) db
  = head (metadata_of name db).
Proof. apply find_head_filter. Qed.

Lemma metadata_of_by_collection name db d :
  d ∈ metadata_of name db → by_collection name d = true.
Proof.
  unfold metadata_of. rewrite list_elem_of_In, filter_In. by intros [_ ?].
Qed.

Lemma by_collection_nonempty name d : by_collection name d = true → d ≠ [].
Proof. by intros Hd ->. Qed.

Lemma wall_micros_replace_utc d : wall_micros (replace_utc d) = wall_micros d.
Proof. done. Qed.

(** Treating a naive datetime as UTC, the difference of two datetimes is
    the difference of their instants. *)
Lemma delta_datetimes a b :
  match normalize (PDatetime a), normalize (PDatetime b) with
  | Some a', Some b' => delta a' b'
  | _, _ => None
  end = Some (Some (total_seconds (instant b - instant a))).
Proof.
  unfold normalize, delta, sub, instant.
  destruct a as [? ? ? ? ? ? ? [oa|]], b as [? ? ? ? ? ? ? [ob|]]; simpl;
    repeat f_equal; unfold wall_micros, toordinal; simpl; lia.
Qed.

Lemma normalize_to_dt v :
  stamp_field v →
  normalize (_to_dt v)
  = Some (match stamp v with
          | Some d => PDatetime (if dt_offset d is None then replace_utc d else d)
          | None => PNone
          end).
Proof.
  intros [->|[[s ->]|[d ->]]]; simpl; [done| |done].
  by destruct (fromisoformat s).
Qed.

Lemma delta_normalized (a b : option datetime) :
  delta
    (match a with
     | Some d => PDatetime (if dt_offset d is None then replace_utc d else d)
     | None => PNone
     end)
    (match b with
     | Some d => PDatetime (if dt_offset d is None then replace_utc d else d)
     | None => PNone
     end)
  = Some (seconds_between a b).
Proof.
  destruct a as [a|], b as [b|]; simpl; try done.
  exact (delta_datetimes a b).
Qed.

(** The handler on a record whose two timestamp fields are absent,
    strings or dates, [now] being an aware datetime: the two deltas it
    computes, handed to [RefreshInfo]. *)
Lemma get_metadata_stamps now name db meta source_lm :
  is_Some (dt_offset now) →
  find_one "ingest_metadata" (by_collection name) db = Some meta →
  source_field meta = Some source_lm →
  stamp_field source_lm → stamp_field (ingest_field meta) →
  get_metadata now name db
  = match new_refresh_info name source_lm (ingest_field meta)
            (seconds_between (stamp source_lm) (stamp (ingest_field meta)))
            (seconds_between (stamp (ingest_field meta)) (Some now)) with
    | Some info => Ok info
    | None => Raised
    end.
Proof.
  intros [off Hnow] Hfind Hsrc Hs Hi. unfold get_metadata. rewrite Hfind.
  assert (Hmeta : meta ≠ []).
  { apply (by_collection_nonempty name).
    apply (metadata_of_by_collection name db).
    rewrite find_one_metadata in Hfind.
    destruct (metadata_of name db) as [|d l]; [done|].
    injection Hfind as ->. apply list_elem_of_here. }
  destruct meta as [|kv meta]; [done|].
  rewrite Hsrc. cbv zeta.
  rewrite (normalize_to_dt _ Hs), (normalize_to_dt _ Hi).
  rewrite (delta_normalized (stamp source_lm) (stamp (ingest_field (kv :: meta)))).
  pose proof (delta_normalized (stamp (ingest_field (kv :: meta))) (Some now))
    as Hclock.
  cbv beta iota in Hclock. rewrite Hnow in Hclock.
  cbv beta iota in Hclock |- *. by rewrite Hclock.
Qed.

End resolver.
End Api.

(** ** An instance of the parsers, for running the model

    Decimal literals and ISO calendar dates ("YYYY-MM-DD"), parsed value
    by value; pandas accepts more, and agrees on these. Numeric columns
    are not given to [to_datetime] in the examples. *)
Module Instance.
Import Frame.

Definition digit_of (c : ascii) : option Z :=
  let n := nat_of_ascii c in
  if (48 <=? n)%nat && (n <=? 57)%nat then Some (Z.of_nat n - 48)%Z else None.

Fixpoint number_of (s : string) (acc : Z) : option Z :=
  match s with
  | EmptyString => Some acc
  | String c s' => d ← digit_of c; number_of s' (10 * acc + d)%Z
  end.

Fixpoint split_dot (s : string) : string * option string :=
  match s with
  | EmptyString => (EmptyString, None)
  | String c s' =>
      if Ascii.eqb c "." then (EmptyString, Some s')
      else let p := split_dot s' in (String c p.1, p.2)
  end.

Definition parse_unsigned (s : string) : option Q :=
  let p := split_dot s in
  if String.eqb p.1 "" && String.eqb (default "" p.2) "" then None
  else
    n ← number_of p.1 0;
    m ← number_of (default "" p.2) 0;
    Some (Qplus (inject_Z n)
            (Qmake m (Pos.pow 10 (Pos.of_nat (String.length (default "" p.2)))))).

Definition parse_decimal (s : string) : option Qc :=
  Q2Qc <$>
    match s with
    | String "-" s' => Qopp <$> parse_unsigned s'
    | String "+" s' => parse_unsigned s'
    | _ => parse_unsigned s
    end.

Definition parse_iso_date (s : string) : option timestamp :=
  match s with
  | String y1 (String y2 (String y3 (String y4 (String "-"
      (String m1 (String m2 (String "-" (String d1 (String d2 ""))))))))) =>
      y ← number_of (String y1 (String y2 (String y3 (String y4 "")))) 0;
      m ← number_of (String m1 (String m2 "")) 0;
      d ← number_of (String d1 (String d2 "")) 0;
      if ((1 <=? m) && (m <=? 12) && (1 <=? d) && (d <=? PyTime.days_in_month y m))%Z
      then Some (Timestamp y m d 0) else None
  | _ => None
  end.

Definition to_datetime_iso (c : column) : list (option timestamp) :=
  match c with
  | ObjectCol vs => (λ v, v ≫= parse_iso_date) <$> vs
  | FloatCol vs => (λ _, None) <$> vs
  | DatetimeCol vs => vs
  end.

Lemma to_datetime_iso_length c : length (to_datetime_iso c) = col_len c.
Proof. destruct c; unfold col_len; simpl; by rewrite !length_fmap. Qed.

#[export] Instance pandas_iso : Pandas := {|
  to_datetime := to_datetime_iso;
  parse_number := parse_decimal;
  to_datetime_length := to_datetime_iso_length;
  to_datetime_datetime := λ vs, eq_refl;
|}.

(** ISO 8601 datetimes "YYYY-MM-DDTHH:MM:SS", with an optional fraction
    of six digits and an optional offset "Z" or "+HH:MM": on these
    [isoformat_iso] is [datetime.isoformat] and [fromisoformat_iso] is
    [datetime.fromisoformat] of Python 3.11 and later (earlier versions
    reject the "Z"). *)
Definition two (a b : ascii) : option Z :=
  number_of (String a (String b EmptyString)) 0.

Definition parse_offset (s : string) : option (option Z) :=
  match s with
  | EmptyString => Some None
  | String "Z" EmptyString => Some (Some 0%Z)
  | String sg (String h1 (String h2 (String ":" (String m1 (String m2 ""))))) =>
      h ← two h1 h2;
      m ← two m1 m2;
      if Ascii.eqb sg "+" then Some (Some ((h * 3600 + m * 60) * 1000000)%Z)
      else if Ascii.eqb sg "-"
           then Some (Some (- ((h * 3600 + m * 60) * 1000000))%Z)
           else None
  | _ => None
  end.

Definition parse_fraction (s : string) : option (Z * string) :=
  match s with
  | String "." (String f1 (String f2 (String f3 (String f4 (String f5
      (String f6 rest)))))) =>
      u ← number_of (String f1 (String f2 (String f3 (String f4 (String f5
             (String f6 "")))))) 0;
      Some (u, rest)
  | _ => Some (0%Z, s)
  end.

Definition fromisoformat_iso (s : string) : option PyTime.datetime :=
  match s with
  | String y1 (String y2 (String y3 (String y4 (String "-"
      (String m1 (String m2 (String "-" (String d1 (String d2 (String "T"
        (String h1 (String h2 (String ":" (String i1 (String i2 (String ":"
          (String s1 (String s2 rest)))))))))))))))))) =>
      y ← number_of (String y1 (String y2 (String y3 (String y4 "")))) 0;
      m ← two m1 m2;
      d ← two d1 d2;
      h ← two h1 h2;
      i ← two i1 i2;
      sec ← two s1 s2;
      '(u, rest) ← parse_fraction rest;
      off ← parse_offset rest;
      if ((1 <=? m) && (m <=? 12) && (1 <=? d)
          && (d <=? PyTime.days_in_month y m)
          && (h <? 24) && (i <? 60) && (sec <? 60))%Z
      then Some (PyTime.Datetime y m d h i sec u off) else None
  | _ => None
  end.

Definition pad6 (n : Z) : string :=
  String (Gold.digit (n / 100000)) (String (Gold.digit (n / 10000))
    (Gold.pad4 n)).

Definition format_offset (off : option Z) : string :=
  match off with
  | None => ""
  | Some o =>
      let secs := (Z.abs o / 1000000)%Z in
      (if (o <? 0)%Z then "-" else "+")
      ++ Gold.pad2 (secs / 3600) ++ ":" ++ Gold.pad2 (secs / 60 mod 60)
  end.

Definition isoformat_iso (d : PyTime.datetime) : string :=
  Gold.pad4 (PyTime.dt_year d) ++ "-" ++ Gold.pad2 (PyTime.dt_month d)
  ++ "-" ++ Gold.pad2 (PyTime.dt_day d) ++ "T" ++ Gold.pad2 (PyTime.dt_hour d)
  ++ ":" ++ Gold.pad2 (PyTime.dt_minute d)
  ++ ":" ++ Gold.pad2 (PyTime.dt_second d)
  ++ (if (PyTime.dt_micro d =? 0)%Z then ""
      else "." ++ pad6 (PyTime.dt_micro d))
  ++ format_offset (PyTime.dt_offset d).

(** The scenario of the specification, as [pd.read_csv] hands it over. *)
Definition q (n : Z) (d : positive) : Qc := Q2Qc (n # d).

Definition raw_clients : frame :=
  [("id_client", FloatCol [Some (q 1 1)]);
   ("nom", ObjectCol [Some " Alice "]);
   ("email", ObjectCol [Some "A@x.com"]);
   ("pays", ObjectCol [Some " France "])].

Definition raw_achats : frame :=
  [("id_achat", FloatCol [Some (q 1 1)]);
   ("id_client", FloatCol [Some (q 1 1)]);
   ("date_achat", ObjectCol [Some "2024-03-05"]);
   ("montant", FloatCol [Some (q 4999 100)]);
   ("produit", ObjectCol [Some "Mouse"])].

End Instance.

(** ** Tables for the examples *)
Module Examples.
Import Frame Instance.

Definition ts (y m d : Z) : option timestamp := Some (Timestamp y m d 0).

(** A purchase extract with a duplicate (up to the spaces of the
    product), two rows without an identifier, a date that does not
    parse and an amount that is not a number. *)
Definition messy_achats : frame :=
  [("id_achat", FloatCol [Some (q 1 1); Some (q 1 1); Some (q 2 1); None; Some (q 4 1)]);
   ("id_client", FloatCol [Some (q 1 1); Some (q 1 1); None; Some (q 3 1); Some (q 2 1)]);
   ("date_achat", ObjectCol [Some "2024-03-05"; Some "2024-03-05";
                             Some "2024-03-06"; Some "soon"; Some "2024-04-01"]);
   ("montant", ObjectCol [Some "49.99"; Some "49.99"; Some "10"; Some "5"; Some "N/A"]);
   ("produit", ObjectCol [Some " Mouse"; Some "Mouse"; None; Some "Pen"; Some "Desk "])].


(** Cleaned tables: one client, and purchases of January (100) and
    February (150); the second purchase is of a client the client table
    does not have. *)
Definition one_client : frame :=
  [("id_client", FloatCol [Some (q 1 1)]);
   ("pays", ObjectCol [Some "France"])].

Definition two_months : frame :=
  [("id_achat", FloatCol [Some (q 1 1); Some (q 2 1)]);
   ("id_client", FloatCol [Some (q 1 1); Some (q 7 1)]);
   ("date_achat", DatetimeCol [ts 2024 1 10; ts 2024 2 10]);
   ("montant", FloatCol [Some (q 100 1); Some (q 150 1)])].

(** The same purchases, the second amount missing. *)
Definition two_months_one_amount : frame :=
  [("id_achat", FloatCol [Some (q 1 1); Some (q 2 1)]);
   ("id_client", FloatCol [Some (q 1 1); Some (q 1 1)]);
   ("date_achat", DatetimeCol [ts 2024 1 10; ts 2024 2 10]);
   ("montant", FloatCol [Some (q 100 1); None])].

End Examples.

(** * The properties of the specification *)

(** ** Cleaning stage *)
Section cleaning_properties.
Import PyStr Frame Silver.
Context `{Pandas}.

(** C6. Required-identifier invariant: in the cleaning of a purchase
    extract (a table with the columns id_achat and id_client), the
    labels are the stripped labels of the extract, every row has its
    purchase id and its client id present, and a row of the coerced
    table that lacks one of them is not in the cleaned table. *)
Theorem cleaned_purchase_ids (df : frame) :
  frame_ok df →
  let labels := strip <$> columns df in
  "id_achat" ∈ labels → "id_client" ∈ labels →
  columns (transform_dataframe df) = labels
  ∧ (∀ r, r ∈ rows (transform_dataframe df) →
       notna (row_cell labels "id_achat" r) = true
       ∧ notna (row_cell labels "id_client" r) = true)
  ∧ (∀ r, r ∈ rows (coerce (dropna_all df)) →
       notna (row_cell labels "id_achat" r) = false
       ∨ notna (row_cell labels "id_client" r) = false →
       r ∉ rows (transform_dataframe df)).
Proof.
  intros [_ Hu] labels Ha Hc. split; [apply columns_transform|].
  split.
  - intros r (_ & Hrc & Hra)%elem_of_rows_transform; [|done]. auto.
  - intros r _ Hmiss (_ & Hrc & Hra)%elem_of_rows_transform; [|done].
    specialize (Hrc Hc). specialize (Hra Ha). fold labels in Hrc, Hra.
    destruct Hmiss; congruence.
Qed.

(** C7. Dedup invariant: no two rows of a cleaned table are field-wise
    identical. *)
Theorem cleaned_rows_distinct (df : frame) :
  frame_ok df → NoDup (rows (transform_dataframe df)).
Proof. intros [_ Hu]. by apply transform_NoDup. Qed.

(** C8 (amended). Idempotence: on an extract that carries an identifier
    column (id_client or id_achat, as the client and the purchase
    extracts both do), cleaning the cleaned table gives the cleaned table
    back. *)
Theorem cleaning_idempotent (df : frame) :
  frame_ok df →
  "id_client" ∈ strip <$> columns df ∨ "id_achat" ∈ strip <$> columns df →
  transform_dataframe (transform_dataframe df) = transform_dataframe df.
Proof.
  intros [_ Hu] Hid.
  destruct (uniform_stages df Hu) as (_ & _ & _ & Hu').
  assert (∃ name c, (name = "id_client" ∨ name = "id_achat")
            ∧ col_lookup name (transform_dataframe df) = Some c)
    as (name & c & Hname & Hc).
  { rewrite <- columns_transform in Hid.
    destruct Hid as [[c Hc]%col_lookup_is_Some|[c Hc]%col_lookup_is_Some];
      eauto 6. }
  apply (transform_fix _ name c); try done.
  - apply transform_coerced.
  - by apply transform_NoDup.
  - intros n c' Hn. by apply transform_ids_present.
Qed.


End cleaning_properties.

Section cleaning_examples.
Import PyStr Frame Silver Instance Examples.

Lemma messy_achats_ok : frame_ok messy_achats.
Proof. by_compute. Defined.

Lemma cleaned_purchase_ids_witness :
  frame_ok messy_achats
  ∧ "id_achat" ∈ strip <$> columns messy_achats
  ∧ "id_client" ∈ strip <$> columns messy_achats
  ∧ columns (transform_dataframe messy_achats)
    = strip <$> columns messy_achats.
Proof.
  assert (Ha : "id_achat" ∈ strip <$> columns messy_achats) by by_compute.
  assert (Hc : "id_client" ∈ strip <$> columns messy_achats) by by_compute.
  split; [exact messy_achats_ok|]. split; [exact Ha|]. split; [exact Hc|].
  exact (proj1 (cleaned_purchase_ids messy_achats messy_achats_ok Ha Hc)).
Defined.

Lemma cleaned_rows_distinct_witness :
  frame_ok messy_achats ∧ NoDup (rows (transform_dataframe messy_achats)).
Proof.
  split; [exact messy_achats_ok|].
  exact (cleaned_rows_distinct messy_achats messy_achats_ok).
Defined.

Lemma cleaning_idempotent_witness :
  frame_ok messy_achats
  ∧ ("id_client" ∈ strip <$> columns messy_achats
     ∨ "id_achat" ∈ strip <$> columns messy_achats)
  ∧ transform_dataframe (transform_dataframe messy_achats)
    = transform_dataframe messy_achats.
Proof.
  assert (Hc : "id_client" ∈ strip <$> columns messy_achats) by by_compute.
  split; [exact messy_achats_ok|]. split; [by left|].
  exact (cleaning_idempotent messy_achats messy_achats_ok (or_introl Hc)).
Defined.

(** A table without an identifier column: the only value of its date
    column does not parse, so the first cleaning leaves a row that is
    entirely missing, and the second cleaning drops that row. *)
Definition only_a_date : frame := [("date", ObjectCol [Some "soon"])].

Lemma cleaning_not_idempotent :
  frame_ok only_a_date
  ∧ transform_dataframe only_a_date = [("date", DatetimeCol [None])]
  ∧ transform_dataframe (transform_dataframe only_a_date)
    = [("date", DatetimeCol [])]
  ∧ transform_dataframe (transform_dataframe only_a_date)
    ≠ transform_dataframe only_a_date.
Proof. repeat split; by_compute. Qed.

(** Two clients of France, one without a name and one named "nan": the
    cleaning makes them one row. *)
Definition unnamed_clients : frame :=
  [("nom", ObjectCol [None; Some "nan"]);
   ("pays", ObjectCol [Some "France"; Some "France"])].

Lemma missing_and_nan_collapse :
  transform_dataframe unnamed_clients
  = [("nom", ObjectCol [Some "nan"]); ("pays", ObjectCol [Some "France"])].
Proof. by_compute. Qed.



End cleaning_examples.

(** ** Aggregation stage *)
Section aggregation_properties.
Import PyStr Frame Gold.
Context `{Pandas}.

(** C1 (amended). On a purchase table and a client table of the shape the
    aggregation reads, the aggregation returns; and whenever it returns, the
    rows of monthly_revenue are sorted by month ascending (the month labels
    are distinct and strictly increasing as strings, and on four-digit years
    the order of the labels is the order of the months); the pct_change of
    the first row is 0, not absent; and the pct_change of every later row is
    [fillna(0)] of [cur / prev - 1] against the row just before it, which
    for a non-zero previous revenue is the fraction (cur - prev) / prev:
    the code does not multiply by 100. *)
Theorem monthly_revenue_growth
    (clients achats : frame) (ids : column) (dates : list (option timestamp))
    (amounts : list (option Qc)) (cids pays : column) :
  gold_inputs clients achats ids dates amounts cids pays →
  ∃ k, compute_kpis clients achats = Some k
    ∧ (∃ months, (monthly_revenue k).*1.*1 = Some <$> months
                 ∧ StronglySorted string_lt months)
    ∧ (∀ t u, four_digit t → four_digit u →
         string_lt (month_label (Some t)) (month_label (Some u))
         ↔ month_lt t u)
    ∧ (∀ m r p, monthly_revenue k !! 0%nat = Some (m, r, p) → p = Fin 0)
    ∧ (∀ i m r p m' r' p',
         monthly_revenue k !! i = Some (m, r, p) →
         monthly_revenue k !! S i = Some (m', r', p') →
         p' = fillna0 (pct r r')
         ∧ (r ≠ 0%Qc → p' = Fin ((r' - r) / r)%Qc)).
Proof.
  intros Hin. pose proof (compute_kpis_tables _ _ _ _ _ _ _ Hin) as Hk.
  cbv zeta in Hk. eexists. split; [exact Hk|].
  pose proof Hk as (pays' & months & amounts' & _ & Hrev)%compute_kpis_inv.
  destruct (revenue_rows months amounts') as (Hsorted & Hfirst & Hnext).
  cbv zeta in *. rewrite <- Hrev in *.
  split; [exact Hsorted|]. split; [apply month_label_lt|].
  split; [exact Hfirst|].
  intros i m r p m' r' p' Hi HSi.
  pose proof (Hnext i m r p m' r' p' Hi HSi) as ->.
  split; [done|]. apply pct_nonzero.
Qed.

(** C2 (amended). On a purchase table and a client table of the shape the
    aggregation reads, the aggregation returns, and ca_by_country has no
    absent-country bucket: its buckets are the countries present on some
    row of the left join, and the sum of a bucket is the sum, over the
    purchases, of the amount once per matching client of that country. A
    purchase whose client id is not in the client table is kept by the left
    join, on one row with an absent country: it has no share in any bucket
    of ca_by_country, and its amount counts once in the revenue of its
    month. *)
Theorem ca_by_country_matched_only
    (clients achats : frame) (ids : column) (dates : list (option timestamp))
    (amounts : list (option Qc)) (cids pays : column) :
  gold_inputs clients achats ids dates amounts cids pays →
  ∃ k, compute_kpis clients achats = Some k
    ∧ (∀ s, (None, s) ∉ ca_by_country k)
    ∧ (∀ c s, (c, s) ∈ ca_by_country k ↔
         ∃ v, c = Some v
           ∧ Some v ∈ expand_right (cells ids) (cells cids) (cells pays)
           ∧ s = qsum ((λ ka, country_share (cells cids) (cells pays) v ka.1 ka.2)
                         <$> zip (cells ids) amounts))
    ∧ (∀ m r p, (m, r, p) ∈ monthly_revenue k →
         ∃ l, m = Some l
           ∧ r = qsum ((λ kta, month_share (cells cids) l kta.1 kta.2.1 kta.2.2)
                         <$> zip (cells ids) (zip dates amounts)))
    ∧ (∀ key, key ∉ cells cids →
         joined_right key (cells cids) (cells pays) = [None]
         ∧ (∀ v a, country_share (cells cids) (cells pays) v key a = 0%Qc)
         ∧ (∀ t a, month_share (cells cids) (month_label t) key t a
                   = default 0%Qc a)).
Proof.
  intros Hin.
  destruct (compute_kpis_sums _ _ _ _ _ _ _ Hin) as (k & Hk & _ & _ & Hca & Hrev).
  exists k. split; [done|]. split; [|split; [done|split; [done|]]].
  - intros s (v & [=] & _)%Hca.
  - intros key Hkey. split; [|split].
    + by apply joined_right_unmatched, matches_unmatched.
    + intros v a. by apply country_share_unmatched.
    + intros t a. by apply month_share_unmatched.
Qed.

End aggregation_properties.

Section aggregation_examples.
Import PyStr Frame Gold Instance Examples.

Lemma two_months_inputs :
  gold_inputs one_client two_months
    (FloatCol [Some (q 1 1); Some (q 7 1)])
    [ts 2024 1 10; ts 2024 2 10]
    [Some (q 100 1); Some (q 150 1)]
    (FloatCol [Some (q 1 1)]) (ObjectCol [Some "France"]).
Proof.
  split; try done; try by_compute.
  exists (DatetimeCol [ts 2024 1 10; ts 2024 2 10]). by repeat split.
Defined.

Lemma monthly_revenue_growth_witness :
  gold_inputs one_client two_months
    (FloatCol [Some (q 1 1); Some (q 7 1)])
    [ts 2024 1 10; ts 2024 2 10]
    [Some (q 100 1); Some (q 150 1)]
    (FloatCol [Some (q 1 1)]) (ObjectCol [Some "France"])
  ∧ (∃ k, compute_kpis one_client two_months = Some k
          ∧ (∀ m r p, monthly_revenue k !! 0%nat = Some (m, r, p)
                      → p = Fin 0)).
Proof.
  split; [exact two_months_inputs|].
  destruct (monthly_revenue_growth _ _ _ _ _ _ _ two_months_inputs)
    as (k & Hk & _ & _ & Hfirst & _).
  exists k. split; [exact Hk|exact Hfirst].
Defined.

(** Revenues of 100 then 150: the code gives the growth 1/2, the claim's
    formula gives 50. *)
Lemma growth_is_a_fraction :
  monthly_revenue <$> compute_kpis one_client two_months
  = Some [(Some "2024-01", q 100 1, Fin (q 0 1));
          (Some "2024-02", q 150 1, Fin (q 1 2))]
  ∧ Fin (q 1 2) ≠ Fin ((q 150 1 - q 100 1) / q 100 1 * q 100 1)%Qc
  ∧ Fin ((q 150 1 - q 100 1) / q 100 1 * q 100 1)%Qc = Fin (q 50 1).
Proof. repeat split; by_compute. Qed.

Lemma ca_by_country_matched_only_witness :
  gold_inputs one_client two_months
    (FloatCol [Some (q 1 1); Some (q 7 1)])
    [ts 2024 1 10; ts 2024 2 10]
    [Some (q 100 1); Some (q 150 1)]
    (FloatCol [Some (q 1 1)]) (ObjectCol [Some "France"])
  ∧ (∃ k, compute_kpis one_client two_months = Some k
          ∧ (∀ s, (None, s) ∉ ca_by_country k)).
Proof.
  split; [exact two_months_inputs|].
  destruct (ca_by_country_matched_only _ _ _ _ _ _ _ two_months_inputs)
    as (k & Hk & Hnone & _).
  exists k. by split.
Defined.

(** The second purchase (amount 150) is of client 7, whom the client table
    does not have: ca_by_country has the one bucket France with 100, and no
    bucket for an absent country. *)
Lemma unmatched_purchase_dropped :
  (Some (VNum (q 7 1)) ∉ cells (FloatCol [Some (q 1 1)]))
  ∧ (ca_by_country <$> compute_kpis one_client two_months
     = Some [(Some (VStr "France"), q 100 1)])
  ∧ ¬ (∃ s, (None, s) ∈ [(Some (VStr "France"), q 100 1)]).
Proof.
  repeat split; try by_compute.
  intros [s Hs]. apply list_elem_of_singleton in Hs. done.
Qed.

End aggregation_examples.

(** ** Cleaning, then aggregation *)
Section pipeline_properties.
Import PyStr Frame Silver Gold.
Context `{Pandas}.

(** C9 (amended). A purchase row whose amount is not a number (a text
    that does not parse, or a missing value), with a date and both its
    identifiers, the client id and the purchase id: the
    cleaning keeps the row ([r], at some position [j] of the cleaned table)
    with the amount absent; and in the aggregation of the cleaned table the
    volumes of its day and of its month count it (one more than the other
    rows of that day, of that month), while every sum of ca_by_country and
    of monthly_revenue is the sum over the other rows. *)
Theorem non_numeric_amount
    (df clients : frame) (i : nat) (r : list cell) (t : timestamp)
    (ids : column) (dates : list (option timestamp))
    (amounts : list (option Qc)) (cids pays : column) :
  frame_ok df →
  let labels := strip <$> columns df in
  let cleaned := transform_dataframe df in
  amount_not_a_number (dropna_all df) i →
  rows (coerce (dropna_all df)) !! i = Some r →
  notna (row_cell labels "id_client" r) = true →
  notna (row_cell labels "id_achat" r) = true →
  row_cell labels "date_achat" r = Some (VDate t) →
  gold_inputs clients cleaned ids dates amounts cids pays →
  let lk := cells ids in
  let rk := cells cids in
  let days := fmap (M:=option) dt_date <$> dates in
  let months := Some ∘ month_label <$> dates in
  ∃ j k,
    rows cleaned !! j = Some r
    ∧ row_cell labels "montant" r = None
    ∧ amounts !! j = Some None
    ∧ compute_kpis clients cleaned = Some k
    ∧ (Some (dt_date t),
       S (length (List.filter (λ x, bool_decide (x = Some (dt_date t)))
                    (delete j days)))) ∈ volumes_day k
    ∧ (Some (month_label (Some t)),
       S (length (List.filter
                    (λ x, bool_decide (x = Some (month_label (Some t))))
                    (delete j months)))) ∈ volumes_month k
    ∧ (∀ c q, (c, q) ∈ ca_by_country k →
         ∃ v, c = Some v
           ∧ q = qsum ((λ ka, country_share rk (cells pays) v ka.1 ka.2)
                         <$> zip (delete j lk) (delete j amounts)))
    ∧ (∀ m q p, (m, q, p) ∈ monthly_revenue k →
         ∃ l, m = Some l
           ∧ q = qsum ((λ kta, month_share rk l kta.1 kta.2.1 kta.2.2)
                         <$> zip (delete j lk)
                               (zip (delete j dates) (delete j amounts)))).
Proof.
  intros Hok labels cleaned Hnan Hr Hidc Hida Hdate Hin lk rk days months.
  pose proof Hok as [_ Hu].
  destruct (uniform_stages df Hu) as (_ & _ & _ & Hclean).
  fold cleaned in Hclean.
  assert (Hlabels : columns cleaned = labels) by apply columns_transform.
  (* the row is kept *)
  assert (Hkept : r ∈ rows cleaned).
  { apply elem_of_rows_transform; [done|]. fold labels.
    split; [by eapply list_elem_of_lookup_2|]. auto. }
  apply list_elem_of_lookup in Hkept as [j Hj].
  pose proof (coerced_amount_missing df i r Hok Hnan Hr) as Hamount.
  fold labels in Hamount.
  (* its cells in the columns the aggregation reads *)
  destruct (compute_kpis_sums _ _ _ _ _ _ _ Hin)
    as (k & Hk & Hday & Hmonth & Hca & Hrev).
  destruct Hin as [(dc & Hdc & Hdates & Hlen) Hids Hamt Halen _ _ _ _ _ _].
  assert (Ha : amounts !! j = Some None).
  { pose proof (rows_column_lookup _ _ _ j r Hclean Hamt Hj) as Hcell.
    rewrite Hlabels, Hamount in Hcell. simpl in Hcell.
    rewrite list_lookup_fmap in Hcell.
    by destruct (amounts !! j) as [[?|]|]. }
  assert (Hd : dates !! j = Some (Some t)).
  { pose proof (rows_column_lookup _ _ _ j r Hclean Hdc Hj) as Hcell.
    rewrite Hlabels, Hdate in Hcell.
    pose proof (transform_coerced df) as Hco.
    rewrite list.Forall_forall in Hco.
    destruct (Hco _ (col_lookup_Some _ _ _ Hdc)) as [_ Hdt _ _].
    simpl in Hdt. destruct Hdt as [ds Hds]; [by vm_compute|]. subst dc.
    rewrite Hdates, to_datetime_datetime. simpl in Hcell.
    rewrite list_lookup_fmap in Hcell.
    destruct (ds !! j) as [[u|]|]; simpl in Hcell; by simplify_eq. }
  assert (∃ key, lk !! j = Some key) as [key Hkey].
  { apply lookup_lt_is_Some. apply lookup_lt_Some in Ha.
    unfold lk. unfold col_len in Halen. lia. }
  exists j, k. repeat split; try done.
  - apply Hday. exists (dt_date t).
    assert (Hdj : days !! j = Some (Some (dt_date t))).
    { unfold days. by rewrite list_lookup_fmap, Hd. }
    split; [done|]. split; [by eapply list_elem_of_lookup_2|].
    symmetry. apply (count_delete _ _ j _ Hdj). by apply bool_decide_eq_true_2.
  - apply Hmonth. exists (month_label (Some t)).
    assert (Hmj : months !! j = Some (Some (month_label (Some t)))).
    { unfold months. by rewrite list_lookup_fmap, Hd. }
    split; [done|]. split; [by eapply list_elem_of_lookup_2|].
    symmetry. apply (count_delete _ _ j _ Hmj). by apply bool_decide_eq_true_2.
  - intros c q (v & -> & _ & ->)%Hca. exists v. split; [done|].
    rewrite <- delete_zip.
    apply (qsum_delete _ _ j (key, None)).
    + apply lookup_zip_with_Some. by exists key, None.
    + apply country_share_no_amount.
  - intros m q p (l & -> & ->)%Hrev. exists l. split; [done|].
    rewrite <- !delete_zip.
    apply (qsum_delete _ _ j (key, (Some t, None))).
    + apply lookup_zip_with_Some. exists key, (Some t, None).
      split; [done|]. split; [done|].
      apply lookup_zip_with_Some. by exists (Some t), None.
    + apply month_share_no_amount.
Qed.

End pipeline_properties.

Section pipeline_examples.
Import PyStr Frame Silver Gold Instance Examples.

Definition two_clients : frame :=
  [("id_client", FloatCol [Some (q 1 1); Some (q 2 1)]);
   ("pays", ObjectCol [Some "France"; Some "Spain"])].

(** The last row of [messy_achats] once coerced: the amount "N/A" has
    become missing. *)
Definition desk_row : list cell :=
  [Some (VNum (q 4 1)); Some (VNum (q 2 1));
   Some (VDate (Timestamp 2024 4 1 0)); None; Some (VStr "Desk")].

Lemma cleaned_messy_inputs :
  gold_inputs two_clients (transform_dataframe messy_achats)
    (FloatCol [Some (q 1 1); Some (q 2 1)])
    [ts 2024 3 5; ts 2024 4 1]
    [Some (q 4999 100); None]
    (FloatCol [Some (q 1 1); Some (q 2 1)])
    (ObjectCol [Some "France"; Some "Spain"]).
Proof.
  split; try by_compute.
  exists (DatetimeCol [ts 2024 3 5; ts 2024 4 1]).
  split; [by_compute|]. by split.
Defined.

Lemma messy_amount_not_a_number :
  amount_not_a_number (dropna_all messy_achats) 4.
Proof.
  exists "montant", (ObjectCol [Some "49.99"; Some "49.99"; Some "10";
                                 Some "5"; Some "N/A"]).
  split; [by_compute|]. split; [by vm_compute|]. by vm_compute.
Defined.

Lemma non_numeric_amount_witness :
  frame_ok messy_achats
  ∧ amount_not_a_number (dropna_all messy_achats) 4
  ∧ rows (coerce (dropna_all messy_achats)) !! 4%nat = Some desk_row
  ∧ (∃ j k, rows (transform_dataframe messy_achats) !! j = Some desk_row
            ∧ compute_kpis two_clients (transform_dataframe messy_achats)
              = Some k).
Proof.
  assert (Hrow : rows (coerce (dropna_all messy_achats)) !! 4%nat
                 = Some desk_row) by by_compute.
  assert (Hidc : notna (row_cell (strip <$> columns messy_achats)
                          "id_client" desk_row) = true)
    by (vm_compute; reflexivity).
  assert (Hida : notna (row_cell (strip <$> columns messy_achats)
                          "id_achat" desk_row) = true)
    by (vm_compute; reflexivity).
  assert (Hdate : row_cell (strip <$> columns messy_achats)
                    "date_achat" desk_row
                  = Some (VDate (Timestamp 2024 4 1 0)))
    by (vm_compute; reflexivity).
  split; [exact messy_achats_ok|].
  split; [exact messy_amount_not_a_number|]. split; [exact Hrow|].
  destruct (non_numeric_amount messy_achats two_clients 4 desk_row
              (Timestamp 2024 4 1 0) _ _ _ _ _
              messy_achats_ok messy_amount_not_a_number Hrow
              Hidc Hida Hdate cleaned_messy_inputs)
    as (j & k & Hj & _ & _ & Hk & _).
  exists j, k. split; [exact Hj|exact Hk].
Defined.

(** A purchase extract whose second row has a date, a client id and an
    amount that is not a number, and no purchase id. *)
Definition unnumbered_purchase : frame :=
  [("id_achat", FloatCol [Some (q 1 1); None]);
   ("id_client", FloatCol [Some (q 1 1); Some (q 2 1)]);
   ("date_achat", ObjectCol [Some "2024-03-05"; Some "2024-04-01"]);
   ("montant", ObjectCol [Some "10"; Some "N/A"])].

(** That row once coerced. *)
Definition unnumbered_row : list cell :=
  [None; Some (VNum (q 2 1)); Some (VDate (Timestamp 2024 4 1 0)); None].

(** The cleaning does not retain it: the row lacks a required
    identifier, and the last filter of the cleaning removes it, amount
    and all. The cleaned table is the first row alone. *)
Lemma purchase_without_id_dropped :
  frame_ok unnumbered_purchase
  ∧ amount_not_a_number (dropna_all unnumbered_purchase) 1
  ∧ rows (coerce (dropna_all unnumbered_purchase)) !! 1%nat
    = Some unnumbered_row
  ∧ notna (row_cell (strip <$> columns unnumbered_purchase)
             "id_client" unnumbered_row) = true
  ∧ row_cell (strip <$> columns unnumbered_purchase) "date_achat"
      unnumbered_row = Some (VDate (Timestamp 2024 4 1 0))
  ∧ rows (transform_dataframe unnumbered_purchase)
    = [[Some (VNum (q 1 1)); Some (VNum (q 1 1));
        Some (VDate (Timestamp 2024 3 5 0)); Some (VNum (q 10 1))]]
  ∧ (unnumbered_row ∉ rows (transform_dataframe unnumbered_purchase))
  ∧ ¬ (∀ (df : frame) (i : nat) (r : list cell) (t : timestamp),
         frame_ok df →
         amount_not_a_number (dropna_all df) i →
         rows (coerce (dropna_all df)) !! i = Some r →
         notna (row_cell (strip <$> columns df) "id_client" r) = true →
         row_cell (strip <$> columns df) "date_achat" r = Some (VDate t) →
         r ∈ rows (transform_dataframe df)).
Proof.
  assert (Hok : frame_ok unnumbered_purchase) by by_compute.
  assert (Hnan : amount_not_a_number (dropna_all unnumbered_purchase) 1).
  { exists "montant", (ObjectCol [Some "10"; Some "N/A"]).
    split; [by_compute|]. split; [by vm_compute|]. by vm_compute. }
  assert (Hrow : rows (coerce (dropna_all unnumbered_purchase)) !! 1%nat
                 = Some unnumbered_row) by by_compute.
  assert (Hout : unnumbered_row
                 ∉ rows (transform_dataframe unnumbered_purchase))
    by by_compute.
  split; [exact Hok|]. split; [exact Hnan|]. split; [exact Hrow|].
  split; [by vm_compute|]. split; [by vm_compute|].
  split; [by_compute|]. split; [exact Hout|].
  intros Hall. apply Hout.
  apply (Hall unnumbered_purchase 1%nat unnumbered_row
           (Timestamp 2024 4 1 0) Hok Hnan Hrow); by vm_compute.
Qed.

End pipeline_examples.

(** ** Publication stage *)
Section publication_properties.
Import Frame PyTime Mongo.
Context (isoformat : datetime → string).

(** C3 (amended). A publication under a table name other than the name of
    the metadata collection itself, "ingest_metadata": the records
    published before under the name are deleted and the rows of the new
    table inserted (none, when the table is empty), so the collection
    holds exactly the new rows, as many as the table has, and after a
    second publication exactly the second content; the first metadata
    record of the name is updated, or one is inserted when there is none,
    with ingest_time the current instant and source_last_modified the
    timestamp of the caller; on a store with at most one metadata record
    per name, as every store written by publications only, there is
    exactly one for the name afterwards; the metadata of the other names
    stays as it was. *)
Theorem publication_replaces (now : datetime) (df : frame) (name : string)
    (metadata : doc) (db : database) :
  name ≠ "ingest_metadata" →
  let db' := write_df_to_mongo isoformat now df name metadata db in
  docs name db' = (if empty df then [] else to_records df)
  ∧ (uniform (nrows df) df → length (docs name db') = nrows df)
  ∧ (∀ now2 df2 metadata2,
       docs name (write_df_to_mongo isoformat now2 df2 name metadata2 db')
       = if empty df2 then [] else to_records df2)
  ∧ (∃ m info,
       metadata_of name db' = m :: tail (metadata_of name db)
       ∧ doc_get "collection" m = Some (BStr name)
       ∧ doc_get "ingest_time" m = Some (BStr (isoformat now))
       ∧ doc_get "source_info" m = Some (BDoc info)
       ∧ doc_get "last_modified" info
         = Some (default BNull (doc_get "last_modified" metadata)))
  ∧ (meta_unique db →
       meta_unique db' ∧ length (metadata_of name db') = 1%nat)
  ∧ (∀ name', name ≠ name' → metadata_of name' db' = metadata_of name' db).
Proof.
  intros Hne db'. unfold db'.
  split; [by apply docs_write|].
  split.
  { intros Hu. rewrite docs_write by done. unfold empty.
    destruct (bool_decide_reflect (nrows df = 0%nat ∨ df = [])) as [[->| ->]|_];
      [done|done|]. by apply to_records_length. }
  split; [intros; by apply docs_write|].
  split.
  { eexists _, _. split; [by apply metadata_of_write|].
    split; [apply ingest_meta_collection|].
    split; [apply ingest_meta_ingest_time|].
    split; [apply ingest_meta_source_info|]. apply doc_get_set. }
  split; [|intros; by apply metadata_of_write_ne].
  intros Hu. split; [by apply meta_unique_write|].
  rewrite metadata_of_write by done. specialize (Hu name).
  destruct (metadata_of name db) as [|d [|d' l]]; simpl in *; lia.
Qed.

End publication_properties.

Section publication_examples.
Import Frame PyTime Mongo Instance Examples.

Definition noon : datetime := Datetime 2024 5 1 12 0 0 0 (Some 0%Z).

Definition source_time : doc :=
  [("object_name", BStr "ca_by_country.csv");
   ("last_modified", BDate (Datetime 2024 5 1 11 50 0 0 (Some 0%Z)))].

Lemma publication_replaces_witness :
  "ca_by_country" ≠ "ingest_metadata"
  ∧ docs "ca_by_country"
      (write_df_to_mongo isoformat_iso noon one_client "ca_by_country"
         source_time ∅)
    = (if empty one_client then [] else to_records one_client).
Proof.
  assert (Hne : "ca_by_country" ≠ "ingest_metadata") by done.
  split; [exact Hne|].
  exact (proj1 (publication_replaces isoformat_iso noon one_client
                  "ca_by_country" source_time ∅ Hne)).
Defined.

(** A table published under the name of the metadata collection: the
    collection then holds the row of the table and the metadata record,
    two documents for a table of one row. *)
Lemma reserved_name_mixes_metadata :
  length (to_records one_client) = 1%nat
  ∧ length (docs "ingest_metadata"
              (write_df_to_mongo isoformat_iso noon one_client
                 "ingest_metadata" source_time ∅)) = 2%nat
  ∧ docs "ingest_metadata"
      (write_df_to_mongo isoformat_iso noon one_client "ingest_metadata"
         source_time ∅)
    ≠ to_records one_client.
Proof.
  split; [by vm_compute|]. split; [by vm_compute|].
  intros Heq. apply (f_equal length) in Heq. by vm_compute in Heq.
Qed.

End publication_examples.

(** ** Freshness resolver *)
Section freshness_properties.
Import PyTime Mongo Api.
Context (fromisoformat : string → option datetime).

(** X29. The resolver on a metadata record whose two timestamp fields
    are absent, strings or dates, [now] being the UTC clock. When both
    timestamps are present and parse, it returns: delta_source_to_ingest
    is ingest_time minus source_last_modified in seconds and
    delta_ingest_to_now is [now] minus ingest_time, each timestamp taken
    as the instant it denotes, one without timezone read as UTC (so the
    subtraction of a naive and an aware timestamp does not raise). When a
    timestamp is absent or a string that does not parse, the delta the
    handler computes is absent, and the handler does not return it:
    [RefreshInfo] refuses it and the handler raises. *)
Theorem freshness_delta (now : datetime) (name : string) (db : database)
    (meta : doc) (source_lm : bson) :
  dt_offset now = Some 0%Z →
  find_one "ingest_metadata" (by_collection name) db = Some meta →
  source_field meta = Some source_lm →
  stamp_field source_lm → stamp_field (ingest_field meta) →
  let src := stamp fromisoformat source_lm in
  let ing := stamp fromisoformat (ingest_field meta) in
  (∀ a b, src = Some a → ing = Some b →
     get_metadata fromisoformat now name db
     = Ok (RefreshInfo name source_lm (ingest_field meta)
             (Some (total_seconds (instant b - instant a)))
             (Some (total_seconds (instant now - instant b)))))
  ∧ (src = None ∨ ing = None →
     seconds_between src ing = None
     ∧ get_metadata fromisoformat now name db = Raised).
Proof.
  intros Hnow Hfind Hsrc Hs Hi src ing.
  assert (Hoff : is_Some (dt_offset now)) by (by eexists).
  rewrite (get_metadata_stamps _ _ _ _ _ _ Hoff Hfind Hsrc Hs Hi).
  fold src ing. split.
  - by intros a b -> ->.
  - intros [-> | ->]; [done|]. by destruct src.
Qed.

End freshness_properties.

Section not_found_properties.
Import PyTime Mongo Api.
Context (fromisoformat : string → option datetime).

(** C5. The resolver answers with the structured not-found, the
    [HTTPException] of status 404, exactly when the table name has no
    metadata record: without a record it raises it (it returns no info, zero-valued or
    other), and with a record it does not raise it. *)
Theorem freshness_not_found (now : datetime) (name : string) (db : database) :
  (metadata_of name db = [] →
     get_metadata fromisoformat now name db
     = HTTPException 404 "Metadata not found")
  ∧ (metadata_of name db ≠ [] →
       ∀ code detail,
         get_metadata fromisoformat now name db ≠ HTTPException code detail)
  ∧ (∀ info, get_metadata fromisoformat now name db = Ok info →
       metadata_of name db ≠ []).
Proof.
  unfold get_metadata. rewrite find_one_metadata.
  destruct (metadata_of name db) as [|d l] eqn:E; simpl.
  - split; [done|]. split; [done|]. by intros info [=].
  - assert (Hd : d ≠ []).
    { apply (by_collection_nonempty name).
      apply (metadata_of_by_collection name db). rewrite E.
      apply list_elem_of_here. }
    destruct d as [|kv d]; [done|].
    split; [done|]. split; [|done]. intros _ code detail.
    destruct (source_field (kv :: d)); [|done].
    destruct (normalize _); [|done]. destruct (normalize _); [|done].
    destruct (delta _ _); [|done]. destruct (delta _ _); [|done].
    by destruct (new_refresh_info _ _ _ _ _).
Qed.

End not_found_properties.

Section freshness_examples.
Import PyTime Mongo Api Instance.

(** The metadata of the specification's example. *)
Definition ten_minutes : doc :=
  [("collection", BStr "ca_by_country");
   ("ingest_time", BStr "2024-01-01T00:10:00Z");
   ("source_info",
    BDoc [("object_name", BStr "ca_by_country.csv");
          ("last_modified", BStr "2024-01-01T00:00:00Z")])].

Definition store : database := {[ "ingest_metadata" := [ten_minutes] ]}.

Definition one_o_clock : datetime := Datetime 2024 1 1 1 0 0 0 (Some 0%Z).

Lemma freshness_delta_witness :
  dt_offset one_o_clock = Some 0%Z
  ∧ find_one "ingest_metadata" (by_collection "ca_by_country") store
    = Some ten_minutes
  ∧ source_field ten_minutes = Some (BStr "2024-01-01T00:00:00Z")
  ∧ get_metadata fromisoformat_iso one_o_clock "ca_by_country" store
    = Ok (RefreshInfo "ca_by_country" (BStr "2024-01-01T00:00:00Z")
            (BStr "2024-01-01T00:10:00Z")
            (Some (total_seconds
                     (instant (Datetime 2024 1 1 0 10 0 0 (Some 0%Z))
                      - instant (Datetime 2024 1 1 0 0 0 0 (Some 0%Z)))))
            (Some (total_seconds
                     (instant one_o_clock
                      - instant (Datetime 2024 1 1 0 10 0 0 (Some 0%Z)))))).
Proof.
  assert (Hfind : find_one "ingest_metadata" (by_collection "ca_by_country")
                    store = Some ten_minutes) by (vm_compute; reflexivity).
  assert (Hsrc : source_field ten_minutes
                 = Some (BStr "2024-01-01T00:00:00Z"))
    by (vm_compute; reflexivity).
  assert (Hs : stamp_field (BStr "2024-01-01T00:00:00Z"))
    by (right; left; by eexists).
  assert (Hi : stamp_field (ingest_field ten_minutes))
    by (right; left; by eexists).
  split; [reflexivity|]. split; [exact Hfind|]. split; [exact Hsrc|].
  apply (proj1 (freshness_delta fromisoformat_iso one_o_clock "ca_by_country"
                  store ten_minutes _ eq_refl Hfind Hsrc Hs Hi));
    vm_compute; reflexivity.
Defined.

(** The example of the specification, run. *)
Lemma ten_minutes_is_600 :
  delta_source_to_ingest_seconds
    <$> (match get_metadata fromisoformat_iso one_o_clock "ca_by_country" store
         with Ok info => Some info | _ => None end)
  = Some (Some (Q2Qc 600)).
Proof. by_compute. Qed.

(** A record of the store with two dates, and the delay the resolver
    reports for it, when it reports one. *)
Definition dated (source ingest : datetime) : doc :=
  [("collection", BStr "ca_by_country");
   ("ingest_time", BDate ingest);
   ("source_info", BDoc [("last_modified", BDate source)])].

Definition delay_of (source ingest : datetime) : option (option Qc) :=
  delta_source_to_ingest_seconds
    <$> (match get_metadata fromisoformat_iso
                 (Datetime 2101 1 1 0 0 0 0 (Some 0%Z)) "ca_by_country"
                 {[ "ingest_metadata" := [dated source ingest] ]}
         with Ok info => Some info | _ => None end).

(** The calendar of the subtraction: across the end of February of a
    leap year (from a timestamp without timezone to one with), of a
    common year and of the common year 2100, across the end of a year,
    and between two offsets. *)
Lemma calendar_delays :
  delay_of (Datetime 2024 2 28 23 59 0 0 None)
           (Datetime 2024 3 1 0 1 0 0 (Some 0%Z))
  = Some (Some (Q2Qc 86520))
  ∧ delay_of (Datetime 2023 2 28 23 59 0 0 None)
             (Datetime 2023 3 1 0 1 0 0 None)
    = Some (Some (Q2Qc 120))
  ∧ delay_of (Datetime 2100 2 28 23 59 0 0 None)
             (Datetime 2100 3 1 0 1 0 0 None)
    = Some (Some (Q2Qc 120))
  ∧ delay_of (Datetime 2023 12 31 23 59 30 0 (Some 0%Z))
             (Datetime 2024 1 1 0 0 0 500000 (Some 0%Z))
    = Some (Some (Q2Qc (61 # 2)))
  ∧ delay_of (Datetime 2024 6 1 12 0 0 0 (Some 7200000000%Z))
             (Datetime 2024 6 1 10 30 0 0 (Some 0%Z))
    = Some (Some (Q2Qc 1800)).
Proof. repeat split; by_compute. Qed.

(** The record a publication writes for a caller that has no last
    modification, and one whose last modification is not an ISO string. *)
Definition no_source_time : doc :=
  [("collection", BStr "ca_by_country");
   ("ingest_time", BStr "2024-01-01T00:10:00Z");
   ("source_info",
    BDoc [("object_name", BStr "ca_by_country.csv");
          ("last_modified", BNull)])].

Definition odd_source_time : doc :=
  [("collection", BStr "ca_by_country");
   ("ingest_time", BStr "2024-01-01T00:10:00Z");
   ("source_info",
    BDoc [("object_name", BStr "ca_by_country.csv");
          ("last_modified", BStr "yesterday")])].

(** C4. With the source timestamp absent, or a string that does not
    parse, the handler computes an absent delta_source_to_ingest (and the
    delta from the ingest time to now), and does not return it: it hands
    [None] to [RefreshInfo], whose field is declared [float], and the
    call raises. With both timestamps the very same request returns
    600. *)
Lemma absent_timestamp_not_returned :
  _to_dt fromisoformat_iso BNull = PNone
  ∧ _to_dt fromisoformat_iso (BStr "yesterday") = PNone
  ∧ delta PNone (PDatetime (Datetime 2024 1 1 0 10 0 0 (Some 0%Z)))
    = Some None
  ∧ new_refresh_info "ca_by_country" BNull (BStr "2024-01-01T00:10:00Z")
      None (Some (Q2Qc 3000)) = None
  ∧ get_metadata fromisoformat_iso one_o_clock "ca_by_country"
      {[ "ingest_metadata" := [no_source_time] ]} = Raised
  ∧ get_metadata fromisoformat_iso one_o_clock "ca_by_country"
      {[ "ingest_metadata" := [odd_source_time] ]} = Raised
  ∧ delta_source_to_ingest_seconds
      <$> (match get_metadata fromisoformat_iso one_o_clock "ca_by_country"
                   store
           with Ok info => Some info | _ => None end)
    = Some (Some (Q2Qc 600)).
Proof. repeat split; by_compute. Qed.

Lemma freshness_not_found_witness :
  metadata_of "volumes_day" store = []
  ∧ get_metadata fromisoformat_iso one_o_clock "volumes_day" store
    = HTTPException 404 "Metadata not found".
Proof.
  assert (Hnone : metadata_of "volumes_day" store = [])
    by (vm_compute; reflexivity).
  split; [exact Hnone|].
  exact (proj1 (freshness_not_found fromisoformat_iso one_o_clock
                  "volumes_day" store) Hnone).
Defined.

End freshness_examples.

(** * Further properties of the code *)

(** ** Cleaning stage: rows, order and column types *)
Section cleaning_rows.
Import PyStr Frame Silver.
Context `{Pandas}.

(** X1. The rows of the cleaned table are exactly the rows of the coerced
    table (the extract without its blank rows, columns coerced) whose
    id_client and id_achat are present, for those of the two columns the
    table has: a row with its identifiers is never lost. *)
Theorem cleaned_rows_exactly (df : frame) (r : list cell) :
  frame_ok df →
  let labels := strip <$> columns df in
  r ∈ rows (transform_dataframe df)
  ↔ r ∈ rows (coerce (dropna_all df))
    ∧ ("id_client" ∈ labels → notna (row_cell labels "id_client" r) = true)
    ∧ ("id_achat" ∈ labels → notna (row_cell labels "id_achat" r) = true).
Proof. intros [_ Hu]. by apply elem_of_rows_transform. Qed.

(** X2. The cleaning keeps the rows in the order of the extract: the
    cleaned rows are a subsequence of the coerced rows, and the cleaned
    table has at most as many rows as the extract. *)
Theorem cleaning_keeps_order (df : frame) :
  frame_ok df →
  sublist (rows (transform_dataframe df)) (rows (coerce (dropna_all df)))
  ∧ (nrows (transform_dataframe df) ≤ nrows df)%nat.
Proof.
  intros [_ Hu].
  destruct (uniform_stages df Hu) as (H1 & H2 & H3 & H4).
  assert (Hsub : sublist (rows (transform_dataframe df))
                   (rows (coerce (dropna_all df)))).
  { unfold transform_dataframe.
    etrans; [eapply rows_filter_notna, H3|].
    etrans; [eapply rows_filter_notna, H2|].
    erewrite rows_drop_duplicates by exact H1. apply take_mask_sublist. }
  split; [exact Hsub|].
  apply sublist_length in Hsub.
  rewrite (rows_length _ _ H4), (rows_length _ _ H1) in Hsub.
  etrans; [exact Hsub|].
  pose proof (uniform_dropna_all df _ Hu) as Hd.
  assert (Hc : nrows (coerce (dropna_all df)) = nrows (dropna_all df)).
  { rewrite coerce_fmap. destruct (dropna_all df) as [|nc d]; [done|].
    simpl. destruct (coerce_col nc) as [n c] eqn:E.
    pose proof (coerce_col_len nc) as Hl. rewrite E in Hl.
    by destruct nc. }
  rewrite Hc. rewrite <- (rows_length _ _ Hd), <- (rows_length _ _ Hu).
  unfold dropna_all. rewrite rows_frame_mask.
  - apply sublist_length, take_mask_sublist.
  - rewrite length_fmap, (rows_length _ _ Hu). exact Hu.
  - by rewrite length_fmap, (rows_length _ _ Hu).
Qed.

(** X3. In a cleaned table every label is stripped, every column whose
    label contains "date" (in any case) is a datetime column, and the
    columns montant, id_achat and id_client (in any case) are never left
    as text. *)
Theorem cleaned_column_types (df : frame) (n : string) (c : column) :
  (n, c) ∈ transform_dataframe df →
  strip n = n
  ∧ (contains "date" (lower n) = true → ∃ vs, c = DatetimeCol vs)
  ∧ (lower n ∈ ["montant"; "id_achat"; "id_client"] →
     ∀ vs, c ≠ ObjectCol vs).
Proof.
  intros Hin. pose proof (transform_coerced df) as Hco.
  rewrite list.Forall_forall in Hco.
  destruct (Hco _ Hin) as [Hl Hd Hn _]. simpl in *.
  split; [exact Hl|]. split; [exact Hd|].
  intros Hnum. apply Hn. unfold numeric_names.
  revert Hnum. rewrite !elem_of_cons. tauto.
Qed.

(** X4. In a cleaned table the values of a text column (an object column
    whose label contains email, nom, produit or pays) are all strings
    without leading or trailing white space, and those of an email column
    are in lower case as well. *)
Theorem cleaned_text_normal_form (df : frame) (n : string)
    (vs : list (option string)) :
  (n, ObjectCol vs) ∈ transform_dataframe df →
  is_text_label n = true →
  Forall (λ v, ∃ s, v = Some s ∧ strip s = s
                    ∧ (contains "email" (lower n) = true → lower s = s)) vs.
Proof.
  intros Hin Ht. pose proof (transform_coerced df) as Hco.
  rewrite list.Forall_forall in Hco.
  destruct (Hco _ Hin) as [_ _ _ Htext]. simpl in *.
  exact (Htext Ht vs eq_refl).
Qed.

End cleaning_rows.

Section cleaning_rows_examples.
Import PyStr Frame Silver Instance Examples.

(** The purchase of the desk, whose amount is not a number, is kept. *)
Lemma cleaned_rows_exactly_witness :
  frame_ok messy_achats
  ∧ [Some (VNum (q 4 1)); Some (VNum (q 2 1));
     Some (VDate (Timestamp 2024 4 1 0)); None; Some (VStr "Desk")]
    ∈ rows (transform_dataframe messy_achats).
Proof.
  split; [exact messy_achats_ok|].
  apply (cleaned_rows_exactly messy_achats _ messy_achats_ok).
  split; [by_compute|]. split; intros _; vm_compute; reflexivity.
Defined.

Lemma cleaning_keeps_order_witness :
  frame_ok messy_achats
  ∧ (nrows (transform_dataframe messy_achats) ≤ nrows messy_achats)%nat.
Proof.
  split; [exact messy_achats_ok|].
  exact (proj2 (cleaning_keeps_order messy_achats messy_achats_ok)).
Defined.

Lemma cleaned_column_types_witness :
  ("date_achat",
   DatetimeCol [Some (Timestamp 2024 3 5 0); Some (Timestamp 2024 4 1 0)])
    ∈ transform_dataframe messy_achats
  ∧ strip "date_achat" = "date_achat".
Proof.
  assert (Hin : ("date_achat",
                 DatetimeCol [Some (Timestamp 2024 3 5 0);
                              Some (Timestamp 2024 4 1 0)])
                ∈ transform_dataframe messy_achats) by by_compute.
  split; [exact Hin|].
  exact (proj1 (cleaned_column_types messy_achats _ _ Hin)).
Defined.

Lemma cleaned_text_normal_form_witness :
  ("produit", ObjectCol [Some "Mouse"; Some "Desk"])
    ∈ transform_dataframe messy_achats
  ∧ is_text_label "produit" = true
  ∧ Forall (λ v, ∃ s, v = Some s ∧ strip s = s
                      ∧ (contains "email" (lower "produit") = true
                         → lower s = s))
      [Some "Mouse"; Some "Desk"].
Proof.
  assert (Hin : ("produit", ObjectCol [Some "Mouse"; Some "Desk"])
                ∈ transform_dataframe messy_achats) by by_compute.
  assert (Ht : is_text_label "produit" = true) by (vm_compute; reflexivity).
  split; [exact Hin|]. split; [exact Ht|].
  exact (cleaned_text_normal_form messy_achats _ _ Hin Ht).
Defined.

End cleaning_rows_examples.

(** ** Aggregation stage: totals of the tables *)
Module Totals.
Import PyStr Frame Gold.

(** How many rows carry the key [k]. *)
Definition occurrences {K} `{EqDecision K} (k : K) (keys : list (option K))
  : nat :=
  length (List.filter (λ x, bool_decide (x = Some k)) keys).

Lemma sum_list_fmap_add {A} (f g : A → nat) l :
  sum_list ((λ x, f x + g x)%nat <$> l)
  = (sum_list (f <$> l) + sum_list (g <$> l))%nat.
Proof.
  induction l as [|x l IH]; [done|]. rewrite !fmap_cons. simpl.
  rewrite IH. lia.
Qed.

Lemma sum_list_indicator {K} `{EqDecision K} (a : K) l :
  NoDup l → a ∈ l →
  sum_list ((λ k, if decide (a = k) then 1 else 0)%nat <$> l) = 1%nat.
Proof.
  induction 1 as [|x l Hx Hnd IH]; [by intros ?%elem_of_nil|].
  intros [->|Hin]%elem_of_cons; simpl.
  - rewrite decide_True by done. f_equal.
    clear IH Hnd. induction l as [|y l IH]; simpl; [done|].
    apply not_elem_of_cons in Hx as [Hxy Hx].
    rewrite decide_False by done. by apply IH.
  - rewrite decide_False by (intros ->; contradiction). by apply IH.
Qed.

Lemma sum_list_zero {A} (l : list A) :
  sum_list ((λ _, 0%nat) <$> l) = 0%nat.
Proof. by induction l. Qed.

(** Over distinct keys that cover the rows, the group sizes add up to the
    number of rows that have a key. *)
Lemma occurrences_total {K} `{EqDecision K} (l : list K) keys :
  NoDup l → (∀ k, Some k ∈ keys → k ∈ l) →
  sum_list ((λ k, occurrences k keys) <$> l) = length (omap id keys).
Proof.
  intros Hnd. induction keys as [|x keys IH]; intros Hcov.
  - apply sum_list_zero.
  - assert (Hcov' : ∀ k, Some k ∈ keys → k ∈ l).
    { intros k Hk. by apply Hcov, list_elem_of_further. }
    destruct x as [a|].
    + change (length (omap id (Some a :: keys)))
        with (1 + length (omap id keys))%nat.
      rewrite <- (IH Hcov').
      rewrite <- (sum_list_indicator a l Hnd)
        by apply Hcov, list_elem_of_here.
      rewrite <- sum_list_fmap_add. f_equal. apply list_fmap_ext.
      intros _ k _. unfold occurrences. simpl.
      destruct (decide (a = k)) as [->|Hne].
      * by rewrite bool_decide_eq_true_2.
      * rewrite bool_decide_eq_false_2; [done|]. by intros [= ?].
    + change (length (omap id (None :: keys)))
        with (length (omap id keys)).
      rewrite <- (IH Hcov'). f_equal.
Qed.

Section groups.
Context {K : Type} `{EqDecision K} (leb : K → K → bool).

(** [groupby(key).size()] counts every row that has a key once. *)
Lemma groupby_size_total keys :
  sum_list (groupby_size leb keys).*2 = length (omap id keys).
Proof.
  unfold groupby_size. rewrite <- list_fmap_compose.
  rewrite <- (occurrences_total (group_keys leb keys) keys).
  - f_equal. apply list_fmap_ext. intros _ k _. simpl. apply members_count.
  - by apply group_keys_NoDup.
  - intros k Hk. by apply elem_of_group_keys.
Qed.
End groups.

Lemma qsum_fmap_add {A} (f g : A → Qc) l :
  qsum ((λ x, f x + g x)%Qc <$> l)
  = (qsum (f <$> l) + qsum (g <$> l))%Qc.
Proof.
  induction l as [|x l IH]; [simpl; ring|]. rewrite !fmap_cons. simpl.
  rewrite IH. ring.
Qed.

Lemma qsum_indicator {K} `{EqDecision K} (a : K) (v : Qc) l :
  NoDup l → a ∈ l →
  qsum ((λ k, if decide (Some a = Some k) then v else 0%Qc) <$> l) = v.
Proof.
  induction 1 as [|x l Hx Hnd IH]; [by intros ?%elem_of_nil|].
  intros [->|Hin]%elem_of_cons; rewrite fmap_cons; simpl.
  - rewrite decide_True by done.
    assert (Hz : qsum ((λ k, if decide (Some x = Some k) then v else 0%Qc)
                         <$> l) = 0%Qc).
    { clear IH Hnd. induction l as [|y l IH]; [done|].
      apply not_elem_of_cons in Hx as [Hxy Hx]. rewrite fmap_cons. simpl.
      rewrite decide_False by (by intros [= ?]). rewrite (IH Hx). ring. }
    rewrite Hz. ring.
  - rewrite decide_False by (intros [= ->]; contradiction).
    rewrite (IH Hin). ring.
Qed.

(** Over distinct keys that cover the rows, the group sums add up to the
    sum of the column, when every row has a key. *)
Lemma group_sums_total {K} `{EqDecision K} (l : list K) ks vals :
  NoDup l → (∀ k, k ∈ ks → k ∈ l) → length ks = length vals →
  qsum ((λ k, sum_present (members k (Some <$> ks) vals)) <$> l)
  = sum_present vals.
Proof.
  intros Hnd. revert vals.
  induction ks as [|a ks IH]; intros [|v vals] Hcov; try done.
  - intros _. apply qsum_zero. done.
  - intros [= Hl].
    assert (Hcov' : ∀ k, k ∈ ks → k ∈ l).
    { intros k Hk. by apply Hcov, list_elem_of_further. }
    change (sum_present (v :: vals))
      with (default 0%Qc v + sum_present vals)%Qc.
    rewrite <- (IH vals Hcov' Hl).
    rewrite <- (qsum_indicator a (default 0%Qc v) l Hnd)
      by apply Hcov, list_elem_of_here.
    rewrite <- qsum_fmap_add. f_equal. apply list_fmap_ext.
    intros _ k _. rewrite fmap_cons, members_cons.
    destruct (decide (Some a = Some k)); [done|]. ring.
Qed.

(** *** Distinct client ids: the join neither repeats nor drops a row *)

Lemma matches_from_NoDup (k : cell) rk m :
  NoDup rk →
  (length (omap (λ jk : nat * cell,
                   if decide (jk.2 = k) then Some jk.1 else None)
             (zip (seq m (length rk)) rk)) ≤ 1)%nat.
Proof.
  revert m. induction rk as [|x rk IH]; intros m Hnd; simpl; [lia|].
  apply NoDup_cons in Hnd as [Hx Hnd].
  destruct (decide (x = k)) as [->|Hne]; [|by apply IH].
  assert (Hgen : ∀ m, omap (λ jk : nat * cell,
             if decide (jk.2 = k) then Some jk.1 else None)
             (zip (seq m (length rk)) rk) = []).
  { clear -Hx. induction rk as [|y rk IH]; intros m; simpl; [done|].
    apply not_elem_of_cons in Hx as [Hne Hx].
    rewrite decide_False by done. by apply IH. }
  rewrite Hgen. simpl. lia.
Qed.

Lemma matches_NoDup k rk : NoDup rk → (length (matches k rk) ≤ 1)%nat.
Proof. apply matches_from_NoDup. Qed.

Lemma fanout_NoDup k rk : NoDup rk → fanout k rk = 1%nat.
Proof. intros Hnd. unfold fanout. pose proof (matches_NoDup k rk Hnd). lia. Qed.

Lemma expand_left_NoDup {A} lk rk (vs : list (option A)) :
  NoDup rk → length lk = length vs → expand_left lk rk vs = vs.
Proof.
  intros Hnd. revert vs.
  induction lk as [|k lk IH]; intros [|v vs]; try done.
  intros [= Hl]. rewrite expand_left_cons, (fanout_NoDup k rk Hnd).
  simpl. by rewrite (IH vs Hl).
Qed.

Lemma elem_of_expand_left {A} lk rk (vs : list (option A)) x :
  length lk = length vs → x ∈ expand_left lk rk vs ↔ x ∈ vs.
Proof.
  revert vs. induction lk as [|k lk IH]; intros [|v vs]; try done.
  intros [= Hl]. rewrite expand_left_cons, elem_of_app, elem_of_cons.
  rewrite (IH vs Hl), elem_of_replicate. unfold fanout.
  split; intros [Hx|Hx]; auto; [left; tauto|left; split; [done|lia]].
Qed.

Lemma length_omap_fmap {A B} (f : A → B) (l : list (option A)) :
  length (omap id (fmap (M:=option) f <$> l)) = length (omap id l).
Proof.
  induction l as [|[x|] l IH]; [done| |exact IH].
  change (S (length (omap id (fmap (M:=option) f <$> l)))
          = S (length (omap id l))). by rewrite IH.
Qed.

Lemma omap_fmap_Some {A} (l : list A) : omap id (Some <$> l) = l.
Proof.
  induction l as [|x l IH]; [done|].
  change (x :: omap id (Some <$> l) = x :: l). by rewrite IH.
Qed.

(** *** Dates in calendar order *)

Definition date_lt (a b : date) : Prop :=
  (d_year a < d_year b
   ∨ (d_year a = d_year b
      ∧ (d_month a < d_month b
         ∨ (d_month a = d_month b ∧ d_day a < d_day b))))%Z.

Lemma date_leb_total a b : date_leb a b = true ∨ date_leb b a = true.
Proof.
  unfold date_leb.
  repeat (destruct (decide _)); rewrite ?bool_decide_eq_true; lia.
Qed.

Lemma date_leb_ne_lt a b : date_leb a b = true → a ≠ b → date_lt a b.
Proof.
  destruct a as [y m d], b as [y' m' d']. unfold date_leb, date_lt. simpl.
  repeat (destruct (decide _)); rewrite ?bool_decide_eq_true;
    intros Hle Hne; try lia.
  assert (d ≠ d') by congruence. lia.
Qed.

#[global] Instance date_lt_trans : Transitive date_lt.
Proof. intros a b c. unfold date_lt. lia. Qed.

Lemma date_keys_ascending keys :
  StronglySorted date_lt (group_keys date_leb keys).
Proof.
  apply Sorted_StronglySorted; [apply _|].
  pose proof (group_keys_Sorted date_leb date_leb_total keys) as Hs.
  pose proof (group_keys_NoDup date_leb keys) as Hnd.
  induction Hs as [|x l Hl IH Hx]; [constructor|].
  apply NoDup_cons in Hnd as [Hx' Hnd]. constructor; [by apply IH|].
  destruct Hx as [|y l Hxy]; constructor.
  apply date_leb_ne_lt; [done|]. intros ->. apply Hx', list_elem_of_here.
Qed.

(** *** The label of the purchases without a date *)

Lemma digit_before_N n : Ascii.compare (digit n) "N" = Lt.
Proof.
  unfold Ascii.compare, digit.
  pose proof (Z.mod_pos_bound n 10 ltac:(lia)).
  assert (Hn : N_of_ascii (ascii_of_nat (48 + Z.to_nat (n mod 10)))
               = N.of_nat (48 + Z.to_nat (n mod 10))).
  { rewrite <- (nat_ascii_embedding (48 + Z.to_nat (n mod 10))) at 2 by lia.
    unfold nat_of_ascii. by rewrite N2Nat.id. }
  rewrite Hn. apply N.compare_lt_iff. simpl. lia.
Qed.

Lemma month_label_before_NaT t : string_lt (month_label (Some t)) "NaT".
Proof.
  rewrite string_lt_compare, month_label_unfold, string_compare_cons.
  by rewrite digit_before_N.
Qed.

Lemma month_label_NaT v : month_label v = "NaT" ↔ v = None.
Proof.
  split; [|by intros ->]. destruct v as [t|]; [|done]. intros E.
  pose proof (month_label_before_NaT t) as Hlt.
  rewrite E in Hlt. by vm_compute in Hlt.
Qed.

Lemma count_NaT (dates : list (option timestamp)) :
  length (List.filter (λ x, bool_decide (x = Some "NaT"))
            (Some ∘ month_label <$> dates))
  = length (List.filter (λ d, bool_decide (d = None)) dates).
Proof.
  induction dates as [|d dates IH]; [done|]. rewrite fmap_cons. simpl.
  destruct (decide (d = None)) as [->|Hd].
  - simpl. by rewrite IH.
  - rewrite (bool_decide_eq_false_2 (d = None)) by done.
    rewrite bool_decide_eq_false_2; [done|].
    intros [= E]. by apply month_label_NaT in E.
Qed.

End Totals.

Section aggregation_totals.
Import PyStr Frame Gold Totals.
Context `{Pandas}.

(** X5. The volume tables count purchases, not amounts. volumes_day has
    one row per day on which a purchase with a date was made, the days
    distinct and in calendar order, and its volumes add up to the number
    of purchases that have a date; the volumes of volumes_month add up to
    the number of all purchases. *)
Theorem volumes_count_every_purchase
    (clients achats : frame) (ids : column) (dates : list (option timestamp))
    (amounts : list (option Qc)) (cids pays : column) :
  gold_inputs clients achats ids dates amounts cids pays →
  ∃ k, compute_kpis clients achats = Some k
    ∧ (∃ days, (volumes_day k).*1 = Some <$> days
               ∧ StronglySorted date_lt days
               ∧ ∀ d, d ∈ days ↔ ∃ t, Some t ∈ dates ∧ d = dt_date t)
    ∧ sum_list (volumes_day k).*2 = length (omap id dates)
    ∧ sum_list (volumes_month k).*2 = length dates.
Proof.
  intros Hin. pose proof (compute_kpis_tables _ _ _ _ _ _ _ Hin) as Hk.
  cbv zeta in Hk. eexists. split; [exact Hk|]. simpl.
  split; [|split].
  - exists (group_keys date_leb (fmap (M:=option) dt_date <$> dates)).
    split; [|split].
    + unfold groupby_size. rewrite <- list_fmap_compose.
      by apply list_fmap_ext.
    + apply date_keys_ascending.
    + intros d. rewrite (elem_of_group_keys date_leb).
      rewrite list_elem_of_fmap. split.
      * intros ([t|] & [= ->] & Ht). by exists t.
      * intros (t & Ht & ->). by exists (Some t).
  - rewrite (groupby_size_total date_leb). apply length_omap_fmap.
  - rewrite (groupby_size_total String.leb).
    rewrite (list_fmap_compose month_label Some), omap_fmap_Some.
    apply length_fmap.
Qed.

(** X6. A purchase whose date is missing has no row in volumes_day, but
    it is counted in volumes_month, and its amount summed in
    monthly_revenue, under the label "NaT"; that label sorts after every
    month. *)
Theorem undated_purchases_under_NaT
    (clients achats : frame) (ids : column) (dates : list (option timestamp))
    (amounts : list (option Qc)) (cids pays : column) :
  gold_inputs clients achats ids dates amounts cids pays →
  let undated := length (List.filter (λ d, bool_decide (d = None)) dates) in
  ∃ k, compute_kpis clients achats = Some k
    ∧ (∀ n, (None, n) ∉ volumes_day k)
    ∧ (∀ n, (Some "NaT", n) ∈ volumes_month k
            ↔ (0 < undated)%nat ∧ n = undated)
    ∧ ((∃ r p, (Some "NaT", r, p) ∈ monthly_revenue k) ↔ (0 < undated)%nat)
    ∧ (∀ t, string_lt (month_label (Some t)) "NaT").
Proof.
  intros Hin undated.
  pose proof (compute_kpis_tables _ _ _ _ _ _ _ Hin) as Hk.
  cbv zeta in Hk. eexists. split; [exact Hk|]. simpl.
  destruct Hin as [(dc & Hdc & Hdates & Hlen) _ _ Halen _ _ _ _ _ _].
  assert (Hld : length (cells ids) = length dates).
  { rewrite Hdates, to_datetime_length. symmetry. exact Hlen. }
  assert (Hun : Some "NaT" ∈ (Some ∘ month_label <$> dates)
                ↔ (0 < undated)%nat).
  { unfold undated. rewrite <- count_NaT.
    set (labels := Some ∘ month_label <$> dates). clearbody labels.
    induction labels as [|x l IH]; simpl.
    - split; [by intros ?%elem_of_nil|lia].
    - rewrite elem_of_cons. destruct (decide (x = Some "NaT")) as [->|Hx].
      + simpl. split; [lia|by left].
      + rewrite bool_decide_eq_false_2 by done. rewrite <- IH.
        split; [by intros [?|?]|by right]. }
  split; [|split; [|split]].
  - intros n (k & [=] & _)%elem_of_groupby_size.
  - intros n. rewrite elem_of_groupby_size, <- Hun. split.
    + intros (l & [= <-] & Hl & ->). split; [done|].
      rewrite members_count. apply count_NaT.
    + intros [Hl ->]. exists "NaT". split; [done|]. split; [done|].
      rewrite members_count. symmetry. apply count_NaT.
  - rewrite <- Hun.
    set (rev := groupby_sum String.leb _ _).
    assert (Hlen' : length rev = length (fillna0 <$> pct_change rev.*2)).
    { by rewrite length_fmap, length_pct_change, length_fmap. }
    assert (Hkey : (∃ r, (Some "NaT", r) ∈ rev)
                   ↔ Some "NaT" ∈ (Some ∘ month_label <$> dates)).
    { unfold rev. split.
      - intros (r & (l & [= <-] & Hl & _)%elem_of_groupby_sum).
        apply elem_of_expand_left in Hl; [done|]. by rewrite length_fmap.
      - intros Hl. eexists. apply elem_of_groupby_sum. exists "NaT".
        split; [done|]. split; [|done].
        apply elem_of_expand_left; [|done]. by rewrite length_fmap. }
    rewrite <- Hkey. split.
    + intros (r & p & Hrow). exists r. by eapply elem_of_zip_fst.
    + intros (r & Hr). apply list_elem_of_lookup in Hr as [i Hi].
      destruct (lookup_lt_is_Some_2 (fillna0 <$> pct_change rev.*2) i)
        as [p Hp].
      { rewrite <- Hlen'. by eapply lookup_lt_Some. }
      exists r, p. apply list_elem_of_lookup. exists i.
      apply lookup_zip_with_Some. by exists (Some "NaT", r), p.
  - apply month_label_before_NaT.
Qed.

(** X7. When the client ids of the client table are distinct, the join
    neither repeats nor drops a purchase: the revenue of a month is the
    sum of the present amounts of the purchases of that month, and the
    revenues of monthly_revenue add up to the sum of all present
    amounts. *)
Theorem revenue_with_distinct_clients
    (clients achats : frame) (ids : column) (dates : list (option timestamp))
    (amounts : list (option Qc)) (cids pays : column) :
  gold_inputs clients achats ids dates amounts cids pays →
  NoDup (cells cids) →
  let labels := Some ∘ month_label <$> dates in
  ∃ k, compute_kpis clients achats = Some k
    ∧ (∀ m r p, (m, r, p) ∈ monthly_revenue k →
         ∃ l, m = Some l ∧ Some l ∈ labels
              ∧ r = sum_present (members l labels amounts))
    ∧ qsum (monthly_revenue k).*1.*2 = sum_present amounts.
Proof.
  intros Hin Hnd labels.
  pose proof (compute_kpis_tables _ _ _ _ _ _ _ Hin) as Hk.
  cbv zeta in Hk. eexists. split; [exact Hk|]. simpl.
  destruct Hin as [(dc & Hdc & Hdates & Hlen) _ _ Halen _ _ _ _ _ _].
  assert (Hld : length (cells ids) = length labels).
  { unfold labels. rewrite length_fmap, Hdates, to_datetime_length.
    symmetry. exact Hlen. }
  assert (Hla : length (cells ids) = length amounts) by (by rewrite Halen).
  rewrite !(expand_left_NoDup (cells ids) (cells cids)) by done.
  fold labels. set (rev := groupby_sum String.leb labels amounts).
  split.
  - intros m r p Hrow. apply elem_of_zip_fst in Hrow.
    apply elem_of_groupby_sum in Hrow as (l & -> & Hl & ->). by exists l.
  - rewrite fst_zip
      by (rewrite length_fmap, length_pct_change, length_fmap; lia).
    unfold rev, groupby_sum. rewrite <- list_fmap_compose.
    unfold labels. rewrite (list_fmap_compose month_label Some).
    rewrite <- (group_sums_total
                  (group_keys String.leb (Some <$> (month_label <$> dates)))
                  (month_label <$> dates) amounts).
    + done.
    + apply group_keys_NoDup.
    + intros l Hl. apply (elem_of_group_keys String.leb).
      by apply list_elem_of_fmap_2.
    + rewrite length_fmap. unfold labels in Hld.
      rewrite length_fmap in Hld. lia.
Qed.

End aggregation_totals.

(** ** Aggregation stage: labels of the join *)
Module Collisions.
Import PyStr Frame Gold.

(** A label that both frames carry is not a label of the join: it comes
    twice, with the suffixes "_x" and "_y". *)
Lemma col_lookup_rename_None (f : string → string) (g : column → column)
    name (df : frame) :
  (∀ n, n ∈ columns df → f n ≠ name) →
  col_lookup name ((λ nc : string * column, (f nc.1, g nc.2)) <$> df) = None.
Proof.
  unfold columns. induction df as [|[n c] df IH]; intros Hf; [done|].
  rewrite fmap_cons. simpl.
  rewrite decide_False by apply Hf, list_elem_of_here.
  apply IH. intros n' Hn'. by apply Hf, list_elem_of_further.
Qed.

Lemma merge_lookup_both key name left right lk rk :
  plain name → name ≠ key →
  name ∈ columns left → name ∈ columns right →
  col_lookup name (merged key left right lk rk) = None.
Proof.
  intros Hp Hk Hl Hr. unfold merged. rewrite col_lookup_app.
  rewrite (col_lookup_rename_None (left_label key right)).
  - apply (col_lookup_rename_None (right_label left)).
    intros n _. unfold right_label.
    destruct (bool_decide_reflect (n ∈ columns left)) as [Hin|Hin].
    + apply (Hp n).
    + by intros ->.
  - intros n _. unfold left_label.
    destruct (bool_decide_reflect (n ≠ key ∧ n ∈ columns right))
      as [Hin|Hin].
    + apply (Hp n).
    + intros ->. by apply Hin.
Qed.

Section periods.
Context `{Pandas}.

Lemma with_periods_columns achats a2 day name :
  with_periods achats = Some (a2, day) →
  name ∈ columns a2 ↔ name = "month" ∨ name ∈ columns achats.
Proof.
  unfold with_periods.
  destruct (col_lookup "date_achat" achats) as [c|] eqn:E.
  - rewrite col_lookup_set_column, decide_True by done. simpl.
    intros [= <- _]. rewrite !columns_set_column.
    assert ("date_achat" ∈ columns achats).
    { apply col_lookup_is_Some. by eexists. }
    split; [intros [?|[->|?]]; auto|intros [?|?]; auto].
  - by rewrite E.
Qed.

Lemma merge_left_Some key left right joined :
  merge_left key left right = Some joined →
  ∃ lk rk, joined = merged key left right lk rk.
Proof.
  unfold merge_left.
  destruct (col_lookup key left) as [lk|]; [|done]. simpl.
  destruct (col_lookup key right) as [rk|]; [|done]. simpl.
  destruct (mergeable lk rk); [|done]. intros [= <-]. by eexists _, _.
Qed.
End periods.
End Collisions.

Section aggregation_errors.
Import PyStr Frame Gold Collisions.
Context `{Pandas}.

(** X8. The aggregation raises when one of the labels it reads from the
    join is a label of both tables, since the join then carries it twice,
    as "<label>_x" and "<label>_y": montant or pays in both tables, or a
    column month in the client table (the purchase table gets one from
    the aggregation itself). It raises as well without a date_achat
    column, although the parsing of that column is guarded. *)
Theorem aggregation_label_collision (clients achats : frame) :
  ("montant" ∈ columns achats ∧ "montant" ∈ columns clients)
  ∨ ("pays" ∈ columns achats ∧ "pays" ∈ columns clients)
  ∨ "month" ∈ columns clients
  ∨ "date_achat" ∉ columns achats →
  compute_kpis clients achats = None.
Proof.
  intros Hcase. unfold compute_kpis.
  destruct (with_periods achats) as [[a2 day]|] eqn:Hp; [|done]. simpl.
  destruct (col_lookup "month" a2) as [month|]; [|done]. simpl.
  destruct (merge_left "id_client" a2 clients) as [j|] eqn:Hm; [|done].
  simpl. apply merge_left_Some in Hm as (lk & rk & ->).
  pose proof (λ name, with_periods_columns achats a2 day name Hp) as Hcols.
  destruct Hcase as [[Ha Hc]|[[Ha Hc]|[Hc|Hd]]].
  - destruct (col_lookup "pays" _); [|done]. simpl.
    rewrite (merge_lookup_both "id_client" "montant"); try done.
    + apply plain_montant.
    + apply Hcols. by right.
  - rewrite (merge_lookup_both "id_client" "pays"); try done.
    + apply plain_pays.
    + apply Hcols. by right.
  - destruct (col_lookup "pays" _); [|done]. simpl.
    destruct (col_lookup "montant" _); [|done]. simpl.
    rewrite (merge_lookup_both "id_client" "month"); try done.
    + apply plain_month.
    + apply Hcols. by left.
  - unfold with_periods in Hp.
    rewrite (col_lookup_None _ _ Hd) in Hp. simpl in Hp.
    by rewrite (col_lookup_None _ _ Hd) in Hp.
Qed.

End aggregation_errors.

Section aggregation_totals_examples.
Import PyStr Frame Gold Totals Instance Examples.

(** Two purchases of one client, the second without a date. *)
Definition one_undated : frame :=
  [("id_achat", FloatCol [Some (q 1 1); Some (q 2 1)]);
   ("id_client", FloatCol [Some (q 1 1); Some (q 1 1)]);
   ("date_achat", DatetimeCol [ts 2024 1 10; None]);
   ("montant", FloatCol [Some (q 100 1); Some (q 150 1)])].

Lemma one_undated_inputs :
  gold_inputs one_client one_undated
    (FloatCol [Some (q 1 1); Some (q 1 1)])
    [ts 2024 1 10; None]
    [Some (q 100 1); Some (q 150 1)]
    (FloatCol [Some (q 1 1)]) (ObjectCol [Some "France"]).
Proof.
  split; try done; try by_compute.
  exists (DatetimeCol [ts 2024 1 10; None]). by repeat split.
Defined.

Lemma volumes_count_every_purchase_witness :
  gold_inputs one_client one_undated
    (FloatCol [Some (q 1 1); Some (q 1 1)])
    [ts 2024 1 10; None]
    [Some (q 100 1); Some (q 150 1)]
    (FloatCol [Some (q 1 1)]) (ObjectCol [Some "France"])
  ∧ (∃ k, compute_kpis one_client one_undated = Some k
          ∧ sum_list (volumes_day k).*2 = 1%nat
          ∧ sum_list (volumes_month k).*2 = 2%nat).
Proof.
  split; [exact one_undated_inputs|].
  destruct (volumes_count_every_purchase _ _ _ _ _ _ _ one_undated_inputs)
    as (k & Hk & _ & Hday & Hmonth).
  exists k. split; [exact Hk|]. split; [exact Hday|exact Hmonth].
Defined.

Lemma undated_purchases_under_NaT_witness :
  gold_inputs one_client one_undated
    (FloatCol [Some (q 1 1); Some (q 1 1)])
    [ts 2024 1 10; None]
    [Some (q 100 1); Some (q 150 1)]
    (FloatCol [Some (q 1 1)]) (ObjectCol [Some "France"])
  ∧ (∃ k, compute_kpis one_client one_undated = Some k
          ∧ (Some "NaT", 1%nat) ∈ volumes_month k
          ∧ (∃ r p, (Some "NaT", r, p) ∈ monthly_revenue k)).
Proof.
  split; [exact one_undated_inputs|].
  destruct (undated_purchases_under_NaT _ _ _ _ _ _ _ one_undated_inputs)
    as (k & Hk & _ & Hmonth & Hrev & _).
  exists k. split; [exact Hk|]. split.
  - apply Hmonth. split; [vm_compute; lia|reflexivity].
  - apply Hrev. vm_compute. lia.
Defined.

Lemma revenue_with_distinct_clients_witness :
  gold_inputs one_client one_undated
    (FloatCol [Some (q 1 1); Some (q 1 1)])
    [ts 2024 1 10; None]
    [Some (q 100 1); Some (q 150 1)]
    (FloatCol [Some (q 1 1)]) (ObjectCol [Some "France"])
  ∧ NoDup (cells (FloatCol [Some (q 1 1)]))
  ∧ (∃ k, compute_kpis one_client one_undated = Some k
          ∧ qsum (monthly_revenue k).*1.*2
            = sum_present [Some (q 100 1); Some (q 150 1)]).
Proof.
  assert (Hnd : NoDup (cells (FloatCol [Some (q 1 1)]))) by by_compute.
  split; [exact one_undated_inputs|]. split; [exact Hnd|].
  destruct (revenue_with_distinct_clients _ _ _ _ _ _ _
              one_undated_inputs Hnd) as (k & Hk & _ & Htotal).
  exists k. split; [exact Hk|exact Htotal].
Defined.

(** A client table that has a column month of its own. *)
Lemma aggregation_label_collision_witness :
  "month" ∈ columns (("month", ObjectCol [Some "May"]) :: one_client)
  ∧ compute_kpis (("month", ObjectCol [Some "May"]) :: one_client) two_months
    = None.
Proof.
  assert (Hm : "month"
               ∈ columns (("month", ObjectCol [Some "May"]) :: one_client))
    by by_compute.
  split; [exact Hm|].
  apply aggregation_label_collision. right. right. left. exact Hm.
Defined.

End aggregation_totals_examples.

(** ** Aggregation stage: every purchase with a client and a country *)
Module JoinOnce.
Import PyStr Frame Gold Totals.

Lemma matches_from_cons (k x : cell) rk m :
  omap (λ jk : nat * cell, if decide (jk.2 = k) then Some jk.1 else None)
    (zip (seq m (length (x :: rk))) (x :: rk))
  = if decide (x = k)
    then m :: omap (λ jk : nat * cell,
                      if decide (jk.2 = k) then Some jk.1 else None)
                (zip (seq (S m) (length rk)) rk)
    else omap (λ jk : nat * cell,
                 if decide (jk.2 = k) then Some jk.1 else None)
           (zip (seq (S m) (length rk)) rk).
Proof. simpl. by destruct (decide (x = k)). Qed.

Lemma matches_from_unmatched (k : cell) rk m :
  k ∉ rk →
  omap (λ jk : nat * cell, if decide (jk.2 = k) then Some jk.1 else None)
    (zip (seq m (length rk)) rk) = [].
Proof.
  revert m. induction rk as [|y rk IH]; intros m Hk; simpl; [done|].
  apply not_elem_of_cons in Hk as [Hne Hk].
  rewrite decide_False by done. by apply IH.
Qed.

Lemma matches_from_one (k : cell) rk m j :
  NoDup rk → rk !! j = Some k →
  omap (λ jk : nat * cell, if decide (jk.2 = k) then Some jk.1 else None)
    (zip (seq m (length rk)) rk) = [(m + j)%nat].
Proof.
  revert m j. induction rk as [|x rk IH]; intros m [|j] Hnd; try done.
  - intros [= ->]. apply NoDup_cons in Hnd as [Hx _].
    rewrite matches_from_cons, decide_True by done.
    rewrite (matches_from_unmatched k rk _ Hx). f_equal. lia.
  - intros Hj. apply NoDup_cons in Hnd as [Hx Hnd].
    rewrite matches_from_cons, decide_False.
    + rewrite (IH (S m) j Hnd Hj). f_equal. lia.
    + intros ->. apply Hx. by eapply list_elem_of_lookup_2.
Qed.

(** With distinct keys on the right, a left row that has a match is
    joined with that one row. *)
Lemma joined_right_one {A} (k : cell) rk (vs : list (option A)) j :
  NoDup rk → rk !! j = Some k →
  joined_right k rk vs = [mjoin (vs !! j)].
Proof.
  intros Hnd Hj. unfold joined_right, matches.
  by rewrite (matches_from_one k rk 0 j Hnd Hj).
Qed.

Lemma expand_right_present (lk rk : list cell) (vs : list cell) :
  NoDup rk →
  (∀ key, key ∈ lk →
     ∃ j c, rk !! j = Some key ∧ vs !! j = Some (Some c)) →
  ∃ cs, expand_right lk rk vs = Some <$> cs ∧ length cs = length lk.
Proof.
  intros Hnd. induction lk as [|k lk IH]; intros Hall.
  - by exists [].
  - destruct IH as (cs & Hcs & Hlen).
    { intros key Hkey. by apply Hall, list_elem_of_further. }
    destruct (Hall k) as (j & c & Hj & Hc); [apply list_elem_of_here|].
    exists (c :: cs). rewrite expand_right_cons, Hcs.
    rewrite (joined_right_one k rk vs j Hnd Hj), Hc. simpl.
    split; [done|]. by rewrite Hlen.
Qed.

Section month_total.
Context `{Pandas}.

Lemma monthly_total_distinct clients achats ids dates amounts cids pays :
  gold_inputs clients achats ids dates amounts cids pays →
  NoDup (cells cids) →
  ∃ k, compute_kpis clients achats = Some k
    ∧ qsum (monthly_revenue k).*1.*2 = sum_present amounts.
Proof.
  intros Hin Hnd.
  pose proof (compute_kpis_tables _ _ _ _ _ _ _ Hin) as Hk.
  cbv zeta in Hk. eexists. split; [exact Hk|]. simpl.
  destruct Hin as [(dc & Hdc & Hdates & Hlen) _ _ Halen _ _ _ _ _ _].
  assert (Hld : length (cells ids) = length (Some ∘ month_label <$> dates)).
  { rewrite length_fmap, Hdates, to_datetime_length. symmetry. exact Hlen. }
  assert (Hla : length (cells ids) = length amounts) by (by rewrite Halen).
  rewrite !(expand_left_NoDup (cells ids) (cells cids)) by done.
  rewrite fst_zip
    by (rewrite length_fmap, length_pct_change, length_fmap; lia).
  unfold groupby_sum. rewrite <- list_fmap_compose.
  rewrite (list_fmap_compose month_label Some).
  rewrite <- (group_sums_total
                (group_keys String.leb (Some <$> (month_label <$> dates)))
                (month_label <$> dates) amounts).
  - done.
  - apply group_keys_NoDup.
  - intros l Hl. apply (elem_of_group_keys String.leb).
    by apply list_elem_of_fmap_2.
  - rewrite length_fmap. rewrite length_fmap in Hld. lia.
Qed.
End month_total.

End JoinOnce.

Section aggregation_agreement.
Import PyStr Frame Gold Totals JoinOnce.
Context `{Pandas}.

(** X9. When the client ids of the client table are distinct and every
    purchase is of a client of the table who has a country, the two
    breakdowns agree: the sums of ca_by_country and the revenues of
    monthly_revenue both add up to the sum of the present amounts. *)
Theorem country_and_month_totals_agree
    (clients achats : frame) (ids : column) (dates : list (option timestamp))
    (amounts : list (option Qc)) (cids pays : column) :
  gold_inputs clients achats ids dates amounts cids pays →
  NoDup (cells cids) →
  (∀ key, key ∈ cells ids →
     ∃ j c, cells cids !! j = Some key ∧ cells pays !! j = Some (Some c)) →
  ∃ k, compute_kpis clients achats = Some k
    ∧ qsum (ca_by_country k).*2 = sum_present amounts
    ∧ qsum (monthly_revenue k).*1.*2 = sum_present amounts.
Proof.
  intros Hin Hnd Hall.
  destruct (monthly_total_distinct clients achats ids dates amounts cids pays
              Hin Hnd) as (k & Hk & Hrev).
  exists k. split; [exact Hk|]. split; [|exact Hrev].
  pose proof (compute_kpis_tables _ _ _ _ _ _ _ Hin) as Hk'.
  cbv zeta in Hk'. rewrite Hk in Hk'. injection Hk' as ->. simpl.
  destruct Hin as [_ _ _ Halen _ _ _ _ _ _].
  assert (Hla : length (cells ids) = length amounts) by (by rewrite Halen).
  rewrite (expand_left_NoDup (cells ids) (cells cids)) by done.
  destruct (expand_right_present (cells ids) (cells cids) (cells pays)
              Hnd Hall) as (cs & -> & Hlen).
  unfold groupby_sum. rewrite <- list_fmap_compose.
  rewrite <- (group_sums_total (group_keys value_leb (Some <$> cs))
                cs amounts).
  - done.
  - apply group_keys_NoDup.
  - intros c Hc. apply (elem_of_group_keys value_leb).
    by apply list_elem_of_fmap_2.
  - lia.
Qed.

End aggregation_agreement.

Section aggregation_agreement_examples.
Import PyStr Frame Gold Instance Examples.

Lemma country_and_month_totals_agree_witness :
  gold_inputs one_client one_undated
    (FloatCol [Some (q 1 1); Some (q 1 1)])
    [ts 2024 1 10; None]
    [Some (q 100 1); Some (q 150 1)]
    (FloatCol [Some (q 1 1)]) (ObjectCol [Some "France"])
  ∧ NoDup (cells (FloatCol [Some (q 1 1)]))
  ∧ (∃ k, compute_kpis one_client one_undated = Some k
          ∧ qsum (ca_by_country k).*2
            = sum_present [Some (q 100 1); Some (q 150 1)]).
Proof.
  assert (Hnd : NoDup (cells (FloatCol [Some (q 1 1)]))) by by_compute.
  assert (Hall : ∀ key,
            key ∈ cells (FloatCol [Some (q 1 1); Some (q 1 1)]) →
            ∃ j c, cells (FloatCol [Some (q 1 1)]) !! j = Some key
                   ∧ cells (ObjectCol [Some "France"]) !! j
                     = Some (Some c)).
  { intros key Hkey. exists 0%nat, (VStr "France"). simpl in Hkey.
    rewrite !elem_of_cons in Hkey.
    destruct Hkey as [->|[->|Hnil]]; [by split|by split|].
    by apply elem_of_nil in Hnil. }
  split; [exact one_undated_inputs|]. split; [exact Hnd|].
  destruct (country_and_month_totals_agree _ _ _ _ _ _ _
              one_undated_inputs Hnd Hall) as (k & Hk & Hca & _).
  exists k. split; [exact Hk|exact Hca].
Defined.

End aggregation_agreement_examples.

(** ** Publication stage: what a publication leaves behind *)
Module Republish.
Import Frame PyTime Mongo.

(** *** Setting fields twice *)



Lemma doc_get_set_is_Some k k' v d :
  is_Some (doc_get k (doc_set k v d))
  ∧ (is_Some (doc_get k d) → is_Some (doc_get k (doc_set k' v d))).
Proof.
  split; [rewrite doc_get_set; by eexists|].
  destruct (decide (k' = k)) as [->|Hne].
  - rewrite doc_get_set. by eexists.
  - by rewrite doc_get_set_ne.
Qed.


(** *** Upserting twice *)

(** The collection after the upsert of [f] on the filter [p], the filter
    document being [seed]. *)
Definition upserted (p : doc → bool) (f : doc → doc) (seed : doc)
    (l : list doc) : list doc :=
  match update_first p f l with
  | Some l' => l'
  | None => (l ++ [f seed])%list
  end.


(** A publication leaves the other collections as they are. *)
Lemma write_lookup_ne isoformat now df name metadata (db : database) c :
  c ≠ name → c ≠ "ingest_metadata" →
  write_df_to_mongo isoformat now df name metadata db !! c = db !! c.
Proof.
  intros Hc Hm. unfold write_df_to_mongo, update_one_upsert.
  assert (Hdata : ∀ db0 : database,
            (if empty df then delete_many_all name db0
             else insert_many name (to_records df)
                    (delete_many_all name db0)) !! c = db0 !! c).
  { intros db0. unfold insert_many, delete_many_all.
    destruct (empty df).
    - by rewrite lookup_alter_ne.
    - rewrite lookup_insert_ne by done. by rewrite lookup_alter_ne. }
  destruct (update_first _ _ _);
    rewrite lookup_insert_ne by done; apply Hdata.
Qed.

End Republish.

Section publication_effects.
Import Frame PyTime Mongo Republish.
Context (isoformat : datetime → string).

(** X10. A publication touches two collections only, the one of the
    table and ingest_metadata: any other collection is left as it was,
    and ingest_metadata exists afterwards. *)
Theorem publication_leaves_others (now : datetime) (df : frame)
    (name : string) (metadata : doc) (db : database) :
  let db' := write_df_to_mongo isoformat now df name metadata db in
  (∀ c, c ≠ name → c ≠ "ingest_metadata" → db' !! c = db !! c)
  ∧ is_Some (db' !! "ingest_metadata").
Proof.
  intros db'. unfold db'. split.
  - intros c Hc Hm. by apply write_lookup_ne.
  - unfold write_df_to_mongo, update_one_upsert.
    destruct (update_first _ _ _); rewrite lookup_insert_eq; by eexists.
Qed.


End publication_effects.

(** ** Publication stage: the documents of a table *)
Module Records.
Import Frame PyTime Mongo.

Lemma rows_n_width n df r : r ∈ rows_n n df → length r = length df.
Proof.
  revert r. induction df as [|[l c] df IH]; intros r; simpl.
  - by intros [-> _]%elem_of_replicate.
  - intros Hr. apply list_elem_of_lookup in Hr as [i Hi].
    apply lookup_zip_with_Some in Hi as (x & r' & -> & _ & Hr').
    simpl. f_equal. apply IH. by eapply list_elem_of_lookup_2.
Qed.

(** A field of a record made of labels and values: the value under the
    first occurrence of the label. *)
Lemma doc_get_zip n labels (vals : list bson) i :
  label_index n labels = Some i → length vals = length labels →
  doc_get n (zip labels vals) = vals !! i.
Proof.
  revert vals i. induction labels as [|l labels IH]; intros [|v vals] i;
    simpl; try done.
  destruct (decide (l = n)) as [->|Hne].
  - by intros [= <-].
  - destruct (label_index n labels) as [j|] eqn:E; [|done].
    intros [= <-] [= Hl]. simpl. by apply IH.
Qed.

Lemma label_index_Some n labels :
  n ∈ labels → ∃ i, label_index n labels = Some i ∧ (i < length labels)%nat.
Proof.
  induction labels as [|l labels IH]; [by intros ?%elem_of_nil|].
  simpl. destruct (decide (l = n)) as [->|Hne].
  - intros _. exists 0%nat. split; [done|lia].
  - intros [->|Hin]%elem_of_cons; [done|].
    destruct (IH Hin) as (i & -> & Hi). exists (S i). split; [done|lia].
Qed.

(** The column a label selects is the one at the position of the label. *)
Lemma col_lookup_index n df c :
  col_lookup n df = Some c →
  ∃ j, label_index n (columns df) = Some j ∧ df.*2 !! j = Some c.
Proof.
  induction df as [|[l c'] df IH]; simpl; [done|].
  destruct (decide (l = n)) as [->|Hne].
  - intros [= ->]. by exists 0%nat.
  - intros Hc. destruct (IH Hc) as (j & -> & Hj). by exists (S j).
Qed.

(** The record of row [i]: the labels of the table in order, and under
    a label the cell of that row in the column of that label. *)
Lemma to_records_field df n c i :
  uniform (nrows df) df → col_lookup n df = Some c →
  (i < nrows df)%nat →
  ∃ rec v, to_records df !! i = Some rec
    ∧ rec.*1 = columns df
    ∧ cells c !! i = Some v
    ∧ doc_get n rec = Some (encode c v).
Proof.
  intros Hu Hc Hi.
  destruct (lookup_lt_is_Some_2 (rows df) i) as [r Hr].
  { by rewrite (rows_length _ _ Hu). }
  assert (Hw : length r = length df).
  { apply (rows_n_width (nrows df)). by eapply list_elem_of_lookup_2. }
  exists (zip (columns df) (zip_with encode df.*2 r)),
    (row_cell (columns df) n r).
  split; [|split; [|split]].
  - unfold to_records. by rewrite list_lookup_fmap, Hr.
  - apply fst_zip. unfold columns.
    rewrite length_zip_with, !length_fmap. lia.
  - by apply rows_column_lookup.
  - destruct (col_lookup_index n df c Hc) as (j & Hj & Hcj).
    rewrite (doc_get_zip n _ _ j Hj).
    2:{ unfold columns. rewrite length_zip_with, !length_fmap. lia. }
    unfold row_cell. rewrite Hj, lookup_zip_with, Hcj. simpl.
    destruct (lookup_lt_is_Some_2 r j) as [x Hx].
    { rewrite Hw. apply lookup_lt_Some in Hcj.
      by rewrite length_fmap in Hcj. }
    by rewrite Hx.
Qed.

End Records.

Section publication_records.
Import Frame PyTime Mongo Records.
Context (isoformat : datetime → string).

(** X12. After the publication of a table that has rows, under a name
    other than ingest_metadata, the collection holds one document per
    row, in row order; the fields of a document are the column labels, in
    column order; and a text or a number of the table is the value of the
    field of its column in the document of its row. *)
Theorem published_documents (now : datetime) (df : frame) (name : string)
    (metadata : doc) (db : database) (n : string) (c : column) (i : nat) :
  name ≠ "ingest_metadata" →
  uniform (nrows df) df → col_lookup n df = Some c → (i < nrows df)%nat →
  let db' := write_df_to_mongo isoformat now df name metadata db in
  length (docs name db') = nrows df
  ∧ ∃ rec, docs name db' !! i = Some rec
      ∧ rec.*1 = columns df
      ∧ (∀ s, cells c !! i = Some (Some (VStr s)) →
           doc_get n rec = Some (BStr s))
      ∧ (∀ q, cells c !! i = Some (Some (VNum q)) →
           doc_get n rec = Some (BNum q)).
Proof.
  intros Hne Hu Hc Hi db'. unfold db'. rewrite docs_write by done.
  assert (He : empty df = false).
  { unfold empty. apply bool_decide_eq_false_2. intros [Hz| ->]; [lia|].
    simpl in Hi. lia. }
  rewrite He. split; [by apply to_records_length|].
  destruct (to_records_field df n c i Hu Hc Hi)
    as (rec & v & Hrec & Hlabels & Hv & Hget).
  exists rec. split; [done|]. split; [done|].
  split; intros x Hx; rewrite Hx in Hv; injection Hv as <-; exact Hget.
Qed.

End publication_records.

Section publication_effects_examples.
Import Frame PyTime Mongo Instance Examples.


Lemma published_documents_witness :
  "ca_by_country" ≠ "ingest_metadata"
  ∧ uniform (nrows one_client) one_client
  ∧ col_lookup "pays" one_client = Some (ObjectCol [Some "France"])
  ∧ (0 < nrows one_client)%nat
  ∧ length (docs "ca_by_country"
              (write_df_to_mongo isoformat_iso noon one_client
                 "ca_by_country" source_time ∅))
    = nrows one_client.
Proof.
  assert (Hne : "ca_by_country" ≠ "ingest_metadata") by done.
  assert (Hu : uniform (nrows one_client) one_client) by by_compute.
  assert (Hc : col_lookup "pays" one_client
               = Some (ObjectCol [Some "France"])) by reflexivity.
  assert (Hi : (0 < nrows one_client)%nat) by (vm_compute; lia).
  split; [exact Hne|]. split; [exact Hu|]. split; [exact Hc|].
  split; [exact Hi|].
  exact (proj1 (published_documents isoformat_iso noon one_client
                  "ca_by_country" source_time ∅ "pays" _ 0%nat
                  Hne Hu Hc Hi)).
Defined.

End publication_effects_examples.

(** ** The collection handlers of [app/api.py] *)
Module Endpoints.
Import PyTime Mongo.

(** What a handler does: it returns a value, raises the [HTTPException]
    of a status, or fails on another exception (a 500 for the client). *)
Inductive reply (A : Type) :=
| Returns (a : A)
| HttpError (status_code : Z) (detail : string)
| Fails.
Arguments Returns {A} a.
Arguments HttpError {A} status_code detail.
Arguments Fails {A}.

(** [db.list_collection_names()]: the collections that exist. A
    collection comes into being with its first document and stays when
    its documents are deleted. The store fixes no order; the order here is
    that of the map. *)
Definition list_collection_names (db : database) : list string :=
  (map_to_list db).*1.

(** [list_collections()]. *)
Definition list_collections (db : database) : list string :=
  List.filter (λ c, negb (String.prefix "system." c))
    (list_collection_names db).

(** The largest integer a BSON document holds: the driver raises
    [OverflowError] on a larger one. *)
Definition int64_max : Z := 2 ^ 63 - 1.

(** [cursor.skip(n)]; [None]: the [ValueError] of a negative [n], or the
    overflow. *)
Definition cursor_skip {A} (n : Z) (l : list A) : option (list A) :=
  if (n <? 0)%Z || (int64_max <? n)%Z then None
  else Some (drop (Z.to_nat n) l).

(** [cursor.limit(n)]: 0 is no limit, and a negative [n] asks for one
    batch of at most [-n] documents (the size bound of a batch is not
    modelled); [None]: the overflow. *)
Definition cursor_limit {A} (n : Z) (l : list A) : option (list A) :=
  if (int64_max <? Z.abs n)%Z then None
  else if (n =? 0)%Z then Some l
  else Some (take (Z.to_nat (Z.abs n)) l).

(** A value of a query, after the coercion of the handler. *)
Inductive qvalue :=
| QInt (n : Z)
| QFloat (x : Gold.xfloat)
| QStr (s : string).

Definition is_digit (c : ascii) : bool :=
  let n := nat_of_ascii c in (48 <=? n)%nat && (n <=? 57)%nat.

(** [str.isdigit()], on the decimal digits of ASCII. *)
Definition isdigit (s : string) : bool :=
  negb (String.eqb s "") && forallb is_digit (list_ascii_of_string s).

Section handlers.
(** [str(d["_id"])] of the document at a position of a collection: the
    store gives every document an [_id], as its first field. *)
Context (oid : string → nat → string).
(** [int(s)] and [float(s)], library functions; [None] when they raise. *)
Context (py_int : string → option Z).
Context (py_float : string → option Gold.xfloat).
(** The documents the store finds for the query [{field: v}]; [None]
    when it rejects the query. *)
Context (find_query : string → qvalue → list doc → option (list doc)).

(** The documents of a collection as a cursor yields them and the
    handlers return them: [d["_id"] = str(d.get("_id"))]. *)
Definition stored (c : string) (db : database) : list doc :=
  imap (λ i d, ("_id", BStr (oid c i)) :: d) (docs c db).

(** [get_collection(name, limit)]. *)
Definition get_collection (name : string) (limit : Z) (db : database)
  : reply (list doc) :=
  if bool_decide (name ∈ list_collection_names db) then
    match cursor_limit limit (stored name db) with
    | Some l => Returns l
    | None => Fails
    end
  else HttpError 404 "Collection not found".

(** Lines 70-79: the filter value as a number when it reads as one. *)
Definition coerce_filter (s : string) : qvalue :=
  if isdigit s
  then match py_int s with Some n => QInt n | None => QStr s end
  else match py_float s with Some x => QFloat x | None => QStr s end.

(** Lines 67-79: the query; [None] is the empty query [{}]. *)
Definition build_query (filter_field filter_value : option string)
  : option (string * qvalue) :=
  match filter_field, filter_value with
  | Some f, Some v =>
      if String.eqb f "" then None else Some (f, coerce_filter v)
  | _, _ => None
  end.

(** [get_collection_items(name, limit, skip, filter_field, filter_value)]:
    the count and the items of the answer. *)
Definition get_collection_items (name : string) (limit skip : Z)
    (filter_field filter_value : option string) (db : database)
  : reply (nat * list doc) :=
  if bool_decide (name ∈ list_collection_names db) then
    let found :=
      match build_query filter_field filter_value with
      | Some (f, v) => find_query f v (stored name db)
      | None => Some (stored name db)
      end in
    match (l ← found; l ← cursor_skip skip l; cursor_limit limit l) with
    | Some items => Returns (length items, items)
    | None => Fails
    end
  else HttpError 404 "Collection not found".

(** [count_collection(name)]: the name and the count of the answer. *)
Definition count_collection (name : string) (db : database)
  : reply (string * nat) :=
  if bool_decide (name ∈ list_collection_names db)
  then Returns (name, length (docs name db))
  else HttpError 404 "Collection not found".

End handlers.

(** *** Facts *)

Lemma elem_of_list_collection_names c (db : database) :
  c ∈ list_collection_names db ↔ is_Some (db !! c).
Proof.
  unfold list_collection_names. rewrite list_elem_of_fmap. split.
  - intros ([c' l] & -> & Hin). apply elem_of_map_to_list in Hin.
    by eexists.
  - intros [l Hl]. exists (c, l). split; [done|].
    by apply elem_of_map_to_list.
Qed.

Lemma elem_of_list_collections c (db : database) :
  c ∈ list_collections db
  ↔ is_Some (db !! c) ∧ String.prefix "system." c = false.
Proof.
  unfold list_collections.
  rewrite list_elem_of_In, filter_In, <- list_elem_of_In.
  rewrite elem_of_list_collection_names, negb_true_iff. done.
Qed.

(** Whether the collection of a table exists after its publication. *)
Lemma write_lookup_name isoformat now df name metadata (db : database) :
  name ≠ "ingest_metadata" →
  is_Some (write_df_to_mongo isoformat now df name metadata db !! name)
  ↔ is_Some (db !! name) ∨ empty df = false.
Proof.
  intros Hne. unfold write_df_to_mongo, update_one_upsert.
  assert (Hdata : is_Some ((if empty df then delete_many_all name db
             else insert_many name (to_records df)
                    (delete_many_all name db)) !! name)
          ↔ is_Some (db !! name) ∨ empty df = false).
  { unfold insert_many, delete_many_all. destruct (empty df).
    - rewrite lookup_alter_eq, fmap_is_Some. split; [by left|].
      by intros [?|?].
    - rewrite lookup_insert_eq. split; [by right|by eexists]. }
  destruct (update_first _ _ _); by rewrite lookup_insert_ne.
Qed.

Lemma write_lookup_metadata isoformat now df name metadata (db : database) :
  is_Some (write_df_to_mongo isoformat now df name metadata db
             !! "ingest_metadata").
Proof.
  unfold write_df_to_mongo, update_one_upsert.
  destruct (update_first _ _ _); rewrite lookup_insert_eq; by eexists.
Qed.

Lemma tail_stored oid c db : tail <$> stored oid c db = docs c db.
Proof.
  unfold stored. generalize (docs c db). intros l.
  rewrite fmap_imap. unfold compose. simpl.
  induction l as [|d l IH] using rev_ind; [done|].
  rewrite imap_app. simpl. by rewrite IH.
Qed.

End Endpoints.

Section collections_after_publication.
Import Frame PyTime Mongo Endpoints.
Context (isoformat : datetime → string).
Context (oid : string → nat → string).
Context (py_int : string → option Z).
Context (py_float : string → option Gold.xfloat).
Context (find_query : string → qvalue → list doc → option (list doc)).

(** X13. The collections the API lists after a publication: never one
    whose name starts with "system.", always ingest_metadata (the
    collection of the metadata records is listed with the tables), the
    collection of the table when it was there before or the table has
    rows, and the other collections that were there before. *)
Theorem listed_after_publication (now : datetime) (df : frame)
    (name : string) (metadata : doc) (db : database) (c : string) :
  name ≠ "ingest_metadata" →
  let db' := write_df_to_mongo isoformat now df name metadata db in
  c ∈ list_collections db'
  ↔ String.prefix "system." c = false
    ∧ (c = "ingest_metadata"
       ∨ (c = name ∧ (is_Some (db !! name) ∨ empty df = false))
       ∨ (c ≠ name ∧ is_Some (db !! c))).
Proof.
  intros Hne db'. unfold db'. rewrite elem_of_list_collections.
  destruct (decide (c = "ingest_metadata")) as [->|Hm].
  - pose proof (write_lookup_metadata isoformat now df name metadata db).
    split; [intros [_ ?]; split; [done|by left]|by intros [_ _]].
  - destruct (decide (c = name)) as [->|Hc].
    + rewrite write_lookup_name by done. split.
      * intros [Hex ?]. split; [done|]. right. left. by split.
      * intros [? [?|[[_ Hex]|[? _]]]]; done.
    + rewrite Republish.write_lookup_ne by done. split.
      * intros [Hex ?]. split; [done|]. right. right. by split.
      * intros [? [?|[[? _]|[_ Hex]]]]; done.
Qed.

(** X14. The publication of a table without rows under a name that has
    no collection yet records its metadata but creates no collection:
    the three collection handlers answer 404 for the name, while its
    metadata record is there. *)
Theorem empty_publication_not_found (now : datetime) (df : frame)
    (name : string) (metadata : doc) (db : database)
    (limit skip : Z) (filter_field filter_value : option string) :
  name ≠ "ingest_metadata" → empty df = true → db !! name = None →
  let db' := write_df_to_mongo isoformat now df name metadata db in
  get_collection oid name limit db' = HttpError 404 "Collection not found"
  ∧ count_collection name db' = HttpError 404 "Collection not found"
  ∧ get_collection_items oid py_int py_float find_query name limit skip
      filter_field filter_value db'
    = HttpError 404 "Collection not found"
  ∧ metadata_of name db' ≠ [].
Proof.
  intros Hne He Hnone db'.
  assert (Hno : name ∉ list_collection_names db').
  { unfold db'. rewrite elem_of_list_collection_names.
    rewrite write_lookup_name by done. rewrite He, Hnone.
    intros [[? ?]|?]; done. }
  unfold get_collection, count_collection, get_collection_items.
  rewrite !bool_decide_eq_false_2 by done.
  split; [done|]. split; [done|]. split; [done|].
  unfold db'. by rewrite metadata_of_write by done.
Qed.

(** X15. A published table read back: when the collection of the table
    exists after the publication (it was there before, or the table has
    rows), the count handler answers with the number of rows of the
    table, and [get_collection] with the documents of the first [limit]
    rows, in row order, each with its [_id] as a string in front; the
    limit 0 is no limit at all. *)
Theorem published_table_read_back (now : datetime) (df : frame)
    (name : string) (metadata : doc) (db : database) (limit : Z) :
  name ≠ "ingest_metadata" → uniform (nrows df) df →
  is_Some (db !! name) ∨ empty df = false →
  (0 ≤ limit ≤ int64_max)%Z →
  let db' := write_df_to_mongo isoformat now df name metadata db in
  let records := if empty df then [] else to_records df in
  count_collection name db' = Returns (name, nrows df)
  ∧ ∃ l, get_collection oid name limit db' = Returns l
      ∧ tail <$> l
        = (if (limit =? 0)%Z then records
           else take (Z.to_nat limit) records)
      ∧ Forall (λ d, ∃ s, head d = Some ("_id", BStr s)) l.
Proof.
  intros Hne Hu Hex Hlim db' records.
  assert (Hin : name ∈ list_collection_names db').
  { unfold db'. rewrite elem_of_list_collection_names.
    by rewrite write_lookup_name. }
  assert (Hdocs : docs name db' = records).
  { unfold db'. by rewrite docs_write. }
  unfold count_collection, get_collection.
  rewrite !bool_decide_eq_true_2 by done. split.
  - rewrite Hdocs. unfold records, empty.
    destruct (bool_decide_reflect (nrows df = 0%nat ∨ df = []))
      as [[->| ->]|_]; [done|done|].
    by rewrite to_records_length.
  - unfold cursor_limit.
    assert (Habs : Z.abs limit = limit) by lia. rewrite Habs.
    assert (Hov : (int64_max <? limit)%Z = false) by lia. rewrite Hov.
    pose proof (tail_stored oid name db') as Htail. rewrite Hdocs in Htail.
    assert (Hids : Forall (λ d : doc, ∃ s, head d = Some ("_id", BStr s))
                     (stored oid name db')).
    { unfold stored. apply list.Forall_forall. intros d Hd.
      apply list_elem_of_lookup in Hd as [i Hi].
      rewrite list_lookup_imap in Hi.
      destruct (docs name db' !! i) as [d0|]; [|done].
      injection Hi as <-. by eexists. }
    destruct (limit =? 0)%Z.
    + eexists. split; [done|]. by split.
    + eexists. split; [done|]. split.
      * by rewrite fmap_take, Htail.
      * by apply Forall_take.
Qed.

(** X16. The pages of [get_collection_items]: the count of an answer is
    the number of its items, at most the limit; and the page after a
    page continues it, the two together being the page of the two limits
    added. *)
Theorem item_pages_tile (name : string) (limit limit2 skip : Z)
    (filter_field filter_value : option string) (db : database)
    (n1 n2 : nat) (p1 p2 : list doc) :
  (0 ≤ skip)%Z → (0 < limit)%Z → (0 < limit2)%Z →
  (skip + limit + limit2 ≤ int64_max)%Z →
  get_collection_items oid py_int py_float find_query name limit skip
    filter_field filter_value db = Returns (n1, p1) →
  get_collection_items oid py_int py_float find_query name limit2
    (skip + limit) filter_field filter_value db = Returns (n2, p2) →
  n1 = length p1 ∧ (Z.of_nat n1 ≤ limit)%Z
  ∧ get_collection_items oid py_int py_float find_query name
      (limit + limit2) skip filter_field filter_value db
    = Returns ((n1 + n2)%nat, (p1 ++ p2)%list).
Proof.
  intros Hs Hl Hl2 Hmax. unfold get_collection_items.
  destruct (bool_decide (name ∈ list_collection_names db)); [|done].
  destruct (match build_query py_int py_float filter_field filter_value with
            | Some (f, v) => find_query f v (stored oid name db)
            | None => Some (stored oid name db)
            end) as [found|]; [|done].
  simpl. unfold cursor_skip, cursor_limit.
  assert (E1 : ((skip <? 0) || (int64_max <? skip))%Z = false) by lia.
  assert (E2 : ((skip + limit <? 0) || (int64_max <? skip + limit))%Z
               = false) by lia.
  rewrite E1, E2. simpl.
  assert (A1 : (int64_max <? Z.abs limit)%Z = false) by lia.
  assert (A2 : (int64_max <? Z.abs limit2)%Z = false) by lia.
  assert (A3 : (int64_max <? Z.abs (limit + limit2))%Z = false) by lia.
  assert (Z1 : (limit =? 0)%Z = false) by lia.
  assert (Z2 : (limit2 =? 0)%Z = false) by lia.
  assert (Z3 : (limit + limit2 =? 0)%Z = false) by lia.
  rewrite A1, A2, A3, Z1, Z2, Z3.
  intros [= <- <-] [= <- <-].
  split; [done|]. split.
  - rewrite length_take. lia.
  - f_equal. rewrite <- length_app. f_equal; f_equal.
    all: replace (Z.to_nat (skip + limit))
           with (Z.to_nat skip + Z.to_nat (Z.abs limit))%nat by lia;
      rewrite <- drop_drop, take_take_drop; f_equal; lia.
Qed.

End collections_after_publication.

Section collections_examples.
Import Frame PyTime Mongo Endpoints Instance Examples.

(** Parameters for running the handlers: every [_id] reads "id", no
    filter value reads as a number, and the store finds every document. *)
Definition oid0 (c : string) (i : nat) : string := "id".
Definition no_int (s : string) : option Z := None.
Definition no_float (s : string) : option Gold.xfloat := None.
Definition find_all (f : string) (v : qvalue) (l : list doc)
  : option (list doc) := Some l.

Definition two_docs : database :=
  {[ "t" := [[("a", BNum (q 1 1))]; [("a", BNum (q 2 1))]] ]}.

Lemma listed_after_publication_witness :
  "ca_by_country" ≠ "ingest_metadata"
  ∧ "ingest_metadata"
    ∈ list_collections
        (write_df_to_mongo isoformat_iso noon one_client "ca_by_country"
           source_time ∅).
Proof.
  assert (Hne : "ca_by_country" ≠ "ingest_metadata") by done.
  split; [exact Hne|].
  apply (listed_after_publication isoformat_iso noon one_client
           "ca_by_country" source_time ∅ "ingest_metadata" Hne).
  split; [reflexivity|]. left. reflexivity.
Defined.

Lemma empty_publication_not_found_witness :
  "volumes_day" ≠ "ingest_metadata"
  ∧ empty [] = true
  ∧ (∅ : database) !! "volumes_day" = None
  ∧ count_collection "volumes_day"
      (write_df_to_mongo isoformat_iso noon [] "volumes_day" source_time ∅)
    = HttpError 404 "Collection not found".
Proof.
  assert (Hne : "volumes_day" ≠ "ingest_metadata") by done.
  assert (He : empty [] = true) by (vm_compute; reflexivity).
  assert (Hnone : (∅ : database) !! "volumes_day" = None) by reflexivity.
  split; [exact Hne|]. split; [exact He|]. split; [exact Hnone|].
  exact (proj1 (proj2 (empty_publication_not_found isoformat_iso oid0
                         no_int no_float find_all noon [] "volumes_day"
                         source_time ∅ 100 0 None None Hne He Hnone))).
Defined.

Lemma published_table_read_back_witness :
  "ca_by_country" ≠ "ingest_metadata"
  ∧ uniform (nrows one_client) one_client
  ∧ empty one_client = false
  ∧ (0 ≤ 0 ≤ int64_max)%Z
  ∧ count_collection "ca_by_country"
      (write_df_to_mongo isoformat_iso noon one_client "ca_by_country"
         source_time ∅)
    = Returns ("ca_by_country", nrows one_client).
Proof.
  assert (Hne : "ca_by_country" ≠ "ingest_metadata") by done.
  assert (Hu : uniform (nrows one_client) one_client) by by_compute.
  assert (He : empty one_client = false) by (vm_compute; reflexivity).
  assert (Hl : (0 ≤ 0 ≤ int64_max)%Z) by (unfold int64_max; lia).
  split; [exact Hne|]. split; [exact Hu|]. split; [exact He|].
  split; [exact Hl|].
  exact (proj1 (published_table_read_back isoformat_iso oid0 noon
                  one_client "ca_by_country" source_time ∅ 0
                  Hne Hu (or_intror He) Hl)).
Defined.

Lemma item_pages_tile_witness :
  get_collection_items oid0 no_int no_float find_all "t" 1 0 None None
    two_docs
  = Returns (1%nat, [[("_id", BStr "id"); ("a", BNum (q 1 1))]])
  ∧ get_collection_items oid0 no_int no_float find_all "t" 1 (0 + 1)
      None None two_docs
    = Returns (1%nat, [[("_id", BStr "id"); ("a", BNum (q 2 1))]])
  ∧ get_collection_items oid0 no_int no_float find_all "t" (1 + 1) 0
      None None two_docs
    = Returns (2%nat, [[("_id", BStr "id"); ("a", BNum (q 1 1))];
                       [("_id", BStr "id"); ("a", BNum (q 2 1))]]).
Proof.
  assert (H1 : get_collection_items oid0 no_int no_float find_all "t" 1 0
                 None None two_docs
               = Returns (1%nat, [[("_id", BStr "id"); ("a", BNum (q 1 1))]]))
    by (vm_compute; reflexivity).
  assert (H2 : get_collection_items oid0 no_int no_float find_all "t" 1
                 (0 + 1) None None two_docs
               = Returns (1%nat, [[("_id", BStr "id"); ("a", BNum (q 2 1))]]))
    by (vm_compute; reflexivity).
  split; [exact H1|]. split; [exact H2|].
  refine (proj2 (proj2 (item_pages_tile oid0 no_int no_float find_all "t"
                          1 1 0 None None two_docs _ _ _ _ _ _ _ _
                          H1 H2))); unfold int64_max; lia.
Defined.

End collections_examples.

(** ** Freshness resolver: after a publication, and on other values *)
Section resolver_after_publication.
Import Frame PyTime Mongo Api.
Context (isoformat : datetime → string).
Context (fromisoformat : string → option datetime).

(** X17. What a publication records is what the resolver reports, when
    the caller gave a last modification that is a timestamp: for a table
    published at [now] and resolved at [now'], the resolver returns, the
    ingest time is the ISO string of [now], the age of the ingestion is
    the seconds from [now] to [now'], whatever the metadata collection
    held before, and the delay from source to ingest is the seconds from
    that last modification to [now]. When the caller gave none, or a
    string that does not parse, the resolver raises on the record of that
    publication. The ISO string of [now] is taken to parse back to [now],
    as it does in Python, and a last modification that is a date to be in
    whole milliseconds, which is what the store keeps. *)
Theorem published_age_resolved (now now' : datetime) (df : frame)
    (name : string) (metadata : doc) (db : database) :
  name ≠ "ingest_metadata" →
  fromisoformat (isoformat now) = Some now →
  is_Some (dt_offset now') →
  let lm := default BNull (doc_get "last_modified" metadata) in
  stamp_field lm →
  (∀ d, lm = BDate d → (dt_micro d mod 1000 = 0)%Z) →
  let answer :=
    get_metadata fromisoformat now' name
      (write_df_to_mongo isoformat now df name metadata db) in
  (∀ src, stamp fromisoformat lm = Some src →
     ∃ info, answer = Ok info
       ∧ ingest_time info = BStr (isoformat now)
       ∧ delta_ingest_to_now_seconds info
         = Some (total_seconds (instant now' - instant now))
       ∧ delta_source_to_ingest_seconds info
         = Some (total_seconds (instant now - instant src)))
  ∧ (stamp fromisoformat lm = None → answer = Raised).
Proof.
  intros Hne Hiso Hoff lm Hlm _ answer. unfold answer.
  set (db' := write_df_to_mongo isoformat now df name metadata db).
  set (old := default [("collection", BStr name)]
                (head (metadata_of name db))).
  set (m := apply_set (ingest_meta isoformat now name metadata) old).
  assert (Hfind : find_one "ingest_metadata" (by_collection name) db'
                  = Some m).
  { rewrite find_one_metadata. unfold db'.
    by rewrite metadata_of_write by done. }
  assert (Hsrc : source_field m = Some lm).
  { unfold source_field, m. rewrite ingest_meta_source_info.
    by rewrite doc_get_set. }
  assert (Hing : ingest_field m = BStr (isoformat now)).
  { unfold ingest_field, m. by rewrite ingest_meta_ingest_time. }
  assert (Hi : stamp_field (ingest_field m)).
  { rewrite Hing. right; left; by eexists. }
  rewrite (get_metadata_stamps _ _ _ _ _ _ Hoff Hfind Hsrc Hlm Hi).
  rewrite Hing.
  assert (Hst : stamp fromisoformat (BStr (isoformat now)) = Some now)
    by exact Hiso.
  rewrite Hst. split.
  - intros src ->. by eexists.
  - by intros ->.
Qed.

(** X18. Not-found is not the only way the resolver fails: with a
    metadata record whose source_info is not a document, or whose last
    modification or ingest time is a number other than 0 or a document
    with fields, the handler raises another exception. *)
Theorem resolver_fails_on_other_values (now : datetime) (name : string)
    (db : database) (meta : doc) :
  find_one "ingest_metadata" (by_collection name) db = Some meta →
  let odd v := (∃ q, v = BNum q ∧ q ≠ 0%Qc) ∨ (∃ d, v = BDoc d ∧ d ≠ []) in
  source_field meta = None
  ∨ (∃ v, source_field meta = Some v ∧ odd v)
  ∨ odd (ingest_field meta) →
  get_metadata fromisoformat now name db = Raised.
Proof.
  intros Hfind odd Hcase. unfold get_metadata. rewrite Hfind.
  assert (Hmeta : meta ≠ []).
  { apply (by_collection_nonempty name).
    apply (metadata_of_by_collection name db).
    rewrite find_one_metadata in Hfind.
    destruct (metadata_of name db) as [|d l]; [done|].
    injection Hfind as ->. apply list_elem_of_here. }
  destruct meta as [|kv meta]; [done|].
  assert (Hodd : ∀ v, odd v → normalize (_to_dt fromisoformat v) = None).
  { intros v [(q & -> & Hq)|(d & -> & Hd)]; simpl.
    - by rewrite bool_decide_eq_false_2.
    - by rewrite bool_decide_eq_false_2. }
  destruct Hcase as [Hs|[(v & Hs & Hv)|Hi]].
  - by rewrite Hs.
  - rewrite Hs. cbv zeta. by rewrite (Hodd v Hv).
  - destruct (source_field (kv :: meta)) as [v|]; [|done]. cbv zeta.
    rewrite (Hodd _ Hi). by destruct (normalize _).
Qed.

End resolver_after_publication.

Section resolver_examples.
Import Frame PyTime Mongo Api Instance Examples.

Lemma published_age_resolved_witness :
  "ca_by_country" ≠ "ingest_metadata"
  ∧ fromisoformat_iso (isoformat_iso noon) = Some noon
  ∧ is_Some (dt_offset one_o_clock)
  ∧ (∃ src info,
       stamp fromisoformat_iso
         (default BNull (doc_get "last_modified" source_time)) = Some src
       ∧ get_metadata fromisoformat_iso one_o_clock "ca_by_country"
           (write_df_to_mongo isoformat_iso noon one_client "ca_by_country"
              source_time ∅) = Ok info
       ∧ ingest_time info = BStr (isoformat_iso noon)
       ∧ delta_source_to_ingest_seconds info
         = Some (total_seconds (instant noon - instant src))).
Proof.
  assert (Hne : "ca_by_country" ≠ "ingest_metadata") by done.
  assert (Hiso : fromisoformat_iso (isoformat_iso noon) = Some noon)
    by (vm_compute; reflexivity).
  assert (Hoff : is_Some (dt_offset one_o_clock)) by (by eexists).
  assert (Hlm : stamp_field
                  (default BNull (doc_get "last_modified" source_time)))
    by (right; right; by eexists).
  assert (Hms : ∀ d, default BNull (doc_get "last_modified" source_time)
                     = BDate d → (dt_micro d mod 1000 = 0)%Z).
  { intros d Hd. vm_compute in Hd. injection Hd as <-. reflexivity. }
  split; [exact Hne|]. split; [exact Hiso|]. split; [exact Hoff|].
  destruct (stamp fromisoformat_iso
              (default BNull (doc_get "last_modified" source_time)))
    as [src|] eqn:Hsrc; [|by vm_compute in Hsrc].
  destruct (proj1 (published_age_resolved isoformat_iso fromisoformat_iso noon
                     one_o_clock one_client "ca_by_country" source_time ∅
                     Hne Hiso Hoff Hlm Hms) src Hsrc)
    as (info & Hget & Hing & _ & Hdelta).
  exists src, info. split; [reflexivity|]. split; [exact Hget|].
  split; [exact Hing|exact Hdelta].
Defined.

(** A metadata record whose last modification is the number 5. *)
Definition odd_metadata : doc :=
  [("collection", BStr "ca_by_country");
   ("ingest_time", BStr "2024-01-01T00:10:00Z");
   ("source_info", BDoc [("last_modified", BNum (q 5 1))])].

Lemma resolver_fails_on_other_values_witness :
  find_one "ingest_metadata" (by_collection "ca_by_country")
    {[ "ingest_metadata" := [odd_metadata] ]} = Some odd_metadata
  ∧ get_metadata fromisoformat_iso one_o_clock "ca_by_country"
      {[ "ingest_metadata" := [odd_metadata] ]} = Raised.
Proof.
  assert (Hfind : find_one "ingest_metadata" (by_collection "ca_by_country")
                    {[ "ingest_metadata" := [odd_metadata] ]}
                  = Some odd_metadata) by (vm_compute; reflexivity).
  split; [exact Hfind|].
  apply (resolver_fails_on_other_values fromisoformat_iso one_o_clock
           "ca_by_country" _ odd_metadata Hfind).
  right. left. exists (BNum (q 5 1)). split; [reflexivity|].
  left. exists (q 5 1). split; [reflexivity|]. by vm_compute.
Defined.

End resolver_examples.

(** ** The publication flow: [gold_to_mongo_flow] *)
Module Flows.
Import PyStr Frame PyTime Mongo.

(** [s.rfind(c)] for a character [c]: the last position of [c], -1 when
    there is none. *)
Fixpoint rfind_from (c : ascii) (s : string) (i last : Z) : Z :=
  match s with
  | EmptyString => last
  | String x s' => rfind_from c s' (i + 1) (if Ascii.eqb x c then i else last)
  end.

Definition rfind (c : ascii) (s : string) : Z := rfind_from c s 0 (-1).

(** [os.path.splitext(p)] of [posixpath]: the extension starts at the
    last dot of the last component, unless that component has only dots
    before it. *)
Definition splitext (p : string) : string * string :=
  let sepIndex := rfind "/" p in
  let dotIndex := rfind "." p in
  if (sepIndex <? dotIndex)%Z then
    let filename :=
      substring (Z.to_nat (sepIndex + 1))
        (Z.to_nat (dotIndex - (sepIndex + 1))) p in
    if existsb (λ x, negb (Ascii.eqb x ".")) (list_ascii_of_string filename)
    then (substring 0 (Z.to_nat dotIndex) p,
          substring (Z.to_nat dotIndex)
            (String.length p - Z.to_nat dotIndex) p)
    else (p, "")
  else (p, "").

(** [s.endswith(suffix)]. *)
Definition endswith (suffix s : string) : bool :=
  let n := String.length s in
  let k := String.length suffix in
  (k <=? n)%nat && String.eqb (substring (n - k) k s) suffix.

(** An object of a bucket listing; [last_modified] is [None] when the
    listing gives none ([getattr(obj, 'last_modified', None)]). *)
Record object := Object {
  object_name : string;
  last_modified : option datetime }.

Section flow.
Context (isoformat : datetime → string).
(** The gold bucket of the configuration. *)
Context (BUCKET_GOLD : string).
(** The object store and the parsers of pandas; [None] when they raise. *)
Context (get_object : string → string → option string).
Context (read_parquet read_csv : string → option frame).
(** Whether the driver accepts a collection name; it raises
    [InvalidName] otherwise, before anything is written. *)
Context (valid_name : string → bool).
(** What the calls of [datetime.now(timezone.utc)] return, in order. *)
Context (clock : nat → datetime).

(** [read_object_to_df(bucket, object_name)]; [None] when it raises. The
    retry of the task reads the same object again. *)
Definition read_object_to_df (bucket object_name : string) : option frame :=
  data ← get_object bucket object_name;
  if endswith ".parquet" (lower object_name) then read_parquet data
  else read_csv data.

(** Lines 83-86. *)
Definition object_metadata (o : object) : doc :=
  [("object_name", BStr (object_name o));
   ("last_modified",
    match last_modified o with Some d => BDate d | None => BNull end)].

(** Line 87. *)
Definition collection_of (o : object) : string :=
  (splitext (object_name o)).1.

(** Lines 78-91, one turn of the loop on the number of clock readings
    so far and the store: an exception leaves both as they are. *)
Definition publish_object (st : nat * database) (o : object)
  : nat * database :=
  match read_object_to_df BUCKET_GOLD (object_name o) with
  | Some df =>
      if valid_name (collection_of o)
      then (S st.1,
            write_df_to_mongo isoformat (clock st.1) df (collection_of o)
              (object_metadata o) st.2)
      else st
  | None => st
  end.

(** [gold_to_mongo_flow()], on whether the bucket exists and on its
    listing. *)
Definition gold_to_mongo_flow (bucket_exists : bool) (objs : list object)
    (st : nat * database) : nat * database :=
  if negb bucket_exists then st
  else match objs with
       | [] => st
       | _ => foldl publish_object st objs
       end.

(** An object the flow publishes: it reads, and its collection name is
    accepted. *)
Definition publishable (o : object) : bool :=
  match read_object_to_df BUCKET_GOLD (object_name o) with
  | Some _ => valid_name (collection_of o)
  | None => false
  end.

(** *** Facts *)

Lemma flow_foldl b objs st :
  gold_to_mongo_flow b objs st
  = if b then foldl publish_object st objs else st.
Proof. unfold gold_to_mongo_flow. destruct b; [|done]. by destruct objs. Qed.

Lemma publish_object_skip st o : publishable o = false → publish_object st o = st.
Proof.
  unfold publishable, publish_object.
  destruct (read_object_to_df _ _); [|done]. by intros ->.
Qed.

Lemma foldl_publish_filter objs st :
  foldl publish_object st objs
  = foldl publish_object st (List.filter publishable objs).
Proof.
  revert st. induction objs as [|o objs IH]; intros st; [done|]. simpl.
  destruct (publishable o) eqn:E; simpl.
  - apply IH.
  - rewrite publish_object_skip by done. apply IH.
Qed.

(** A turn of the loop leaves a collection alone that is neither
    ingest_metadata nor the collection of the object. *)
Lemma publish_object_lookup_ne st o c :
  c ≠ "ingest_metadata" → (publishable o = true → collection_of o ≠ c) →
  (publish_object st o).2 !! c = st.2 !! c.
Proof.
  intros Hm Hc. unfold publish_object, publishable in *.
  destruct (read_object_to_df _ _) as [df|]; [|done].
  destruct (valid_name (collection_of o)); [|done]. simpl.
  apply Republish.write_lookup_ne; [|done]. intros ->. by apply Hc.
Qed.

Lemma foldl_publish_lookup_ne objs st c :
  c ≠ "ingest_metadata" →
  (∀ o, o ∈ objs → publishable o = true → collection_of o ≠ c) →
  (foldl publish_object st objs).2 !! c = st.2 !! c.
Proof.
  intros Hm. revert st. induction objs as [|o objs IH]; intros st Hall;
    [done|].
  simpl. rewrite IH.
  - apply publish_object_lookup_ne; [done|]. apply Hall, list_elem_of_here.
  - intros o' Ho'. by apply Hall, list_elem_of_further.
Qed.

Lemma publish_object_meta_unique st o :
  (publishable o = true → collection_of o ≠ "ingest_metadata") →
  meta_unique st.2 → meta_unique (publish_object st o).2.
Proof.
  intros Hc Hu. unfold publish_object, publishable in *.
  destruct (read_object_to_df _ _) as [df|]; [|done].
  destruct (valid_name (collection_of o)); [|done]. simpl.
  apply meta_unique_write; [by apply Hc|done].
Qed.

Lemma foldl_publish_meta_unique objs st :
  (∀ o, o ∈ objs → publishable o = true →
        collection_of o ≠ "ingest_metadata") →
  meta_unique st.2 → meta_unique (foldl publish_object st objs).2.
Proof.
  revert st. induction objs as [|o objs IH]; intros st Hall Hu; [done|].
  simpl. apply IH.
  - intros o' Ho'. by apply Hall, list_elem_of_further.
  - apply publish_object_meta_unique; [|done].
    apply Hall, list_elem_of_here.
Qed.

Lemma foldl_publish_ticks objs st :
  (foldl publish_object st objs).1
  = (st.1 + length (List.filter publishable objs))%nat.
Proof.
  revert st. induction objs as [|o objs IH]; intros st; simpl; [lia|].
  rewrite IH. unfold publish_object, publishable.
  destruct (read_object_to_df _ _) as [df|]; simpl; [|lia].
  destruct (valid_name (collection_of o)); simpl; lia.
Qed.

End flow.
End Flows.

Section flow_properties.
Import PyStr Frame PyTime Mongo Flows.
Context (isoformat : datetime → string).
Context (BUCKET_GOLD : string).
Context (get_object : string → string → option string).
Context (read_parquet read_csv : string → option frame).
Context (valid_name : string → bool).
Context (clock : nat → datetime).

Local Abbreviation flow :=
  (gold_to_mongo_flow isoformat BUCKET_GOLD get_object read_parquet read_csv
     valid_name clock).
Local Abbreviation ok :=
  (publishable BUCKET_GOLD get_object read_parquet read_csv valid_name).

(** X19. An object that cannot be read, or whose collection name the
    driver refuses, neither stops the flow nor leaves a trace: the flow
    ends in the state it reaches on the listing without those objects,
    and it reads the clock once per object it publishes. *)
Theorem flow_skips_failures (bucket_exists : bool) (objs : list object)
    (st : nat * database) :
  flow bucket_exists objs st = flow bucket_exists (List.filter ok objs) st
  ∧ (bucket_exists = true →
     (flow bucket_exists objs st).1
     = (st.1 + length (List.filter ok objs))%nat).
Proof.
  rewrite !flow_foldl. destruct bucket_exists.
  - split; [apply foldl_publish_filter|]. intros _.
    apply foldl_publish_ticks.
  - by split.
Qed.

(** X20. After the flow, the collection of a published object holds the
    rows of that object, unless a later object of the listing was
    published to the same collection: the table of the object read, one
    document per row, and nothing when it has no rows. *)
Theorem flow_publishes_object (pre post : list object) (o : object)
    (df : frame) (st : nat * database) :
  read_object_to_df get_object read_parquet read_csv BUCKET_GOLD
    (object_name o) = Some df →
  valid_name (collection_of o) = true →
  collection_of o ≠ "ingest_metadata" →
  (∀ o', o' ∈ post → ok o' = true → collection_of o' ≠ collection_of o) →
  docs (collection_of o) (flow true (pre ++ o :: post) st).2
  = if empty df then [] else to_records df.
Proof.
  intros Hread Hvalid Hne Hlater. rewrite flow_foldl.
  rewrite foldl_app. simpl. unfold docs.
  rewrite foldl_publish_lookup_ne by done.
  unfold publish_object at 1. rewrite Hread, Hvalid. simpl.
  by apply docs_write.
Qed.

(** X21. The flow touches only ingest_metadata and the collections of
    the objects it publishes; and when none of these collections is
    ingest_metadata itself, a store with at most one metadata record per
    table still has at most one per table afterwards. *)
Theorem flow_touches_its_collections (bucket_exists : bool)
    (objs : list object) (st : nat * database) :
  (∀ c, c ≠ "ingest_metadata" →
        (∀ o, o ∈ objs → ok o = true → collection_of o ≠ c) →
        (flow bucket_exists objs st).2 !! c = st.2 !! c)
  ∧ ((∀ o, o ∈ objs → ok o = true → collection_of o ≠ "ingest_metadata") →
     meta_unique st.2 → meta_unique (flow bucket_exists objs st).2).
Proof.
  rewrite flow_foldl. destruct bucket_exists; [|by split].
  split.
  - intros c Hc Hall. by apply foldl_publish_lookup_ne.
  - apply foldl_publish_meta_unique.
Qed.

End flow_properties.

(** ** The dashboard: the collection it asks for *)
Module Dashboard.
Import Flows.

(** Lines 38-40 of [load_from_gold] and 61-63 of [get_refresh_info]: the
    collection of an object name, [coll[:-4]] when it ends in ".csv". *)
Definition collection_name (object_name : string) : string :=
  if endswith ".csv" object_name
  then substring 0 (String.length object_name - 4) object_name
  else object_name.

(** *** Strings *)

Lemma length_append s t :
  String.length (s ++ t) = (String.length s + String.length t)%nat.
Proof. induction s as [|c s IH]; simpl; [done|]. by rewrite IH. Qed.

Lemma substring_prefix s t :
  substring 0 (String.length s) (s ++ t) = s.
Proof.
  induction s as [|c s IH]; simpl.
  - by destruct t.
  - by rewrite IH.
Qed.

Lemma substring_skip s t n m :
  substring (String.length s + n) m (s ++ t) = substring n m t.
Proof. induction s as [|c s IH]; simpl; [done|]. exact IH. Qed.

Lemma substring_all s : substring 0 (String.length s) s = s.
Proof. induction s as [|c s IH]; simpl; [done|]. by rewrite IH. Qed.

Lemma substring_join p n :
  substring 0 n p ++ substring n (String.length p - n) p = p.
Proof.
  revert n. induction p as [|c p IH]; intros [|n]; try done.
  - change (String c (substring 0 (String.length p) p) = String c p).
    by rewrite substring_all.
  - change (String c (substring 0 n p
                      ++ substring n (String.length p - n) p) = String c p).
    by rewrite IH.
Qed.

Lemma rfind_from_app c s t i last :
  rfind_from c (s ++ t) i last
  = rfind_from c t (i + Z.of_nat (String.length s)) (rfind_from c s i last).
Proof.
  revert i last. induction s as [|x s IH]; intros i last; simpl.
  - f_equal. lia.
  - rewrite IH. f_equal. lia.
Qed.

Lemma rfind_from_absent c s i last :
  ¬ In c (list_ascii_of_string s) → rfind_from c s i last = last.
Proof.
  revert i last. induction s as [|x s IH]; intros i last Hc; simpl; [done|].
  simpl in Hc. destruct (Ascii.eqb_spec x c) as [->|Hne].
  - destruct Hc. by left.
  - apply IH. intros Hin. apply Hc. by right.
Qed.

Lemma append_assoc' (s t u : string) : (s ++ t) ++ u = s ++ (t ++ u).
Proof.
  induction s as [|c s IH]; [done|].
  change (String c ((s ++ t) ++ u) = String c (s ++ (t ++ u))).
  by rewrite IH.
Qed.

Lemma append_empty_r (s : string) : s ++ "" = s.
Proof.
  induction s as [|c s IH]; [done|].
  change (String c (s ++ "") = String c s). by rewrite IH.
Qed.

Lemma list_ascii_app s t :
  list_ascii_of_string (s ++ t)
  = (list_ascii_of_string s ++ list_ascii_of_string t)%list.
Proof.
  induction s as [|c s IH]; [done|].
  change (c :: list_ascii_of_string (s ++ t)
          = c :: (list_ascii_of_string s ++ list_ascii_of_string t)%list).
  by rewrite IH.
Qed.

(** The positions of the last "/" and of the last "." of a name made of
    a directory part, a file name and an extension. *)
Lemma rfind_sep dir file ext :
  dir = "" ∨ (∃ d, dir = d ++ "/") →
  ¬ In "/"%char (list_ascii_of_string file) →
  ¬ In "/"%char (list_ascii_of_string ext) →
  rfind "/" (dir ++ (file ++ String "." ext))
  = (Z.of_nat (String.length dir) - 1)%Z.
Proof.
  intros Hdir Hf He. unfold rfind. rewrite rfind_from_app.
  rewrite (rfind_from_absent "/" (file ++ String "." ext)).
  - destruct Hdir as [->|[d ->]]; [done|].
    rewrite rfind_from_app, length_append. simpl. lia.
  - rewrite list_ascii_app. simpl. rewrite in_app_iff. simpl.
    intros [?|[?|?]]; done.
Qed.

Lemma rfind_dot dir file ext :
  ¬ In "."%char (list_ascii_of_string ext) →
  rfind "." (dir ++ (file ++ String "." ext))
  = Z.of_nat (String.length dir + String.length file).
Proof.
  intros He. unfold rfind. rewrite <- append_assoc', rfind_from_app.
  simpl. rewrite rfind_from_absent by done. rewrite length_append. lia.
Qed.

Lemma splitext_name dir file ext :
  dir = "" ∨ (∃ d, dir = d ++ "/") →
  ¬ In "/"%char (list_ascii_of_string file) →
  ¬ In "."%char (list_ascii_of_string ext) →
  ¬ In "/"%char (list_ascii_of_string ext) →
  splitext (dir ++ (file ++ String "." ext))
  = if existsb (λ x, negb (Ascii.eqb x ".")) (list_ascii_of_string file)
    then (dir ++ file, String "." ext)
    else (dir ++ (file ++ String "." ext), "").
Proof.
  intros Hdir Hf He He'. unfold splitext.
  rewrite rfind_sep, rfind_dot by done. cbv zeta.
  assert (Hlt : (Z.of_nat (String.length dir) - 1
                 <? Z.of_nat (String.length dir + String.length file))%Z
                = true) by (apply Z.ltb_lt; lia).
  rewrite Hlt.
  replace (Z.to_nat (Z.of_nat (String.length dir) - 1 + 1))
    with (String.length dir + 0)%nat by lia.
  replace (Z.to_nat (Z.of_nat (String.length dir + String.length file)
                     - (Z.of_nat (String.length dir) - 1 + 1)))
    with (String.length file) by lia.
  rewrite substring_skip, substring_prefix.
  destruct (existsb _ _); [|done].
  rewrite Nat2Z.id. f_equal.
  - rewrite <- append_assoc', <- length_append. apply substring_prefix.
  - rewrite <- append_assoc', <- (length_append dir file).
    rewrite (length_append (dir ++ file)).
    replace (String.length (dir ++ file) + String.length (String "." ext)
             - String.length (dir ++ file))%nat
      with (String.length (String "." ext)) by lia.
    rewrite <- (Nat.add_0_r (String.length (dir ++ file))).
    rewrite substring_skip. apply substring_all.
Qed.

Lemma collection_name_csv stem : collection_name (stem ++ ".csv") = stem.
Proof.
  unfold collection_name, endswith. cbv zeta. rewrite length_append.
  change (String.length ".csv") with 4%nat.
  assert (Hle : (4 <=? String.length stem + 4)%nat = true)
    by (apply Nat.leb_le; lia).
  rewrite Hle.
  replace (String.length stem + 4 - 4)%nat
    with (String.length stem + 0)%nat by lia.
  rewrite substring_skip.
  change (substring 0 4 ".csv") with ".csv".
  change ((true && (".csv" =? ".csv"))%string) with true. cbv iota.
  rewrite Nat.add_0_r. apply substring_prefix.
Qed.

End Dashboard.

Section naming.
Import Flows Dashboard.

(** X22. The collection the flow publishes an object to and the
    collection the dashboard asks for, for an object "<file>.csv" in any
    directory: both are the name without ".csv" when the file name has a
    character other than a dot; when it is made of dots only (as for the
    name ".csv"), the flow takes the whole name and the dashboard still
    cuts the four characters. In every case the two parts [splitext]
    gives make up the name. *)
Theorem flow_and_dashboard_names (dir file : string)
    (lm : option PyTime.datetime) :
  dir = "" ∨ (∃ d, dir = d ++ "/") →
  ¬ In "/"%char (list_ascii_of_string file) →
  let name := dir ++ (file ++ ".csv") in
  ((∃ x, In x (list_ascii_of_string file) ∧ x ≠ "."%char) →
     collection_of (Object name lm) = dir ++ file
     ∧ collection_name name = dir ++ file)
  ∧ ((∀ x, In x (list_ascii_of_string file) → x = "."%char) →
     collection_of (Object name lm) = name
     ∧ collection_name name = dir ++ file)
  ∧ (∀ p, (splitext p).1 ++ (splitext p).2 = p).
Proof.
  intros Hdir Hf name.
  assert (Hname : collection_name name = dir ++ file).
  { unfold name. rewrite <- append_assoc'. apply collection_name_csv. }
  assert (Hsplit := splitext_name dir file "csv" Hdir Hf).
  change (file ++ String "." "csv") with (file ++ ".csv") in Hsplit.
  fold name in Hsplit.
  assert (Hcsv : ¬ In "."%char (list_ascii_of_string "csv")
                 ∧ ¬ In "/"%char (list_ascii_of_string "csv")).
  { simpl. split; intros [?|[?|[?|?]]]; done. }
  destruct Hcsv as [H1 H2]. specialize (Hsplit H1 H2).
  split; [|split].
  - intros (x & Hx & Hdot). split; [|done].
    unfold collection_of. simpl. rewrite Hsplit.
    assert (Hex : existsb (λ x, negb (Ascii.eqb x "."))
                    (list_ascii_of_string file) = true).
    { apply existsb_exists. exists x. split; [done|].
      apply negb_true_iff. by apply Ascii.eqb_neq. }
    by rewrite Hex.
  - intros Hdots. split; [|done].
    unfold collection_of. simpl. rewrite Hsplit.
    assert (Hex : existsb (λ x, negb (Ascii.eqb x "."))
                    (list_ascii_of_string file) = false).
    { apply not_true_is_false. intros (x & Hx & Hdot)%existsb_exists.
      rewrite (Hdots x Hx) in Hdot. by vm_compute in Hdot. }
    by rewrite Hex.
  - intros p. clear Hsplit. unfold splitext. cbv zeta.
    destruct (rfind "/" p <? rfind "." p)%Z; [|apply append_empty_r].
    destruct (existsb _ _); [|apply append_empty_r].
    apply substring_join.
Qed.

End naming.

Section flow_examples.
Import PyStr Frame PyTime Mongo Flows Dashboard Instance Examples.

(** A gold bucket with one object that reads. *)
Definition get_object0 (bucket name : string) : option string :=
  if String.eqb name "ca_by_country.csv" then Some "pays,ca" else None.
Definition read_csv0 (data : string) : option frame := Some one_client.
Definition read_parquet0 (data : string) : option frame := None.
Definition valid_name0 (name : string) : bool := true.
Definition clock0 (n : nat) : datetime := noon.

Lemma flow_publishes_object_witness :
  read_object_to_df get_object0 read_parquet0 read_csv0 "gold"
    "ca_by_country.csv" = Some one_client
  ∧ collection_of (Object "ca_by_country.csv" (Some noon))
    ≠ "ingest_metadata"
  ∧ docs (collection_of (Object "ca_by_country.csv" (Some noon)))
      (gold_to_mongo_flow isoformat_iso "gold" get_object0 read_parquet0
         read_csv0 valid_name0 clock0 true
         ([Object "broken.csv" None]
          ++ Object "ca_by_country.csv" (Some noon) :: [])
         (0%nat, ∅)).2
    = (if empty one_client then [] else to_records one_client).
Proof.
  assert (Hread : read_object_to_df get_object0 read_parquet0 read_csv0
                    "gold" "ca_by_country.csv" = Some one_client)
    by (vm_compute; reflexivity).
  assert (Hne : collection_of (Object "ca_by_country.csv" (Some noon))
                ≠ "ingest_metadata")
    by (intros E; vm_compute in E; discriminate E).
  split; [exact Hread|]. split; [exact Hne|].
  apply (flow_publishes_object isoformat_iso "gold" get_object0
           read_parquet0 read_csv0 valid_name0 clock0
           [Object "broken.csv" None] []
           (Object "ca_by_country.csv" (Some noon)) one_client (0%nat, ∅)
           Hread eq_refl Hne).
  intros o' Ho'. by apply elem_of_nil in Ho'.
Defined.

Lemma flow_and_dashboard_names_witness :
  ¬ In "/"%char (list_ascii_of_string "ca_by_country")
  ∧ collection_of (Object ("" ++ ("ca_by_country" ++ ".csv")) None)
    = "" ++ "ca_by_country"
  ∧ collection_name ("" ++ ("ca_by_country" ++ ".csv"))
    = "" ++ "ca_by_country".
Proof.
  assert (Hf : ¬ In "/"%char (list_ascii_of_string "ca_by_country")).
  { intros Hin. simpl in Hin.
    repeat (destruct Hin as [Hin|Hin]; [discriminate Hin|]). exact Hin. }
  split; [exact Hf|].
  apply (proj1 (flow_and_dashboard_names "" "ca_by_country" None
                  (or_introl eq_refl) Hf)).
  exists "c"%char. split; [by left|discriminate].
Defined.

End flow_examples.

(** ** The flows on the object store *)
Module Buckets.
Import Frame.

(** The object store: for each bucket that exists, its objects by name. *)
Abbreviation store := (gmap string (gmap string string)).

(** [client.bucket_exists(b)]. *)
Definition bucket_exists (b : string) (s : store) : bool :=
  bool_decide (is_Some (s !! b)).

(** [client.make_bucket(b)], of a bucket that does not exist. *)
Definition make_bucket (b : string) (s : store) : store := <[b := ∅]> s.

(** [if not client.bucket_exists(b): client.make_bucket(b)]. *)
Definition ensure_bucket (b : string) (s : store) : store :=
  if bucket_exists b s then s else make_bucket b s.

(** [client.get_object(b, name).read()]; [None] when there is no such
    bucket or object and the client raises. *)
Definition get_object (b name : string) (s : store) : option string :=
  objs ← s !! b; objs !! name.

(** [client.put_object(b, name, data, ...)] on a store that answers;
    [None] when there is no such bucket. An upload that fails for want of
    an answer is no matter of the store: the aggregation flow, which has
    no handler around its uploads, takes such failures as [put_fails]; in
    the cleaning flow they would be one more way for an object to be
    skipped. *)
Definition put_object (b name data : string) (s : store) : option store :=
  objs ← s !! b; Some (<[b := <[name := data]> objs]> s).

(** The names of [client.list_objects(b, recursive=True)]; [None] when
    there is no such bucket. *)
Definition list_objects (b : string) (s : store) : option (list string) :=
  objs ← s !! b; Some (map_to_list objs).*1.

Section silver.
Context `{Pandas}.
(** The two buckets of the configuration. *)
Context (BUCKET_BRONZE BUCKET_SILVER : string).
(** [pd.read_csv] ([None] when it raises) and [DataFrame.to_csv]. *)
Context (read_csv : string → option frame) (to_csv : frame → string).

(** [process_object(client, bucket_from, object_name, bucket_to)];
    [None] when it raises. *)
Definition process_object (bucket_from object_name bucket_to : string)
    (s : store) : option store :=
  data ← get_object bucket_from object_name s;
  df ← read_csv data;
  put_object bucket_to object_name
    (to_csv (Silver.transform_dataframe df)) s.

(** One turn of the loop of the flow: an exception is printed and the
    loop goes on. *)
Definition process_or_skip (s : store) (name : string) : store :=
  default s (process_object BUCKET_BRONZE name BUCKET_SILVER s).

(** [silver_transformation_flow()]; [None] when listing the bronze
    bucket raises. The listing is taken before the loop: the loop writes
    to the silver bucket only. *)
Definition silver_transformation_flow (s : store) : option store :=
  let s := ensure_bucket BUCKET_SILVER s in
  names ← list_objects BUCKET_BRONZE s;
  Some (foldl process_or_skip s names).

(** The cleaned object of a bronze object, when it parses. *)
Definition cleaned (data : string) : option string :=
  df ← read_csv data; Some (to_csv (Silver.transform_dataframe df)).

(** *** Facts *)

Lemma process_or_skip_lookup (s : store) name bronze silver :
  BUCKET_BRONZE ≠ BUCKET_SILVER →
  s !! BUCKET_BRONZE = Some bronze → s !! BUCKET_SILVER = Some silver →
  process_or_skip s name
  = match bronze !! name ≫= cleaned with
    | Some v => <[BUCKET_SILVER := <[name := v]> silver]> s
    | None => s
    end.
Proof.
  intros Hne Hb Hs. unfold process_or_skip, process_object, get_object.
  rewrite Hb. simpl. unfold cleaned.
  destruct (bronze !! name) as [data|]; [|done]. simpl.
  destruct (read_csv data) as [df|]; [|done]. simpl.
  unfold put_object. by rewrite Hs.
Qed.

(** The silver bucket after the loop over some names. *)
Lemma foldl_process (names : list string) (s : store) bronze silver :
  BUCKET_BRONZE ≠ BUCKET_SILVER →
  s !! BUCKET_BRONZE = Some bronze → s !! BUCKET_SILVER = Some silver →
  ∃ silver',
    foldl process_or_skip s names = <[BUCKET_SILVER := silver']> s
    ∧ ∀ n, silver' !! n
           = match (if bool_decide (n ∈ names)
                    then bronze !! n ≫= cleaned else None) with
             | Some v => Some v
             | None => silver !! n
             end.
Proof.
  intros Hne. revert s silver.
  induction names as [|name names IH]; intros s silver Hb Hs.
  - exists silver. split; [by rewrite insert_id|]. intros n.
    by rewrite bool_decide_eq_false_2 by apply not_elem_of_nil.
  - simpl. rewrite (process_or_skip_lookup s name bronze silver) by done.
    destruct (bronze !! name ≫= cleaned) as [v|] eqn:Ev.
    + destruct (IH (<[BUCKET_SILVER := <[name := v]> silver]> s)
                  (<[name := v]> silver)) as (silver' & Hfold & Hlook).
      { by rewrite lookup_insert_ne. }
      { by rewrite lookup_insert_eq. }
      exists silver'. split; [by rewrite Hfold, insert_insert_eq|].
      intros n. rewrite Hlook.
      destruct (decide (n = name)) as [->|Hn].
      * rewrite (bool_decide_eq_true_2 (name ∈ name :: names))
          by apply list_elem_of_here.
        rewrite Ev.
        destruct (bool_decide (name ∈ names)); [done|].
        by rewrite lookup_insert_eq.
      * rewrite lookup_insert_ne by done.
        destruct (bool_decide_reflect (n ∈ names)) as [Hin|Hin].
        -- by rewrite bool_decide_eq_true_2 by (by right).
        -- rewrite bool_decide_eq_false_2; [done|].
           by intros [?|?]%elem_of_cons.
    + destruct (IH s silver Hb Hs) as (silver' & Hfold & Hlook).
      exists silver'. split; [done|]. intros n. rewrite Hlook.
      destruct (decide (n = name)) as [->|Hn].
      * rewrite (bool_decide_eq_true_2 (name ∈ name :: names))
          by apply list_elem_of_here.
        rewrite Ev. by destruct (bool_decide (name ∈ names)).
      * destruct (bool_decide_reflect (n ∈ names)) as [Hin|Hin].
        -- by rewrite bool_decide_eq_true_2 by (by right).
        -- rewrite bool_decide_eq_false_2; [done|].
           by intros [?|?]%elem_of_cons.
Qed.

Lemma elem_of_listing (objs : gmap string string) n :
  n ∈ (map_to_list objs).*1 ↔ is_Some (objs !! n).
Proof.
  rewrite list_elem_of_fmap. split.
  - intros ([n' v] & -> & Hin). apply elem_of_map_to_list in Hin.
    by eexists.
  - intros [v Hv]. exists (n, v). split; [done|].
    by apply elem_of_map_to_list.
Qed.

(** The flow, on a store that has the bronze bucket. *)
Lemma silver_flow_lookup (s : store) bronze :
  BUCKET_BRONZE ≠ BUCKET_SILVER →
  s !! BUCKET_BRONZE = Some bronze →
  ∃ silver',
    silver_transformation_flow s = Some (<[BUCKET_SILVER := silver']> s)
    ∧ ∀ n, silver' !! n
           = match bronze !! n ≫= cleaned with
             | Some v => Some v
             | None => get_object BUCKET_SILVER n s
             end.
Proof.
  intros Hne Hb. unfold silver_transformation_flow.
  set (s0 := ensure_bucket BUCKET_SILVER s).
  set (silver := default ∅ (s !! BUCKET_SILVER)).
  assert (Hs0 : s0 = <[BUCKET_SILVER := silver]> s).
  { unfold s0, silver, ensure_bucket, bucket_exists, make_bucket.
    destruct (s !! BUCKET_SILVER) as [objs|] eqn:E.
    - rewrite bool_decide_eq_true_2 by (by eexists). simpl.
      by rewrite insert_id.
    - rewrite bool_decide_eq_false_2 by (by intros [? ?]). done. }
  assert (Hb0 : s0 !! BUCKET_BRONZE = Some bronze).
  { by rewrite Hs0, lookup_insert_ne. }
  assert (Hsil : s0 !! BUCKET_SILVER = Some silver).
  { by rewrite Hs0, lookup_insert_eq. }
  unfold list_objects. rewrite Hb0. simpl.
  destruct (foldl_process (map_to_list bronze).*1 s0 bronze silver
              Hne Hb0 Hsil) as (silver' & Hfold & Hlook).
  exists silver'. split.
  - by rewrite Hfold, Hs0, insert_insert_eq.
  - intros n. rewrite Hlook.
    assert (Hget : get_object BUCKET_SILVER n s = silver !! n).
    { unfold get_object, silver.
      destruct (s !! BUCKET_SILVER); [done|]. simpl.
      by rewrite lookup_empty. }
    rewrite Hget.
    destruct (bool_decide_reflect (n ∈ (map_to_list bronze).*1))
      as [Hin|Hin]; [done|].
    rewrite elem_of_listing in Hin.
    destruct (bronze !! n) as [data|]; [|done].
    destruct Hin. by eexists.
Qed.

End silver.
End Buckets.

Section silver_flow_properties.
Import Frame Buckets.
Context `{Pandas}.
Context (BUCKET_BRONZE BUCKET_SILVER : string).
Context (read_csv : string → option frame) (to_csv : frame → string).

Local Abbreviation silver_flow :=
  (silver_transformation_flow BUCKET_BRONZE BUCKET_SILVER read_csv to_csv).

(** X23. The cleaning flow, the bronze and the silver bucket being two
    buckets and [pd.read_csv] giving well-formed tables (distinct labels
    once stripped, columns of one length): without a bronze bucket it raises; otherwise it ends, and
    changes the silver bucket only, where every bronze object that parses
    has the CSV of its cleaned table under its own name, and every other
    name holds what it held before (an object that does not parse stops
    nothing, and a silver object whose bronze object is gone stays). *)
Theorem silver_flow_result (s : store) :
  BUCKET_BRONZE ≠ BUCKET_SILVER →
  (∀ data df, read_csv data = Some df → frame_ok df) →
  (s !! BUCKET_BRONZE = None → silver_flow s = None)
  ∧ (∀ bronze, s !! BUCKET_BRONZE = Some bronze →
       ∃ silver',
         silver_flow s = Some (<[BUCKET_SILVER := silver']> s)
         ∧ ∀ n, silver' !! n
                = match bronze !! n with
                  | Some data =>
                      match read_csv data with
                      | Some df =>
                          Some (to_csv (Silver.transform_dataframe df))
                      | None => get_object BUCKET_SILVER n s
                      end
                  | None => get_object BUCKET_SILVER n s
                  end).
Proof.
  intros Hne _. split.
  - intros Hb. unfold silver_transformation_flow, list_objects.
    assert (Hb0 : ensure_bucket BUCKET_SILVER s !! BUCKET_BRONZE = None).
    { unfold ensure_bucket, make_bucket.
      destruct (bucket_exists BUCKET_SILVER s); [done|].
      by rewrite lookup_insert_ne. }
    by rewrite Hb0.
  - intros bronze Hb.
    destruct (silver_flow_lookup BUCKET_BRONZE BUCKET_SILVER read_csv to_csv
                s bronze Hne Hb) as (silver' & Hflow & Hlook).
    exists silver'. split; [done|]. intros n. rewrite Hlook.
    unfold cleaned. destruct (bronze !! n) as [data|]; [|done]. simpl.
    by destruct (read_csv data).
Qed.

(** X24. Running the cleaning flow again on its own result changes
    nothing. *)
Theorem silver_flow_idempotent (s s' : store) :
  BUCKET_BRONZE ≠ BUCKET_SILVER →
  (∀ data df, read_csv data = Some df → frame_ok df) →
  silver_flow s = Some s' → silver_flow s' = Some s'.
Proof.
  intros Hne _ Hflow.
  destruct (s !! BUCKET_BRONZE) as [bronze|] eqn:Hb.
  - destruct (silver_flow_lookup BUCKET_BRONZE BUCKET_SILVER read_csv to_csv
                s bronze Hne Hb) as (silver' & Hflow' & Hlook).
    rewrite Hflow' in Hflow. injection Hflow as <-.
    assert (Hb' : <[BUCKET_SILVER := silver']> s !! BUCKET_BRONZE
                  = Some bronze) by (by rewrite lookup_insert_ne).
    destruct (silver_flow_lookup BUCKET_BRONZE BUCKET_SILVER read_csv to_csv
                _ bronze Hne Hb') as (silver2 & Hflow2 & Hlook2).
    rewrite Hflow2, insert_insert_eq. do 2 f_equal.
    apply map_eq. intros n. rewrite Hlook2.
    unfold get_object. rewrite lookup_insert_eq. simpl.
    rewrite Hlook. by destruct (bronze !! n ≫= cleaned _ _).
  - unfold silver_transformation_flow, list_objects in Hflow.
    assert (Hb0 : ensure_bucket BUCKET_SILVER s !! BUCKET_BRONZE = None).
    { unfold ensure_bucket, make_bucket.
      destruct (bucket_exists BUCKET_SILVER s); [done|].
      by rewrite lookup_insert_ne. }
    by rewrite Hb0 in Hflow.
Qed.

End silver_flow_properties.

(** ** The aggregation flow *)
Module GoldFlow.
Import Frame Gold Buckets.

(** The four tables the flow uploads. *)
Inductive kpi_table :=
| VolumesDay (rows : list (option date * nat))
| VolumesMonth (rows : list (option string * nat))
| CaByCountry (rows : list (cell * Qc))
| MonthlyRevenue (rows : list (option string * Qc * xfloat)).

Section gold.
Context `{Pandas}.
Context (BUCKET_SILVER BUCKET_GOLD : string).
(** [pd.read_csv] ([None] when it raises) and [DataFrame.to_csv] on the
    tables of the flow. *)
Context (read_csv : string → option frame) (to_csv : kpi_table → string).
(** The uploads that fail: [client.put_object(bucket, name, ...)] raises
    when the server or the network does, whatever the store holds. Each
    object is uploaded once in a run of the flow, so the failures of a run
    are told by bucket and name. *)
Context (put_fails : string → string → bool).

(** [read_csv_from_bucket(client, bucket, object_name)]. *)
Definition read_csv_from_bucket (bucket object_name : string) (s : store)
  : option frame :=
  data ← get_object bucket object_name s; read_csv data.

(** [upload_df_to_bucket(client, df, bucket, object_name)]; [None] when
    [put_object] raises, the store then being as it was. *)
Definition upload_df_to_bucket (t : kpi_table) (bucket object_name : string)
    (s : store) : option store :=
  if put_fails bucket object_name then None
  else put_object bucket object_name (to_csv t) s.

(** A statement of the flow on the store and on whether the flow is
    still running ([false]: a statement before raised). *)
Definition and_then (f : store → option store) (st : store * bool)
  : store * bool :=
  if st.2 then
    match f st.1 with
    | Some s' => (s', true)
    | None => (st.1, false)
    end
  else st.

(** [gold_aggregation_flow()]: the store it leaves, and whether it
    returned. Nothing is undone when a statement raises. *)
Definition gold_aggregation_flow (s : store) : store * bool :=
  let s := ensure_bucket BUCKET_GOLD s in
  match list_objects BUCKET_SILVER s with
  | None => (s, false)
  | Some names =>
      if bool_decide ("clients.csv" ∉ names ∨ "achats.csv" ∉ names)
      then (s, false)
      else
        match clients ← read_csv_from_bucket BUCKET_SILVER "clients.csv" s;
              achats ← read_csv_from_bucket BUCKET_SILVER "achats.csv" s;
              compute_kpis clients achats with
        | None => (s, false)
        | Some k =>
            and_then (upload_df_to_bucket (MonthlyRevenue (monthly_revenue k))
                        BUCKET_GOLD "monthly_revenue.csv")
              (and_then (upload_df_to_bucket (CaByCountry (ca_by_country k))
                           BUCKET_GOLD "ca_by_country.csv")
                 (and_then (upload_df_to_bucket
                              (VolumesMonth (volumes_month k))
                              BUCKET_GOLD "volumes_month.csv")
                    (and_then (upload_df_to_bucket
                                 (VolumesDay (volumes_day k))
                                 BUCKET_GOLD "volumes_day.csv")
                       (s, true))))
        end
  end.

(** The tables the flow computes from the silver bucket, when it gets
    that far. *)
Definition silver_kpis (s : store) : option kpis :=
  clients ← read_csv_from_bucket BUCKET_SILVER "clients.csv" s;
  achats ← read_csv_from_bucket BUCKET_SILVER "achats.csv" s;
  compute_kpis clients achats.

(** The names of the uploads, in the order of the flow. *)
Definition upload_order : list string :=
  ["volumes_day.csv"; "volumes_month.csv"; "ca_by_country.csv";
   "monthly_revenue.csv"].

(** What the gold bucket holds under a name the flow uploads, [names]
    being the uploads up to that one: the new object when none of them
    failed, and what it held otherwise. *)
Definition after_uploads (names : list string) (old : option string)
    (new : string) : option string :=
  if existsb (put_fails BUCKET_GOLD) names then old else Some new.

(** *** Facts *)

Lemma ensure_bucket_lookup b (s : store) b' :
  ensure_bucket b s !! b'
  = if decide (b = b') then Some (default ∅ (s !! b)) else s !! b'.
Proof.
  unfold ensure_bucket, bucket_exists, make_bucket.
  destruct (s !! b) as [objs|] eqn:E.
  - rewrite bool_decide_eq_true_2 by (by eexists).
    destruct (decide (b = b')) as [<-|]; [done|done].
  - rewrite bool_decide_eq_false_2 by (by intros [? ?]).
    destruct (decide (b = b')) as [<-|].
    + by rewrite lookup_insert_eq.
    + by rewrite lookup_insert_ne.
Qed.

Lemma and_then_upload t name (s : store) gold :
  s !! BUCKET_GOLD = Some gold →
  and_then (upload_df_to_bucket t BUCKET_GOLD name) (s, true)
  = if put_fails BUCKET_GOLD name then (s, false)
    else (<[BUCKET_GOLD := <[name := to_csv t]> gold]> s, true).
Proof.
  intros Hg. unfold and_then, upload_df_to_bucket, put_object. simpl.
  destruct (put_fails BUCKET_GOLD name); [done|]. by rewrite Hg.
Qed.

Lemma and_then_raised f (s : store) : and_then f (s, false) = (s, false).
Proof. done. Qed.

(** The flow stops before the uploads when a table is not read. *)
Lemma gold_flow_unread (s : store) :
  BUCKET_SILVER ≠ BUCKET_GOLD →
  read_csv_from_bucket BUCKET_SILVER "clients.csv" s = None
  ∨ read_csv_from_bucket BUCKET_SILVER "achats.csv" s = None →
  gold_aggregation_flow s = (ensure_bucket BUCKET_GOLD s, false).
Proof.
  intros Hne Hmiss. unfold gold_aggregation_flow.
  set (s0 := ensure_bucket BUCKET_GOLD s).
  assert (Hsil : s0 !! BUCKET_SILVER = s !! BUCKET_SILVER).
  { unfold s0. rewrite ensure_bucket_lookup. by rewrite decide_False. }
  assert (Hread : ∀ n, read_csv_from_bucket BUCKET_SILVER n s0
                       = read_csv_from_bucket BUCKET_SILVER n s).
  { intros n. unfold read_csv_from_bucket, get_object. by rewrite Hsil. }
  destruct (list_objects BUCKET_SILVER s0) as [names|]; [|done].
  destruct (bool_decide _); [done|]. rewrite !Hread.
  destruct Hmiss as [-> | ->]; [done|].
  by destruct (read_csv_from_bucket BUCKET_SILVER "clients.csv" s).
Qed.

(** The flow gets to the uploads when both tables are read and the
    aggregation returns. *)
Lemma gold_flow_read (s : store) k :
  BUCKET_SILVER ≠ BUCKET_GOLD →
  silver_kpis s = Some k →
  gold_aggregation_flow s
  = and_then (upload_df_to_bucket (MonthlyRevenue (monthly_revenue k))
                BUCKET_GOLD "monthly_revenue.csv")
      (and_then (upload_df_to_bucket (CaByCountry (ca_by_country k))
                   BUCKET_GOLD "ca_by_country.csv")
         (and_then (upload_df_to_bucket (VolumesMonth (volumes_month k))
                      BUCKET_GOLD "volumes_month.csv")
            (and_then (upload_df_to_bucket (VolumesDay (volumes_day k))
                         BUCKET_GOLD "volumes_day.csv")
               (ensure_bucket BUCKET_GOLD s, true)))).
Proof.
  intros Hne Hk. unfold gold_aggregation_flow.
  set (s0 := ensure_bucket BUCKET_GOLD s).
  assert (Hsil : s0 !! BUCKET_SILVER = s !! BUCKET_SILVER).
  { unfold s0. rewrite ensure_bucket_lookup. by rewrite decide_False. }
  assert (Hread : ∀ n, read_csv_from_bucket BUCKET_SILVER n s0
                       = read_csv_from_bucket BUCKET_SILVER n s).
  { intros n. unfold read_csv_from_bucket, get_object. by rewrite Hsil. }
  unfold list_objects. rewrite Hsil.
  unfold silver_kpis in Hk.
  destruct (read_csv_from_bucket BUCKET_SILVER "clients.csv" s)
    as [clients|] eqn:Ec; [|done].
  destruct (read_csv_from_bucket BUCKET_SILVER "achats.csv" s)
    as [achats|] eqn:Ea; [|done].
  simpl in Hk.
  unfold read_csv_from_bucket, get_object in Ec, Ea.
  destruct (s !! BUCKET_SILVER) as [silver|] eqn:Es; [|done]. simpl in *.
  rewrite bool_decide_eq_false_2.
  - rewrite !Hread. unfold read_csv_from_bucket, get_object. rewrite Es.
    simpl. rewrite Ec. simpl. rewrite Ea. simpl. by rewrite Hk.
  - rewrite !elem_of_listing. intros [Hm|Hm]; apply Hm.
    + destruct (silver !! "clients.csv"); [by eexists|done].
    + destruct (silver !! "achats.csv"); [by eexists|done].
Qed.

End gold.
End GoldFlow.

Section gold_flow_properties.
Import Frame Gold Buckets GoldFlow.
Context `{Pandas}.
Context (BUCKET_SILVER BUCKET_GOLD : string).
Context (read_csv : string → option frame) (to_csv : kpi_table → string).
Context (put_fails : string → string → bool).

Local Abbreviation gold_flow :=
  (gold_aggregation_flow BUCKET_SILVER BUCKET_GOLD read_csv to_csv put_fails).
Local Abbreviation tables :=
  (silver_kpis BUCKET_SILVER read_csv).
Local Abbreviation read :=
  (read_csv_from_bucket read_csv BUCKET_SILVER).
Local Abbreviation after :=
  (after_uploads BUCKET_GOLD put_fails).

(** X25. The aggregation flow reads and aggregates before it writes,
    and uploads its four tables one after the other with nothing undone,
    the silver and the gold bucket being two buckets. When clients.csv or
    achats.csv is not in the silver bucket, or does not parse, the flow
    raises with the store as it was, the gold bucket made if it was not
    there. When the two tables are read and aggregated, the flow returns
    exactly when no upload fails; volumes_day.csv, volumes_month.csv,
    ca_by_country.csv and monthly_revenue.csv are uploaded in this order,
    and each holds the CSV of its table when no upload up to its own
    failed, and what it held before otherwise: a failure leaves the
    tables uploaded before it in the bucket beside the old ones. Every
    other object of the store is as it was. *)
Theorem gold_flow_uploads (s : store) :
  BUCKET_SILVER ≠ BUCKET_GOLD →
  (read "clients.csv" s = None ∨ read "achats.csv" s = None →
   gold_flow s = (ensure_bucket BUCKET_GOLD s, false))
  ∧ (∀ k, tables s = Some k →
       let s' := (gold_flow s).1 in
       let old n := get_object BUCKET_GOLD n s in
       (gold_flow s).2 = negb (existsb (put_fails BUCKET_GOLD) upload_order)
       ∧ (∀ b, b ≠ BUCKET_GOLD → s' !! b = s !! b)
       ∧ get_object BUCKET_GOLD "volumes_day.csv" s'
         = after ["volumes_day.csv"] (old "volumes_day.csv")
             (to_csv (VolumesDay (volumes_day k)))
       ∧ get_object BUCKET_GOLD "volumes_month.csv" s'
         = after ["volumes_day.csv"; "volumes_month.csv"]
             (old "volumes_month.csv")
             (to_csv (VolumesMonth (volumes_month k)))
       ∧ get_object BUCKET_GOLD "ca_by_country.csv" s'
         = after ["volumes_day.csv"; "volumes_month.csv";
                  "ca_by_country.csv"]
             (old "ca_by_country.csv")
             (to_csv (CaByCountry (ca_by_country k)))
       ∧ get_object BUCKET_GOLD "monthly_revenue.csv" s'
         = after upload_order (old "monthly_revenue.csv")
             (to_csv (MonthlyRevenue (monthly_revenue k)))
       ∧ (∀ n, n ∉ upload_order → get_object BUCKET_GOLD n s' = old n)).
Proof.
  intros Hne. split; [by apply gold_flow_unread|].
  intros k Hk s' old. unfold s'.
  rewrite (gold_flow_read _ _ _ _ _ s k Hne Hk).
  set (s0 := ensure_bucket BUCKET_GOLD s).
  set (g := default ∅ (s !! BUCKET_GOLD)).
  assert (Hgold : s0 !! BUCKET_GOLD = Some g).
  { unfold s0. rewrite ensure_bucket_lookup. by rewrite decide_True. }
  assert (Hother : ∀ b, b ≠ BUCKET_GOLD → s0 !! b = s !! b).
  { intros b Hb. unfold s0. rewrite ensure_bucket_lookup.
    by rewrite decide_False. }
  assert (Hold : ∀ n, old n = g !! n).
  { intros n. unfold old, get_object, g.
    destruct (s !! BUCKET_GOLD); [done|]. simpl. by rewrite lookup_empty. }
  assert (Hget0 : ∀ n, get_object BUCKET_GOLD n s0 = g !! n).
  { intros n. unfold get_object. by rewrite Hgold. }
  unfold after_uploads, upload_order. cbn [existsb].
  rewrite (and_then_upload _ _ _ _ "volumes_day.csv" s0 g Hgold).
  destruct (put_fails BUCKET_GOLD "volumes_day.csv").
  { rewrite !and_then_raised. cbn [fst snd orb negb].
    rewrite !Hget0, !Hold. repeat split; try done.
    intros n _. by rewrite Hget0, Hold. }
  erewrite (and_then_upload _ _ _ _ "volumes_month.csv")
    by apply lookup_insert_eq.
  destruct (put_fails BUCKET_GOLD "volumes_month.csv").
  { rewrite !and_then_raised. cbn [fst snd orb negb].
    unfold get_object. rewrite !lookup_insert_eq. cbn [mbind option_bind].
    rewrite lookup_insert_eq, !lookup_insert_ne by done.
    rewrite !Hold. repeat split; try done.
    - intros b Hb. by rewrite lookup_insert_ne, Hother by done.
    - intros n Hn. rewrite lookup_insert_ne; [done|].
      intros <-. apply Hn. by left. }
  erewrite (and_then_upload _ _ _ _ "ca_by_country.csv")
    by apply lookup_insert_eq.
  destruct (put_fails BUCKET_GOLD "ca_by_country.csv").
  { rewrite !and_then_raised. cbn [fst snd orb negb].
    rewrite !insert_insert_eq.
    unfold get_object. rewrite !lookup_insert_eq. cbn [mbind option_bind].
    rewrite !Hold.
    repeat split.
    - intros b Hb. by rewrite lookup_insert_ne, Hother by done.
    - by rewrite lookup_insert_ne, lookup_insert_eq by done.
    - by rewrite lookup_insert_eq.
    - by rewrite !lookup_insert_ne by done.
    - by rewrite !lookup_insert_ne by done.
    - intros n Hn. rewrite !lookup_insert_ne; [done| |].
      + intros <-. apply Hn. by left.
      + intros <-. apply Hn. right. by left. }
  erewrite (and_then_upload _ _ _ _ "monthly_revenue.csv")
    by apply lookup_insert_eq.
  destruct (put_fails BUCKET_GOLD "monthly_revenue.csv").
  { cbn [fst snd orb negb]. rewrite !insert_insert_eq.
    unfold get_object. rewrite !lookup_insert_eq. cbn [mbind option_bind].
    rewrite !Hold.
    repeat split.
    - intros b Hb. by rewrite lookup_insert_ne, Hother by done.
    - by rewrite !lookup_insert_ne, lookup_insert_eq by done.
    - by rewrite lookup_insert_ne, lookup_insert_eq by done.
    - by rewrite lookup_insert_eq.
    - by rewrite !lookup_insert_ne by done.
    - intros n Hn. rewrite !lookup_insert_ne; [done| | |].
      + intros <-. apply Hn. by left.
      + intros <-. apply Hn. right. by left.
      + intros <-. apply Hn. right. right. by left. }
  cbn [fst snd orb negb]. rewrite !insert_insert_eq.
  unfold get_object. rewrite !lookup_insert_eq. cbn [mbind option_bind].
  repeat split.
  - intros b Hb. by rewrite lookup_insert_ne, Hother by done.
  - by rewrite !lookup_insert_ne, lookup_insert_eq by done.
  - by rewrite !lookup_insert_ne, lookup_insert_eq by done.
  - by rewrite lookup_insert_ne, lookup_insert_eq by done.
  - by rewrite lookup_insert_eq.
  - intros n Hn. rewrite Hold. rewrite !lookup_insert_ne; [done| | | |].
    + intros <-. apply Hn. by left.
    + intros <-. apply Hn. right. by left.
    + intros <-. apply Hn. right. right. by left.
    + intros <-. apply Hn. right. right. right. by left.
Qed.

End gold_flow_properties.

Section bucket_flow_examples.
Import Frame Gold Buckets GoldFlow Instance Examples.

(** A parser that reads every object as the client table of the
    examples, and a printer that prints every table as "csv". *)
Definition read_clients (data : string) : option frame := Some one_client.
Definition print_csv (df : frame) : string := "csv".

Definition bronze_store : store :=
  {[ "bronze" := {[ "clients.csv" := "raw" ]} ]}.

Definition cleaned_store : store :=
  <[ "silver" := {[ "clients.csv" := "csv" ]} ]> bronze_store.

Lemma read_clients_ok data df : read_clients data = Some df → frame_ok df.
Proof. intros [= <-]. by_compute. Defined.

Lemma silver_flow_result_witness :
  "bronze" ≠ "silver"
  ∧ (∃ silver',
       silver_transformation_flow "bronze" "silver" read_clients print_csv
         bronze_store
       = Some (<[ "silver" := silver' ]> bronze_store)).
Proof.
  assert (Hne : "bronze" ≠ "silver") by done.
  split; [exact Hne|].
  destruct (proj2 (silver_flow_result "bronze" "silver" read_clients
                     print_csv bronze_store Hne read_clients_ok)
              {[ "clients.csv" := "raw" ]} eq_refl)
    as (silver' & Hflow & _).
  exists silver'. exact Hflow.
Defined.

Lemma silver_flow_idempotent_witness :
  "bronze" ≠ "silver"
  ∧ silver_transformation_flow "bronze" "silver" read_clients print_csv
      bronze_store = Some cleaned_store
  ∧ silver_transformation_flow "bronze" "silver" read_clients print_csv
      cleaned_store = Some cleaned_store.
Proof.
  assert (Hne : "bronze" ≠ "silver") by done.
  assert (Hflow : silver_transformation_flow "bronze" "silver" read_clients
                    print_csv bronze_store = Some cleaned_store)
    by (vm_compute; reflexivity).
  split; [exact Hne|]. split; [exact Hflow|].
  exact (silver_flow_idempotent "bronze" "silver" read_clients print_csv
           bronze_store cleaned_store Hne read_clients_ok Hflow).
Defined.

(** A silver bucket with the two cleaned tables of the examples. *)
Definition read_silver (data : string) : option frame :=
  if String.eqb data "clients" then Some one_client else Some two_months.
Definition print_table (t : kpi_table) : string :=
  match t with
  | VolumesDay _ => "day"
  | VolumesMonth _ => "month"
  | CaByCountry _ => "country"
  | MonthlyRevenue _ => "revenue"
  end.

Definition silver_store : store :=
  {[ "silver" := {[ "clients.csv" := "clients"; "achats.csv" := "achats" ]} ]}.

(** The upload of ca_by_country.csv fails, the others do not. *)
Definition country_fails (bucket name : string) : bool :=
  String.eqb name "ca_by_country.csv".

Lemma gold_flow_uploads_witness :
  "silver" ≠ "gold"
  ∧ (gold_aggregation_flow "silver" "gold" read_silver print_table
       country_fails silver_store).2 = false
  ∧ get_object "gold" "volumes_month.csv"
      (gold_aggregation_flow "silver" "gold" read_silver print_table
         country_fails silver_store).1 = Some "month"
  ∧ get_object "gold" "ca_by_country.csv"
      (gold_aggregation_flow "silver" "gold" read_silver print_table
         country_fails silver_store).1 = None.
Proof.
  assert (Hne : "silver" ≠ "gold") by done.
  assert (Hk : silver_kpis "silver" read_silver silver_store
               = compute_kpis one_client two_months)
    by (vm_compute; reflexivity).
  destruct (compute_kpis one_client two_months) as [k|] eqn:Ek;
    [|by vm_compute in Ek].
  destruct (proj2 (gold_flow_uploads "silver" "gold" read_silver
                     print_table country_fails silver_store Hne) k Hk)
    as (Hret & _ & _ & Hmonth & Hcountry & _).
  split; [exact Hne|]. split; [exact Hret|].
  split; [exact Hmonth|exact Hcountry].
Defined.

End bucket_flow_examples.

(** ** Cleaning, then aggregation: the shape of the cleaned tables *)
Module Shapes.
Import PyStr Frame Silver Gold.

Inductive dtype := object | float64 | datetime64.

Definition dtype_of (c : column) : dtype :=
  match c with
  | ObjectCol _ => object
  | FloatCol _ => float64
  | DatetimeCol _ => datetime64
  end.

(** A table as [pd.read_csv] types it: no datetime column. *)
Definition csv_typed (df : frame) : Prop :=
  ∀ n c, (n, c) ∈ df → dtype_of c ≠ datetime64.

(** The labels of the purchase table when [compute_kpis] joins it
    (line 40): lines 31-33 have put the columns day, month and week at
    its end, each unless the table had the label. *)
Definition joined_labels (labels : list string) : list string :=
  foldl (λ l n, if bool_decide (n ∈ l) then l else (l ++ [n])%list)
    labels ["day"; "month"; "week"].

(** The labels of a merge do not clash: pandas gives the suffix "_x" to
    the left labels that the right side has too (the key of the right
    side aside, which the merge drops), "_y" to such right labels, and
    from version 2.0 raises a [MergeError] when a suffixed label is then
    twice on its side. *)
Definition suffix_free (key : string) (left right : list string) : Prop :=
  let right := filter (λ n, n ≠ key) right in
  NoDup ((λ n, if bool_decide (n ∈ right) then n ++ "_x" else n) <$> left)
  ∧ NoDup ((λ n, if bool_decide (n ∈ left) then n ++ "_y" else n) <$> right).

Lemma same_kind_dtype a b : same_kind a b = true ↔ dtype_of a = dtype_of b.
Proof. destruct a, b; simpl; split; done. Qed.

Lemma dtype_col_mask m c : dtype_of (col_mask m c) = dtype_of c.
Proof. by destruct c. Qed.

Section shapes.
Context `{Pandas}.

(** The dtype of a coerced column depends on its label and dtype only. *)
Lemma dtype_coerce_col n c c' :
  dtype_of c = dtype_of c' →
  dtype_of (coerce_col (n, c)).2 = dtype_of (coerce_col (n, c')).2.
Proof.
  intros Hd. unfold coerce_col, prod_map; simpl.
  unfold parse_dates_col; simpl.
  destruct (contains "date" (lower (strip n))); simpl; [done|].
  unfold normalize_numeric_col; simpl.
  destruct c as [vs|vs|vs], c' as [vs'|vs'|vs']; try done; simpl.
  destruct (bool_decide _); simpl; [done|].
  unfold normalize_strings_col; simpl. by destruct (is_text_label _).
Qed.

Lemma dtype_coerce_date n c :
  contains "date" (lower (strip n)) = true →
  dtype_of (coerce_col (n, c)).2 = datetime64.
Proof.
  intros Hd. unfold coerce_col, prod_map; simpl.
  unfold parse_dates_col; simpl. by rewrite Hd.
Qed.

Lemma dtype_coerce_numeric n c :
  contains "date" (lower (strip n)) = false →
  lower (strip n) ∈ numeric_names → dtype_of c ≠ datetime64 →
  dtype_of (coerce_col (n, c)).2 = float64.
Proof.
  intros Hd Hn Hc. unfold coerce_col, prod_map; simpl.
  unfold parse_dates_col; simpl. rewrite Hd.
  unfold normalize_numeric_col; simpl.
  destruct c as [vs|vs|vs]; simpl; [|done|done].
  by rewrite bool_decide_eq_true_2.
Qed.

Lemma col_lookup_filter_notna name key df c :
  col_lookup name df = Some c →
  ∃ c', col_lookup name (filter_notna key df) = Some c'
        ∧ dtype_of c' = dtype_of c.
Proof.
  intros Hc. unfold filter_notna.
  destruct (col_lookup key df) as [k|]; [|by exists c].
  rewrite col_lookup_frame_mask, Hc. simpl. eexists. split; [done|].
  apply dtype_col_mask.
Qed.

(** A column of the cleaned table: it is there under the stripped label,
    as long as the table, with the dtype of the coerced column. *)
Lemma transform_lookup df name :
  frame_ok df → name ∈ strip <$> columns df →
  ∃ n c c', (n, c) ∈ df ∧ strip n = name
    ∧ col_lookup name (transform_dataframe df) = Some c'
    ∧ dtype_of c' = dtype_of (coerce_col (n, c)).2
    ∧ col_len c' = nrows (transform_dataframe df).
Proof.
  intros [Hnd Hu] Hin.
  apply list_elem_of_fmap in Hin as (n & -> & Hin).
  apply list_elem_of_fmap in Hin as ([n' c] & -> & Hin). simpl.
  exists n', c.
  set (m0 := existsb notna <$> rows df).
  assert (Hin0 : (n', col_mask m0 c) ∈ dropna_all df).
  { unfold dropna_all, frame_mask. fold m0.
    apply list_elem_of_fmap. by exists (n', c). }
  assert (Hnd0 : NoDup (strip <$> columns (dropna_all df))).
  { unfold dropna_all. by rewrite columns_frame_mask. }
  pose proof (col_lookup_coerce _ _ _ Hnd0 Hin0) as H1.
  unfold transform_dataframe.
  assert (H2 : ∃ c2, col_lookup (strip n')
                       (drop_duplicates (coerce (dropna_all df))) = Some c2
                     ∧ dtype_of c2
                       = dtype_of (coerce_col (n', col_mask m0 c)).2).
  { unfold drop_duplicates. rewrite col_lookup_frame_mask, H1. simpl.
    eexists. split; [done|]. apply dtype_col_mask. }
  destruct H2 as (c2 & H2 & D2).
  destruct (col_lookup_filter_notna _ "id_client" _ _ H2) as (c3 & H3 & D3).
  destruct (col_lookup_filter_notna _ "id_achat" _ _ H3) as (c4 & H4 & D4).
  exists c4. split; [done|]. split; [done|]. split; [exact H4|]. split.
  - rewrite D4, D3, D2. apply dtype_coerce_col, dtype_col_mask.
  - destruct (uniform_stages df Hu) as (_ & _ & _ & Hu4).
    apply (uniform_elem _ _ (strip n') _ Hu4).
    by apply col_lookup_Some.
Qed.

End shapes.
End Shapes.

Section cleaning_then_aggregation.
Import PyStr Frame Silver Gold Shapes.
Context `{Pandas}.

(** X26. The cleaned tables are what the aggregation takes: for a
    client and a purchase extract as [pd.read_csv] types them (no
    datetime column), well formed, the purchases with the columns
    id_client, date_achat and montant, the clients with id_client and
    pays, and pays, montant and month on one side only, and no label that
    the suffix of the join would make twice on its side (the one case in
    which the merge itself raises), the aggregation of the two cleaned
    tables does not raise. The date parser is taken to give a datetime64
    column, as [Pandas] has it. *)
Theorem cleaned_tables_aggregate (clients achats : frame) :
  frame_ok clients → frame_ok achats →
  csv_typed clients → csv_typed achats →
  let la := strip <$> columns achats in
  let lc := strip <$> columns clients in
  "id_client" ∈ la → "date_achat" ∈ la → "montant" ∈ la → "pays" ∉ la →
  "id_client" ∈ lc → "pays" ∈ lc → "montant" ∉ lc → "month" ∉ lc →
  suffix_free "id_client" (joined_labels la) lc →
  ∃ k, compute_kpis (transform_dataframe clients)
         (transform_dataframe achats) = Some k.
Proof.
  intros Hokc Hoka Hcsvc Hcsva la lc Hai Had Ham Hap Hci Hcp Hcm Hcmo _.
  destruct (transform_lookup achats "id_client" Hoka Hai)
    as (n1 & c1 & ids & Hin1 & Hn1 & Hids & Dids & Lids).
  destruct (transform_lookup achats "date_achat" Hoka Had)
    as (n2 & c2 & dc & Hin2 & Hn2 & Hdc & Ddc & Ldc).
  destruct (transform_lookup achats "montant" Hoka Ham)
    as (n3 & c3 & mc & Hin3 & Hn3 & Hmc & Dmc & Lmc).
  destruct (transform_lookup clients "id_client" Hokc Hci)
    as (n4 & c4 & cids & Hin4 & Hn4 & Hcids & Dcids & Lcids).
  destruct (transform_lookup clients "pays" Hokc Hcp)
    as (n5 & c5 & pays & Hin5 & Hn5 & Hpays & _ & _).
  assert (Fids : dtype_of ids = float64).
  { rewrite Dids. apply dtype_coerce_numeric.
    - rewrite Hn1. by vm_compute.
    - rewrite Hn1. by_compute.
    - by eapply Hcsva. }
  assert (Fcids : dtype_of cids = float64).
  { rewrite Dcids. apply dtype_coerce_numeric.
    - rewrite Hn4. by vm_compute.
    - rewrite Hn4. by_compute.
    - by eapply Hcsvc. }
  assert (Fmc : dtype_of mc = float64).
  { rewrite Dmc. apply dtype_coerce_numeric.
    - rewrite Hn3. by vm_compute.
    - rewrite Hn3. by_compute.
    - by eapply Hcsva. }
  destruct mc as [|amounts|]; try done.
  eexists. eapply (compute_kpis_tables _ _ ids (to_datetime dc) amounts
                     cids pays).
  split.
  - exists dc. split; [done|]. split; [done|]. by rewrite Ldc, Lids.
  - done.
  - done.
  - transitivity (col_len (FloatCol amounts)).
    + unfold col_len. simpl. by rewrite length_fmap.
    + by rewrite Lmc, Lids.
  - done.
  - done.
  - apply same_kind_dtype. by rewrite Fids, Fcids.
  - by rewrite columns_transform.
  - by rewrite columns_transform.
  - by rewrite columns_transform.
Qed.

End cleaning_then_aggregation.

Section cleaning_then_aggregation_examples.
Import PyStr Frame Silver Gold Shapes Instance Examples.

Lemma raw_clients_csv_typed : csv_typed raw_clients.
Proof.
  intros n c Hin. unfold raw_clients in Hin.
  repeat (apply elem_of_cons in Hin as [[= -> ->]|Hin]; [done|]).
  by apply elem_of_nil in Hin.
Defined.

Lemma raw_achats_csv_typed : csv_typed raw_achats.
Proof.
  intros n c Hin. unfold raw_achats in Hin.
  repeat (apply elem_of_cons in Hin as [[= -> ->]|Hin]; [done|]).
  by apply elem_of_nil in Hin.
Defined.

(** Purchases with the columns nom and nom_x, clients with nom: the
    join would name two columns nom_x. *)
Lemma suffix_clash_example :
  ¬ suffix_free "id_client"
      (joined_labels ["id_client"; "date_achat"; "montant"; "nom"; "nom_x"])
      ["id_client"; "pays"; "nom"].
Proof. by_compute. Qed.

(** The scenario of the specification: the two extracts cleaned, then
    aggregated. *)
Lemma cleaned_tables_aggregate_witness :
  frame_ok raw_clients ∧ frame_ok raw_achats
  ∧ (∃ k, compute_kpis (transform_dataframe raw_clients)
            (transform_dataframe raw_achats) = Some k).
Proof.
  assert (Hc : frame_ok raw_clients) by by_compute.
  assert (Ha : frame_ok raw_achats) by by_compute.
  split; [exact Hc|]. split; [exact Ha|].
  apply (cleaned_tables_aggregate raw_clients raw_achats Hc Ha
           raw_clients_csv_typed raw_achats_csv_typed); by_compute.
Defined.

End cleaning_then_aggregation_examples.

(** ** The metadata collection under the flow *)
Module MetadataRecords.
Import PyStr Frame PyTime Mongo Flows.

Section records.
Context (isoformat : datetime → string).

(** A publication under the name of the metadata collection itself: what
    the collection holds afterwards does not depend on what it held. *)
Lemma docs_write_reserved now df metadata (db : database) :
  docs "ingest_metadata"
    (write_df_to_mongo isoformat now df "ingest_metadata" metadata db)
  = Republish.upserted (by_collection "ingest_metadata")
      (apply_set (ingest_meta isoformat now "ingest_metadata" metadata))
      [("collection", BStr "ingest_metadata")]
      (if empty df then [] else to_records df).
Proof.
  unfold write_df_to_mongo. rewrite docs_update_one.
  unfold Republish.upserted. destruct (empty df).
  - by rewrite docs_delete_many_all.
  - by rewrite docs_insert_many, docs_delete_many_all.
Qed.

Context (BUCKET_GOLD : string).
Context (get_object : string → string → option string).
Context (read_parquet read_csv : string → option frame).
Context (valid_name : string → bool).
Context (clock : nat → datetime).

Local Abbreviation step :=
  (publish_object isoformat BUCKET_GOLD get_object read_parquet read_csv
     valid_name clock).
Local Abbreviation ok :=
  (publishable BUCKET_GOLD get_object read_parquet read_csv valid_name).

Lemma publish_object_metadata st o c :
  (ok o = true → collection_of o ≠ "ingest_metadata") →
  metadata_of c st.2 ≠ [] → metadata_of c (step st o).2 ≠ [].
Proof.
  intros Hres Hc. unfold publish_object, publishable in *.
  destruct (read_object_to_df _ _ _ _ _) as [df|]; [|done].
  destruct (valid_name (collection_of o)); [|done]. simpl.
  destruct (decide (collection_of o = c)) as [<-|Hne].
  - by rewrite metadata_of_write by (by apply Hres).
  - by rewrite metadata_of_write_ne by (by try apply Hres).
Qed.

Lemma foldl_publish_metadata objs st c :
  (∀ o, o ∈ objs → ok o = true → collection_of o ≠ "ingest_metadata") →
  metadata_of c st.2 ≠ [] → metadata_of c (foldl step st objs).2 ≠ [].
Proof.
  revert st. induction objs as [|o objs IH]; intros st Hall Hc; [done|].
  simpl. apply IH.
  - intros o' Ho'. by apply Hall, list_elem_of_further.
  - apply publish_object_metadata; [|done].
    apply Hall, list_elem_of_here.
Qed.

End records.
End MetadataRecords.

Section metadata_properties.
Import PyStr Frame PyTime Mongo Flows MetadataRecords.
Context (isoformat : datetime → string).
Context (BUCKET_GOLD : string).
Context (get_object : string → string → option string).
Context (read_parquet read_csv : string → option frame).
Context (valid_name : string → bool).
Context (clock : nat → datetime).

Local Abbreviation flow :=
  (gold_to_mongo_flow isoformat BUCKET_GOLD get_object read_parquet read_csv
     valid_name clock).
Local Abbreviation ok :=
  (publishable BUCKET_GOLD get_object read_parquet read_csv valid_name).

(** X27. A publication under the name ingest_metadata wipes the
    metadata of every table: the metadata collection then holds what
    this one publication puts there, whatever it held before, and after
    the publication of a table without rows no other table has a
    metadata record left. *)
Theorem reserved_name_wipes_metadata (now : datetime) (df : frame)
    (metadata : doc) (db : database) :
  let db' :=
    write_df_to_mongo isoformat now df "ingest_metadata" metadata db in
  docs "ingest_metadata" db'
  = docs "ingest_metadata"
      (write_df_to_mongo isoformat now df "ingest_metadata" metadata ∅)
  ∧ (empty df = true →
     ∀ name, name ≠ "ingest_metadata" → metadata_of name db' = []).
Proof.
  intros db'. unfold db'. split; [by rewrite !docs_write_reserved|].
  intros He name Hne. unfold metadata_of.
  rewrite docs_write_reserved, He. unfold Republish.upserted.
  change (update_first _ _ []) with (@None (list doc)). cbv iota.
  rewrite app_nil_l.
  change (List.filter ?p [?x]) with (if p x then [x] else []).
  rewrite (by_collection_ingest_meta isoformat).
  by rewrite bool_decide_eq_false_2 by done.
Qed.

(** X28. After the flow every object it published has its metadata
    record, exactly one on a store that had at most one per table, as
    long as no object of the listing is published to ingest_metadata
    itself. *)
Theorem flow_records_metadata (pre post : list object) (o : object)
    (st : nat * database) :
  ok o = true →
  (∀ o', o' ∈ (pre ++ o :: post)%list → ok o' = true →
         collection_of o' ≠ "ingest_metadata") →
  metadata_of (collection_of o) (flow true ((pre ++ o :: post)%list) st).2 ≠ []
  ∧ (meta_unique st.2 →
     length (metadata_of (collection_of o)
               (flow true ((pre ++ o :: post)%list) st).2) = 1%nat).
Proof.
  intros Hok Hall.
  assert (Hne : metadata_of (collection_of o)
                  (flow true ((pre ++ o :: post)%list) st).2 ≠ []).
  { rewrite flow_foldl, foldl_app. simpl.
    apply foldl_publish_metadata.
    - intros o' Ho'. apply Hall. rewrite elem_of_app. right. by right.
    - assert (Hres : collection_of o ≠ "ingest_metadata").
      { apply Hall; [|done]. rewrite elem_of_app. right.
        apply list_elem_of_here. }
      unfold publish_object at 1. unfold publishable in Hok.
      destruct (read_object_to_df _ _ _ _ _) as [df|]; [|done].
      rewrite Hok. simpl. by rewrite metadata_of_write. }
  split; [exact Hne|]. intros Hu.
  assert (Hu' : meta_unique (flow true ((pre ++ o :: post)%list) st).2).
  { rewrite flow_foldl. by apply foldl_publish_meta_unique. }
  specialize (Hu' (collection_of o)).
  destruct (metadata_of _ _) as [|d [|d' l]]; simpl in *; [done|done|lia].
Qed.

End metadata_properties.

Section metadata_examples.
Import PyStr Frame PyTime Mongo Flows Instance Examples.

Lemma flow_records_metadata_witness :
  publishable "gold" get_object0 read_parquet0 read_csv0 valid_name0
    (Object "ca_by_country.csv" (Some noon)) = true
  ∧ meta_unique (0%nat, (∅ : database)).2
  ∧ length (metadata_of (collection_of (Object "ca_by_country.csv" (Some noon)))
              (gold_to_mongo_flow isoformat_iso "gold" get_object0
                 read_parquet0 read_csv0 valid_name0 clock0 true
                 ([Object "broken.csv" None]
                  ++ Object "ca_by_country.csv" (Some noon) :: [])%list
                 (0%nat, ∅)).2) = 1%nat.
Proof.
  assert (Hok : publishable "gold" get_object0 read_parquet0 read_csv0
                  valid_name0 (Object "ca_by_country.csv" (Some noon)) = true)
    by (vm_compute; reflexivity).
  split; [exact Hok|]. split; [exact meta_unique_empty|].
  refine (proj2 (flow_records_metadata isoformat_iso "gold" get_object0
                   read_parquet0 read_csv0 valid_name0 clock0
                   [Object "broken.csv" None] []
                   (Object "ca_by_country.csv" (Some noon)) (0%nat, ∅)
                   Hok _) meta_unique_empty).
  intros o' Ho' Hok'. rewrite elem_of_app, !elem_of_cons in Ho'.
  destruct Ho' as [[->|Ho']|[->|Ho']].
  - vm_compute in Hok'. discriminate Hok'.
  - by apply elem_of_nil in Ho'.
  - intros E. vm_compute in E. discriminate E.
  - by apply elem_of_nil in Ho'.
Defined.

End metadata_examples.
